(** * Octant / Giveth to DAOIP-5 converters: epoch reconciliation and
      application aggregation

    A shallow embedding of the decision logic of
    [attached_assets/octant-daoip5-with-fallback_1751025339268.py]
    (classes [OctantAPIClient] and [DAOIP5Converter]) and of
    [transform_to_caip10] from
    [attached_assets/giveth_daoip5_transformer_1751127208591.py].

    Modelling conventions.
    - Parsed JSON documents are values of [json]; Python's [None] and JSON
      [null] are the same value [JNull].  JSON numbers are integers
      (Python [int], unbounded: [Z]); floating-point JSON numbers are not
      part of the model.  [JObj] lists the entries of a dictionary; a key is
      read at its first entry.
    - Python [str] is [string]; the model is exact on ASCII text.  CPython's
      optional limit on the length of decimal conversions is not modelled.
    - A Python exception is a [Raise] result; state changes made before the
      exception persist, as they do in Python.
    - The exchange rate is a Python [float]; its type, its truth value and
      the formatted conversion are parameters of the development.  Pauses
      are rationals: doubling a float is exact.
    - The outside world (HTTP responses, rate services, the clock) is an
      [environment] whose answers may depend on the trace of what the
      program did so far; the trace is part of the state. *)

From Stdlib Require Import ZArith String Ascii List Decimal DecimalString DecimalZ QArith Qcanon Lia.
From stdpp Require Import base option list gmap strings numbers.

Local Open Scope string_scope.
Local Open Scope Z_scope.

(** ** Python values *)

#[warnings="-register-all"]
Inductive json : Type :=
| JNull
| JBool (b : bool)
| JInt (z : Z)
| JStr (s : string)
| JList (l : list json)
| JObj (kv : list (string * json)).

Inductive exn : Type :=
| ValueError | TypeError | AttributeError | KeyError | OverflowError.

Inductive result (A : Type) : Type :=
| Ok (a : A)
| Raise (e : exn).
Arguments Ok {A} a.
Arguments Raise {A} e.

(** Sequencing of computations that may raise. *)
Definition rbind {A B} (r : result A) (k : A -> result B) : result B :=
  match r with Ok a => k a | Raise e => Raise e end.

Notation "x <- m ; k" := (rbind m (fun x => k))
  (at level 20, m at level 100, k at level 200, only parsing).

(** [bool(v)]. *)
Definition py_truthy (v : json) : bool :=
  match v with
  | JNull => false
  | JBool b => b
  | JInt z => negb (z =? 0)
  | JStr s => negb (String.eqb s "")
  | JList l => match l with [] => false | _ => true end
  | JObj kv => match kv with [] => false | _ => true end
  end.

(** [d.get(k, default)]: only dictionaries have a [get] method. *)
Fixpoint assoc (k : string) (kv : list (string * json)) : option json :=
  match kv with
  | [] => None
  | (k', v) :: kv' => if String.eqb k k' then Some v else assoc k kv'
  end.

Definition py_get (d : json) (k : string) (default : json) : result json :=
  match d with
  | JObj kv => Ok (match assoc k kv with Some v => v | None => default end)
  | _ => Raise AttributeError
  end.

(** [for x in v]: the elements a value yields when iterated. *)
Definition py_iter (v : json) : result (list json) :=
  match v with
  | JList l => Ok l
  | JStr s => Ok (map (fun c => JStr (String c "")) (list_ascii_of_string s))
  | JObj kv => Ok (map (fun p => JStr (fst p)) kv)
  | JNull | JBool _ | JInt _ => Raise TypeError
  end.

(** ** [int(...)] and [str(...)] on integers *)

Definition is_space (c : ascii) : bool :=
  let n := N_of_ascii c in
  ((9 <=? n) && (n <=? 13) || (28 <=? n) && (n <=? 32))%N.

Definition is_digit (c : ascii) : bool :=
  let n := N_of_ascii c in ((48 <=? n) && (n <=? 57))%N.

Fixpoint lstrip (s : list ascii) : list ascii :=
  match s with
  | c :: s' => if is_space c then lstrip s' else s
  | [] => []
  end.

Definition strip (s : list ascii) : list ascii :=
  rev (lstrip (rev (lstrip s))).

(** Digits with single underscores between them, as [int] accepts them;
    the result is the digits alone. *)
Fixpoint digits_of (s : list ascii) (prev_digit : bool) : option (list ascii) :=
  match s with
  | [] => if prev_digit then Some [] else None
  | c :: s' =>
      if is_digit c then option_map (cons c) (digits_of s' true)
      else if Ascii.eqb c "_" && prev_digit then digits_of s' false
      else None
  end.

Definition nat_of_digits (s : list ascii) : option Z :=
  match digits_of s false with
  | Some ds => Z.of_uint <$> NilEmpty.uint_of_string (string_of_list_ascii ds)
  | None => None
  end.

(** [int(s)] for a string [s], base 10. *)
Definition int_of_str (s : string) : option Z :=
  match strip (list_ascii_of_string s) with
  | c :: s' =>
      if Ascii.eqb c "-" then Z.opp <$> nat_of_digits s'
      else if Ascii.eqb c "+" then nat_of_digits s'
      else nat_of_digits (c :: s')
  | [] => None
  end.

Definition py_int (v : json) : result Z :=
  match v with
  | JInt z => Ok z
  | JBool b => Ok (if b then 1 else 0)
  | JStr s => match int_of_str s with Some z => Ok z | None => Raise ValueError end
  | JNull | JList _ | JObj _ => Raise TypeError
  end.

(** [str(z)] for an integer [z]. *)
Definition str_of_int (z : Z) : string := NilZero.string_of_int (Z.to_int z).

(** ** Dictionary keys

    Only [None], booleans, integers and strings can be dictionary keys;
    lists and dictionaries are unhashable.  [True == 1] and [False == 0]. *)

Inductive hashable : Type :=
| HNone
| HBool (b : bool)
| HInt (z : Z)
| HStr (s : string).

Definition py_hash (v : json) : result hashable :=
  match v with
  | JNull => Ok HNone
  | JBool b => Ok (HBool b)
  | JInt z => Ok (HInt z)
  | JStr s => Ok (HStr s)
  | JList _ | JObj _ => Raise TypeError
  end.

Definition hashable_eqb (a b : hashable) : bool :=
  match a, b with
  | HNone, HNone => true
  | HStr s, HStr t => String.eqb s t
  | HBool x, HBool y => Bool.eqb x y
  | HBool x, HInt z | HInt z, HBool x => (if x then 1 else 0) =? z
  | HInt x, HInt y => x =? y
  | _, _ => false
  end.

(** [v == k] for a key [k]: a list or a dictionary equals no key. *)
Definition py_eq_key (v : json) (k : hashable) : bool :=
  match py_hash v with
  | Ok h => hashable_eqb h k
  | Raise _ => false
  end.

(** [str(k)], as an f-string formats a key. *)
Definition str_of_key (k : hashable) : string :=
  match k with
  | HNone => "None"
  | HBool true => "True"
  | HBool false => "False"
  | HInt z => str_of_int z
  | HStr s => s
  end.

(** [k[:8]]: only a string key can be sliced. *)
Definition slice8 (k : hashable) : result string :=
  match k with
  | HStr s => Ok (substring 0 8 s)
  | _ => Raise TypeError
  end.

(** [needle in v] for a string [needle]. *)
Fixpoint is_substring (needle s : string) : bool :=
  String.prefix needle s ||
  match s with
  | EmptyString => false
  | String _ s' => is_substring needle s'
  end.

Definition py_contains (v : json) (needle : string) : result bool :=
  match v with
  | JObj kv => Ok (match assoc needle kv with Some _ => true | None => false end)
  | JList l => Ok (existsb (fun x => py_eq_key x (HStr needle)) l)
  | JStr s => Ok (is_substring needle s)
  | JNull | JBool _ | JInt _ => Raise TypeError
  end.

(** [v[k]] for a string [k]. *)
Definition py_getitem (v : json) (k : string) : result json :=
  match v with
  | JObj kv => match assoc k kv with Some x => Ok x | None => Raise KeyError end
  | _ => Raise TypeError
  end.

(** [bool(s)] for a string: false for the empty string only. *)
Definition str_truthy (s : string) : bool := negb (String.eqb s "").

(** ** Giveth: [GivethDaoip5Transformer.transform_to_caip10] *)

Definition transform_to_caip10 (address network : string) : string :=
  if negb (str_truthy address) then ""
  else
    let chain_id := if str_truthy network then network else "1" in
    "eip155:" ++ chain_id ++ ":" ++ address.

(** ** Giveth: [GivethDaoip5Transformer.fetch_projects] *)

Record GivethToDaoip5Config : Type := {
  giveth_api_url : string;
  giveth_output_dir : string;
  base_uri : string;
  chunk_size : Z
}.

Definition GivethToDaoip5Config_default : GivethToDaoip5Config := {|
  giveth_api_url := "https://mainnet.serve.giveth.io/graphql";
  giveth_output_dir := "daoip5_output";
  base_uri := "https://giveth.io";
  chunk_size := 100
|}.

(** What the transformer may raise: an exception of the builtins, the
    division by zero of [skip // batch_size], or the failure of a query
    (an exception of [requests], or the [Exception] raised on GraphQL
    errors). *)
Inductive giveth_exn : Type :=
| Builtin (e : exn)
| ZeroDivisionError
| QueryFailed.

Inductive outcome (A : Type) : Type :=
| Returns (a : A)
| Raises (e : giveth_exn).
Arguments Returns {A} a.
Arguments Raises {A} e.

(** The variables of the query [GetProjects]. *)
Record page_query : Type := {
  q_limit : Z;
  q_skip : Z
}.

(** What [session.post] and [response.json()] lead to: the parsed body, or
    an exception (of the request, of [raise_for_status], of the parser). *)
Inductive graphql_response : Type :=
| Body (data : json)
| RequestFailed.

(** [execute_graphql_query], from the response on; the [except] clause
    logs and raises again. *)
Definition execute_graphql_query (response : graphql_response) : outcome json :=
  match response with
  | RequestFailed => Raises QueryFailed
  | Body data =>
      match py_contains data "errors" with
      | Raise e => Raises (Builtin e)
      | Ok true => Raises QueryFailed
      | Ok false =>
          match py_get data "data" (JObj []) with
          | Ok d => Returns d
          | Raise e => Raises (Builtin e)
          end
      end
  end.

(** [bool(limit)] for [limit: int = None]. *)
Definition limit_set (limit : option Z) : bool :=
  match limit with
  | Some n => negb (n =? 0)
  | None => false
  end.

Definition limit_value (limit : option Z) : Z :=
  match limit with Some n => n | None => 0 end.

(** [l[:n]]. *)
Definition slice_to {A} (l : list A) (n : Z) : list A :=
  if 0 <=? n then firstn (Z.to_nat n) l
  else firstn (length l - Z.to_nat (- n)) l.

Section GivethFetch.
Variable config : GivethToDaoip5Config.
(** The answer to a page query, which may depend on the queries made
    before. *)
Variable post : list page_query -> page_query -> graphql_response.

(** The loop [while True] of [fetch_projects], for at most [fuel]
    iterations; [None] when they do not suffice.  The second component is
    the list of the queries made. *)
Fixpoint fetch_projects_loop (fuel : nat) (limit : option Z) (all_projects : list json)
    (skip : Z) (queries : list page_query)
    : option (outcome (list json) * list page_query) :=
  match fuel with
  | O => None
  | S fuel' =>
      let batch_size := chunk_size config in
      let variables :=
        {| q_limit := if limit_set limit
                      then Z.min batch_size
                             (limit_value limit - Z.of_nat (length all_projects))
                      else batch_size;
           q_skip := skip |} in
      if batch_size =? 0 then Some (Raises ZeroDivisionError, queries)
      else
        let queries' := (queries ++ [variables])%list in
        match execute_graphql_query (post queries variables) with
        | Raises e => Some (Raises e, queries')
        | Returns data =>
            match (page <- py_get data "allProjects" (JObj []);
                   py_get page "projects" (JList [])) with
            | Raise e => Some (Raises (Builtin e), queries')
            | Ok projects =>
                if negb (py_truthy projects) then Some (Returns all_projects, queries')
                else
                  match py_iter projects with
                  | Raise e => Some (Raises (Builtin e), queries')
                  | Ok batch =>
                      let all_projects' := (all_projects ++ batch)%list in
                      let skip' := skip + Z.of_nat (length batch) in
                      if limit_set limit
                         && (limit_value limit <=? Z.of_nat (length all_projects'))
                      then Some (Returns (slice_to all_projects' (limit_value limit)),
                                 queries')
                      else if Z.of_nat (length batch) <? batch_size
                      then Some (Returns all_projects', queries')
                      else fetch_projects_loop fuel' limit all_projects' skip' queries'
                  end
            end
        end
  end.

Definition fetch_projects (fuel : nat) (limit : option Z)
    : option (outcome (list json) * list page_query) :=
  fetch_projects_loop fuel limit [] 0 [].

End GivethFetch.

(** ** Configuration and the outside world *)

Record OctantConfig : Type := {
  base_url : string;
  output_dir : string;
  max_retries : Z;
  retry_delay : Qc
}.

(** The defaults of the [OctantConfig] dataclass. *)
Definition OctantConfig_default : OctantConfig := {|
  base_url := "https://backend.mainnet.octant.app";
  output_dir := "./daoip5_output";
  max_retries := 3;
  retry_delay := 1%Qc
|}.

(** What one [session.get(url, timeout=30)] of [_make_request] leads to:
    a response with its status code and its body as [response.json()]
    parses it ([None] when the body is not JSON, which [requests] reports
    as a [RequestException] without a response), or a [RequestException]
    raised by the call, with the status code of [e.response] if it has one. *)
Inductive http_outcome : Type :=
| Response (status_code : Z) (body : option json)
| RequestException (response_status : option Z).

(** Observable actions, in the order the program performs them:
    [session.get(url)] in [_make_request], [time.sleep(seconds)], a call of
    [api.get_eth_price_for_epoch_end(epoch)] (the historical-rate request),
    a call of [api.get_eth_to_usd_rate()] (the current-rate request), and
    [datetime.now()]. *)
Inductive event : Type :=
| EvGet (url : string)
| EvSleep (seconds : Qc)
| EvHistoricalRate (epoch : Z)
| EvCurrentRate
| EvNow.

Section Converter.

(** The exchange rate: a Python [float]. *)
Context {rate : Type}.
(** [bool(rate)]: false for [0.0] only. *)
Variable rate_truthy : rate -> bool.
(** [f"{wei_int / 10**18 * eth_rate:.2f}"]; the true division raises
    [OverflowError] when the integer is too large for a float. *)
Variable usd_format : Z -> rate -> result string.
(** [str(v)] for a list or a dictionary. *)
Variable repr_container : json -> string.

(** The answers of the outside world; each may depend on everything the
    program did before. *)
Record environment : Type := {
  http : list event -> string -> http_outcome;
  (** [api.get_eth_price_for_epoch_end(epoch)] *)
  historical_rate : list event -> Z -> option rate;
  (** [api.get_eth_to_usd_rate()] *)
  current_rate : list event -> option rate;
  (** [datetime.now().isoformat()] *)
  now_iso : list event -> string
}.

Variable config : OctantConfig.
Variable env : environment.

(** The converter object ([self.eth_usd_rates], [self.chain_info]) and the
    actions performed so far. *)
Record state : Type := {
  eth_usd_rates : gmap Z rate;
  chain_info : json;
  trace : list event
}.

Definition log_event (e : event) (st : state) : state :=
  {| eth_usd_rates := eth_usd_rates st; chain_info := chain_info st;
     trace := trace st ++ [e] |}.

Definition store_rate (epoch : Z) (r : rate) (st : state) : state :=
  {| eth_usd_rates := <[epoch := r]> (eth_usd_rates st);
     chain_info := chain_info st; trace := trace st |}.

(** Computations over the converter state that may raise. *)
Definition M (A : Type) : Type := state -> result A * state.

Definition ret {A} (a : A) : M A := fun st => (Ok a, st).
Definition mbindM {A B} (m : M A) (k : A -> M B) : M B := fun st =>
  match m st with
  | (Ok a, st') => k a st'
  | (Raise e, st') => (Raise e, st')
  end.

Notation "x <~ m ; k" := (mbindM m (fun x => k))
  (at level 20, m at level 100, k at level 200, only parsing).

Definition lift {A} (r : result A) : M A := fun st => (r, st).
Definition get_state : M state := fun st => (Ok st, st).
Definition modify (f : state -> state) : M unit := fun st => (Ok tt, f st).
Definition perform {A} (e : event) (answer : list event -> A) : M A :=
  fun st => (Ok (answer (trace st)), log_event e st).

(** *** [OctantAPIClient] *)

Inductive attempt_result : Type :=
| Returned (v : json)
| Excepted (response_status : option Z).

Definition is_400_or_404 (code : Z) : bool := (code =? 400) || (code =? 404).

(** The body of the [try] block of [_make_request]. *)
Definition try_request (allow_404_400 : bool) (out : http_outcome) : attempt_result :=
  match out with
  | RequestException rs => Excepted rs
  | Response code body =>
      if allow_404_400 && is_400_or_404 code then Returned JNull
      else if (400 <=? code) && (code <? 600) then Excepted (Some code)
      else match body with
           | Some v => Returned v
           | None => Excepted None
           end
  end.

(** The [except] clause's test: [e.response] is present with status 400 or
    404 and such a status is expected. *)
Definition expected_absence (allow_404_400 : bool) (rs : option Z) : bool :=
  allow_404_400 && match rs with Some code => is_400_or_404 code | None => false end.

Fixpoint _make_request_loop (url : string) (allow_404_400 : bool)
    (attempts : list nat) : M json :=
  match attempts with
  | [] => ret JNull
  | attempt :: rest =>
      out <~ perform (EvGet url) (fun t => http env t url);
      match try_request allow_404_400 out with
      | Returned v => ret v
      | Excepted rs =>
          if expected_absence allow_404_400 rs then ret JNull
          else if Z.of_nat attempt <? max_retries config - 1 then
            _ <~ perform (EvSleep (retry_delay config * 2 ^ attempt)%Qc) (fun _ => tt);
            _make_request_loop url allow_404_400 rest
          else ret JNull
      end
  end.

Definition _make_request (endpoint : string) (allow_404_400 : bool) : M json :=
  _make_request_loop (base_url config ++ endpoint) allow_404_400
    (seq 0 (Z.to_nat (max_retries config))).

Definition get_allocations_for_epoch (epoch : Z) : M json :=
  _make_request ("/allocations/epoch/" ++ str_of_int epoch
                 ++ "?includeZeroAllocations=False") false.

Definition get_project_rewards (epoch : Z) : M json :=
  _make_request ("/rewards/projects/epoch/" ++ str_of_int epoch) true.

Definition get_merkle_tree (epoch : Z) : M json :=
  _make_request ("/rewards/merkle_tree/" ++ str_of_int epoch) true.

Definition get_eth_price_for_epoch_end (epoch : Z) : M (option rate) :=
  perform (EvHistoricalRate epoch) (fun t => historical_rate env t epoch).

Definition get_eth_to_usd_rate : M (option rate) :=
  perform EvCurrentRate (current_rate env).

(** *** [DAOIP5Converter]: rates and addresses *)

(** [bool(x)] for an optional value: [None] is false. *)
Definition opt_truthy {A} (truthy : A -> bool) (x : option A) : bool :=
  match x with Some a => truthy a | None => false end.

Definition _get_eth_rate_for_epoch (epoch : Z) : M (option rate) :=
  st <~ get_state;
  match eth_usd_rates st !! epoch with
  | Some r => ret (Some r)
  | None =>
      rate0 <~ get_eth_price_for_epoch_end epoch;
      rate1 <~ (if negb (opt_truthy rate_truthy rate0) then get_eth_to_usd_rate
               else ret rate0);
      match rate1 with
      | Some r =>
          if rate_truthy r then _ <~ modify (store_rate epoch r); ret rate1
          else ret rate1
      | None => ret rate1
      end
  end.

Definition _wei_to_usd_str (wei_amount : json) (epoch : Z) : M (option string) :=
  eth_rate <~ _get_eth_rate_for_epoch epoch;
  match eth_rate with
  | Some r =>
      if rate_truthy r then
        match (wei_int <- py_int wei_amount; usd_format wei_int r) with
        | Ok s => ret (Some s)
        | Raise ValueError | Raise TypeError => ret None
        | Raise e => lift (Raise e)
        end
      else ret None
  | None => ret None
  end.

(** [str(v)], as an f-string formats a value. *)
Definition py_str (v : json) : string :=
  match v with
  | JNull => "None"
  | JBool true => "True"
  | JBool false => "False"
  | JInt z => str_of_int z
  | JStr s => s
  | JList _ | JObj _ => repr_container v
  end.

(** [self._generate_caip10_address(address)], with [chain] the value of
    [self.chain_info]. *)
Definition _generate_caip10_address (chain : json) (address : string) : result string :=
  if negb (py_truthy chain) then Ok ("eip155:1:" ++ address)
  else
    chain_id <- py_get chain "chainId" (JInt 1);
    Ok ("eip155:" ++ py_str chain_id ++ ":" ++ address).

(** *** [DAOIP5Converter.generate_applications] *)

(** The value stored per project in [project_allocations]. *)
Record group : Type := {
  totalAllocated : Z;
  donors : list json;
  allocations : list json
}.

(** An entry of [fundsAsked] or [fundsApproved]; [funding_type] is the
    optional ["type"] key. *)
Record funds : Type := {
  amount : json;
  denomination : string;
  funding_type : option string
}.

Record payout : Type := {
  payout_type : string;
  value_amount : json;
  value_merkleRoot : json;
  value_recipient : hashable;
  proof : string
}.

Record application : Type := {
  app_type : string;
  id : string;
  grantPoolId : string;
  grantPoolName : string;
  projectId : string;
  projectName : string;
  createdAt : string;
  fundsAsked : list funds;
  fundsApproved : list funds;
  fundsApprovedInUSD : option string;
  status : string;
  payouts : list payout
}.

(** The single entry of ["grantPools"] in the document returned by
    [generate_applications]; keys that one of the two documents lacks are
    optional.  The ["_metadata"] block the function attaches afterwards
    (freshness diagnostics) is outside the model. *)
Record grant_pool : Type := {
  pool_type : string;
  pool_name : string;
  applications : list application;
  _note : option string;
  _epoch_concluded : option bool;
  _epoch_status : string;
  _total_applications : option Z;
  _has_allocations : bool;
  _has_rewards : bool;
  _has_merkle_tree : bool
}.

(** [bool(allocations_data and allocations_data.get("allocations"))]. *)
Definition has_allocations (allocations_data : json) : result bool :=
  if negb (py_truthy allocations_data) then Ok false
  else v <- py_get allocations_data "allocations" JNull; Ok (py_truthy v).

(** The values of [epoch_concluded] and [epoch_status] after the checks on
    the three fetched documents. *)
Definition epoch_state (allocations_data rewards_data merkle_data : json)
    : result (bool * string) :=
  has <- has_allocations allocations_data;
  if negb has then Ok (false, "no_allocations")
  else if negb (py_truthy rewards_data) || negb (py_truthy merkle_data)
       then Ok (false, "not_finalized")
  else Ok (true, "completed").

Definition note_map (epoch_status : string) : string :=
  if String.eqb epoch_status "no_allocations" then
    "This epoch has no allocations yet or has not been concluded"
  else if String.eqb epoch_status "not_finalized" then
    "This epoch has allocations but has not been finalized yet (no rewards/merkle data available)"
  else "This epoch has not been concluded yet".

(** [project_allocations]: a dictionary in insertion order. *)
Fixpoint dict_mem (k : hashable) (d : list (hashable * group)) : bool :=
  match d with
  | [] => false
  | (k', _) :: d' => hashable_eqb k' k || dict_mem k d'
  end.

(** [d[k] = f(d[k])] for a key of [d]. *)
Fixpoint dict_alter (f : group -> group) (k : hashable)
    (d : list (hashable * group)) : list (hashable * group) :=
  match d with
  | [] => []
  | (k', g) :: d' =>
      if hashable_eqb k' k then (k', f g) :: d' else (k', g) :: dict_alter f k d'
  end.

Definition empty_group : group :=
  {| totalAllocated := 0; donors := []; allocations := [] |}.

Definition add_allocation (n : Z) (donor allocation : json) (g : group) : group :=
  {| totalAllocated := totalAllocated g + n;
     donors := donors g ++ [donor];
     allocations := allocations g ++ [allocation] |}.

(** One iteration of the grouping loop. *)
Definition group_step (project_allocations : list (hashable * group))
    (allocation : json) : result (list (hashable * group)) :=
  project <- py_get allocation "project" JNull;
  donor <- py_get allocation "donor" JNull;
  amount0 <- py_get allocation "amount" (JStr "0");
  key <- py_hash project;
  let pa := if dict_mem key project_allocations then project_allocations
            else (project_allocations ++ [(key, empty_group)])%list in
  n <- py_int amount0;
  Ok (dict_alter (add_allocation n donor allocation) key pa).

Fixpoint group_allocations (project_allocations : list (hashable * group))
    (allocs : list json) : result (list (hashable * group)) :=
  match allocs with
  | [] => Ok project_allocations
  | allocation :: rest =>
      pa <- group_step project_allocations allocation;
      group_allocations pa rest
  end.

(** The two search loops ([for reward in ...], [for leaf in ...]): the
    first element whose ["address"] equals the project address. *)
Fixpoint find_by_address (l : list json) (project_address : hashable)
    : result (option json) :=
  match l with
  | [] => Ok None
  | x :: l' =>
      a <- py_get x "address" JNull;
      if py_eq_key a project_address then Ok (Some x)
      else find_by_address l' project_address
  end.

(** [project_rewards]; [JNull] when no reward record is found. *)
Definition find_project_rewards (rewards_data : json) (project_address : hashable)
    : result json :=
  if negb (py_truthy rewards_data) then Ok JNull
  else
    has <- py_contains rewards_data "rewards";
    if has then
      rewards <- py_getitem rewards_data "rewards";
      l <- py_iter rewards;
      found <- find_by_address l project_address;
      Ok (match found with Some reward => reward | None => JNull end)
    else Ok JNull.

Definition application_status (project_rewards : json) : result string :=
  if py_truthy project_rewards then
    a <- py_get project_rewards "allocated" (JStr "0");
    allocated <- py_int a;
    m <- py_get project_rewards "matched" (JStr "0");
    matched <- py_int m;
    let total_reward := allocated + matched in
    if 0 <? total_reward then Ok "funded"
    else
      a' <- py_get project_rewards "allocated" (JStr "0");
      allocated' <- py_int a';
      if 0 <? allocated' then Ok "approved" else Ok "pending"
  else Ok "pending".

Definition make_payouts (epoch : Z) (project_rewards merkle_data : json)
    (project_address : hashable) : result (list payout) :=
  if py_truthy project_rewards && py_truthy merkle_data then
    leaves <- py_get merkle_data "leaves" (JList []);
    l <- py_iter leaves;
    found <- find_by_address l project_address;
    match found with
    | Some leaf =>
        leaf_amount <- py_get leaf "amount" JNull;
        root <- py_get merkle_data "root" JNull;
        Ok [ {| payout_type := "OnchainTransaction";
                value_amount := leaf_amount;
                value_merkleRoot := root;
                value_recipient := project_address;
                proof := "merkle_proof_epoch_" ++ str_of_int epoch ++ "_"
                         ++ str_of_key project_address |} ]
    | None => Ok []
    end
  else Ok [].

Definition zero_address : string := "0x0000000000000000000000000000000000000000".

Definition matched_entry (matched_amount : json) : funds :=
  {| amount := matched_amount; denomination := "ETH";
     funding_type := Some "matched_funding" |}.

(** [application["fundsApproved"].append(entry)]. *)
Definition append_fundsApproved (entry : funds) (a : application) : application :=
  {| app_type := app_type a; id := id a; grantPoolId := grantPoolId a;
     grantPoolName := grantPoolName a; projectId := projectId a;
     projectName := projectName a; createdAt := createdAt a;
     fundsAsked := fundsAsked a;
     fundsApproved := fundsApproved a ++ [entry];
     fundsApprovedInUSD := fundsApprovedInUSD a;
     status := status a; payouts := payouts a |}.

(** [application["fundsApprovedInUSD"] = usd]. *)
Definition set_fundsApprovedInUSD (usd : option string) (a : application) : application :=
  {| app_type := app_type a; id := id a; grantPoolId := grantPoolId a;
     grantPoolName := grantPoolName a; projectId := projectId a;
     projectName := projectName a; createdAt := createdAt a;
     fundsAsked := fundsAsked a;
     fundsApproved := fundsApproved a;
     fundsApprovedInUSD := usd;
     status := status a; payouts := payouts a |}.

(** The body of the loop [for project_address, data in
    project_allocations.items()]. *)
Definition create_application (epoch : Z) (rewards_data merkle_data : json)
    (app_counter : Z) (project_address : hashable) (data : group) : M application :=
  project_rewards <~ lift (find_project_rewards rewards_data project_address);
  status0 <~ lift (application_status project_rewards);
  payouts0 <~ lift (make_payouts epoch project_rewards merkle_data project_address);
  st <~ get_state;
  id_address <~ lift (_generate_caip10_address (chain_info st) zero_address);
  pool_address <~ lift (_generate_caip10_address (chain_info st) zero_address);
  project_caip <~ lift (_generate_caip10_address (chain_info st)
                          (str_of_key project_address));
  short <~ lift (slice8 project_address);
  created <~ perform EvNow (now_iso env);
  usd <~ _wei_to_usd_str (JStr (str_of_int (totalAllocated data))) epoch;
  let application0 :=
    {| app_type := "GrantApplication";
       id := id_address ++ "?proposalId=" ++ str_of_int app_counter;
       grantPoolId := pool_address ++ "?contractId=" ++ str_of_int epoch;
       grantPoolName := "Octant Epoch " ++ str_of_int epoch;
       projectId := project_caip ++ "?proposalId=1";
       projectName := "Project " ++ short ++ "...";
       createdAt := created ++ "Z";
       fundsAsked := [ {| amount := JStr "0"; denomination := "ETH";
                          funding_type := None |} ];
       fundsApproved := [ {| amount := JStr (str_of_int (totalAllocated data));
                             denomination := "ETH"; funding_type := None |} ];
       fundsApprovedInUSD := usd;
       status := status0;
       payouts := payouts0 |} in
  if py_truthy project_rewards then
    matched_amount <~ lift (py_get project_rewards "matched" (JStr "0"));
    matched <~ lift (py_int matched_amount);
    let total_amount := str_of_int (totalAllocated data + matched) in
    let application1 := append_fundsApproved (matched_entry matched_amount) application0 in
    matched_usd <~ _wei_to_usd_str matched_amount epoch;
    if opt_truthy str_truthy matched_usd then
      usd' <~ _wei_to_usd_str (JStr total_amount) epoch;
      ret (set_fundsApprovedInUSD usd' application1)
    else ret application1
  else ret application0.

Fixpoint create_applications (epoch : Z) (rewards_data merkle_data : json)
    (app_counter : Z) (project_allocations : list (hashable * group))
    : M (list application) :=
  match project_allocations with
  | [] => ret []
  | (project_address, data) :: rest =>
      app <~ create_application epoch rewards_data merkle_data app_counter
               project_address data;
      apps <~ create_applications epoch rewards_data merkle_data (app_counter + 1) rest;
      ret (app :: apps)
  end.

(** [generate_applications] from the point where the three documents have
    been fetched, up to the construction of the pool entry; the
    freshness metadata attached after that, and the current-rate request
    made for it, are outside the model. *)
Definition generate_applications_from (epoch : Z)
    (allocations_data rewards_data merkle_data : json) : M grant_pool :=
  es <~ lift (epoch_state allocations_data rewards_data merkle_data);
  let epoch_concluded := fst es in
  let epoch_status := snd es in
  if negb epoch_concluded then
    has <~ lift (has_allocations allocations_data);
    ret {| pool_type := "GrantPool";
           pool_name := "Octant Epoch " ++ str_of_int epoch;
           applications := [];
           _note := Some (note_map epoch_status);
           _epoch_concluded := None;
           _epoch_status := epoch_status;
           _total_applications := None;
           _has_allocations := has;
           _has_rewards := py_truthy rewards_data;
           _has_merkle_tree := py_truthy merkle_data |}
  else
    allocs <~ lift (py_get allocations_data "allocations" (JList []));
    l <~ lift (py_iter allocs);
    project_allocations <~ lift (group_allocations [] l);
    apps <~ create_applications epoch rewards_data merkle_data 1 project_allocations;
    ret {| pool_type := "GrantPool";
           pool_name := "Octant Epoch " ++ str_of_int epoch;
           applications := apps;
           _note := None;
           _epoch_concluded := Some epoch_concluded;
           _epoch_status := epoch_status;
           _total_applications := Some (Z.of_nat (length apps));
           _has_allocations := true;
           _has_rewards := py_truthy rewards_data;
           _has_merkle_tree := py_truthy merkle_data |}.

Definition generate_applications (epoch : Z) : M grant_pool :=
  allocations_data <~ get_allocations_for_epoch epoch;
  rewards_data <~ get_project_rewards epoch;
  merkle_data <~ get_merkle_tree epoch;
  generate_applications_from epoch allocations_data rewards_data merkle_data.

End Converter.

(** ** Giveth: [GivethDaoip5Transformer.transform_projects] *)

(** [transform_to_caip10] on any value, formatted as an f-string formats
    it; on strings it is [transform_to_caip10]. *)
Definition transform_to_caip10_value (repr_container : json -> string)
    (address : json) (network : string) : string :=
  if negb (py_truthy address) then ""
  else
    let chain_id := if str_truthy network then network else "1" in
    "eip155:" ++ chain_id ++ ":" ++ py_str repr_container address.

(** [next((addr for addr in addresses if addr.get("isRecipient")), None)]. *)
Fixpoint first_recipient (addresses : list json) : result (option json) :=
  match addresses with
  | [] => Ok None
  | addr :: rest =>
      r <- py_get addr "isRecipient" JNull;
      if py_truthy r then Ok (Some addr) else first_recipient rest
  end.

(** The value of [primary_address]. *)
Definition primary_address_of (project : json) : result json :=
  addresses <- py_get project "addresses" JNull;
  if py_truthy addresses then
    addresses' <- py_getitem project "addresses";
    l <- py_iter addresses';
    recipient_addr <- first_recipient l;
    match recipient_addr with
    | Some addr =>
        if py_truthy addr then py_get addr "address" (JStr "") else Ok (JStr "")
    | None => Ok (JStr "")
    end
  else Ok (JStr "").

(** The value of [project_id]. *)
Definition giveth_project_id (repr_container : json -> string)
    (project primary_address : json) : result string :=
  if py_truthy primary_address
  then Ok (transform_to_caip10_value repr_container primary_address "1")
  else
    pid <- py_getitem project "id";
    Ok ("giveth:project:" ++ py_str repr_container pid).

Record social_entry : Type := {
  social_name : json;
  social_value : json
}.

Fixpoint collect_socials (l : list json) : result (list social_entry) :=
  match l with
  | [] => Ok []
  | social :: rest =>
      n <- py_get social "type" (JStr "");
      v <- py_get social "link" (JStr "");
      socials <- collect_socials rest;
      Ok ({| social_name := n; social_value := v |} :: socials)
  end.

Record transformed_project : Type := {
  tp_type : string;
  tp_id : string;
  tp_name : json;
  tp_description : json;
  tp_contentURI : string;
  tp_email : string;
  tp_membersURI : string;
  tp_attestationIssuersURI : string;
  tp_relevantTo : list string;
  tp_image : json;
  tp_coverImage : json;
  tp_licenseURI : string;
  tp_socials : list social_entry
}.

(** The body of the loop [for project in projects].  In
    [project.get('slug', project['id'])] the default is computed before
    the call. *)
Definition transform_project (config : GivethToDaoip5Config)
    (repr_container : json -> string) (project : json) : result transformed_project :=
  primary_address <- primary_address_of project;
  project_id <- giveth_project_id repr_container project primary_address;
  social_media <- py_get project "socialMedia" JNull;
  socials <- (if py_truthy social_media then
                social_media' <- py_getitem project "socialMedia";
                l <- py_iter social_media';
                collect_socials l
              else Ok []);
  title <- py_get project "title" (JStr "");
  description <- py_get project "description" (JStr "");
  pid <- py_getitem project "id";
  slug <- py_get project "slug" pid;
  pid' <- py_getitem project "id";
  image <- py_get project "image" (JStr "");
  cover <- py_get project "image" (JStr "");
  Ok {| tp_type := "Project";
        tp_id := project_id;
        tp_name := title;
        tp_description := description;
        tp_contentURI := base_uri config ++ "/project/" ++ py_str repr_container slug;
        tp_email := "";
        tp_membersURI := "";
        tp_attestationIssuersURI :=
          base_uri config ++ "/attestations/project/" ++ py_str repr_container pid'
          ++ ".json";
        tp_relevantTo := [];
        tp_image := image;
        tp_coverImage := cover;
        tp_licenseURI := "";
        tp_socials := socials |}.

(** ["projects"] in the document of [transform_projects]. *)
Fixpoint transform_projects (config : GivethToDaoip5Config)
    (repr_container : json -> string) (projects : list json)
    : result (list transformed_project) :=
  match projects with
  | [] => Ok []
  | project :: rest =>
      transformed <- transform_project config repr_container project;
      others <- transform_projects config repr_container rest;
      Ok (transformed :: others)
  end.

(** ** [DAOIP5Converter.generate_projects] *)

(** A dictionary with hashable keys, in insertion order: [k in d],
    [d.get(k)], [d[k] = v] and [d[k] = f(d[k])]. *)
Fixpoint hdict_mem {V} (k : hashable) (d : list (hashable * V)) : bool :=
  match d with
  | [] => false
  | (k', _) :: d' => hashable_eqb k' k || hdict_mem k d'
  end.

Fixpoint hdict_get {V} (k : hashable) (d : list (hashable * V)) : option V :=
  match d with
  | [] => None
  | (k', v) :: d' => if hashable_eqb k' k then Some v else hdict_get k d'
  end.

Fixpoint hdict_set {V} (k : hashable) (v : V) (d : list (hashable * V))
    : list (hashable * V) :=
  match d with
  | [] => [(k, v)]
  | (k', v') :: d' =>
      if hashable_eqb k' k then (k', v) :: d' else (k', v') :: hdict_set k v d'
  end.

Fixpoint hdict_alter {V} (f : V -> V) (k : hashable) (d : list (hashable * V))
    : list (hashable * V) :=
  match d with
  | [] => []
  | (k', v) :: d' =>
      if hashable_eqb k' k then (k', f v) :: d' else (k', v) :: hdict_alter f k d'
  end.

(** [",".join(parts)]. *)
Fixpoint join_comma (parts : list string) : string :=
  match parts with
  | [] => ""
  | [p] => p
  | p :: rest => p ++ "," ++ join_comma rest
  end.

(** An entry of ["projects"]; the name is whatever the details give. *)
Record project : Type := {
  project_type : string;
  project_id : string;
  project_name : json;
  project_description : string;
  contentURI : option string;
  relevantTo : list string;
  participatingEpochs : list Z
}.

(** The document of [generate_projects], with the two counts it reports
    under ["_metadata"]; the freshness metadata is outside the model. *)
Record project_registry : Type := {
  projects : list project;
  total_projects : Z;
  total_project_epoch_participations : Z
}.

(** The loop [for detail in project_details["projectsDetails"]]. *)
Fixpoint fill_detail_map (details : list json) (detail_map : list (hashable * json))
    : result (list (hashable * json)) :=
  match details with
  | [] => Ok detail_map
  | detail :: rest =>
      a <- py_get detail "address" JNull;
      k <- py_hash a;
      fill_detail_map rest (hdict_set k detail detail_map)
  end.

Definition make_detail_map (project_details : json) : result (list (hashable * json)) :=
  if py_truthy project_details then
    has <- py_contains project_details "projectsDetails";
    if has then
      details <- py_getitem project_details "projectsDetails";
      l <- py_iter details;
      fill_detail_map l []
    else Ok []
  else Ok [].

(** The else branch: the epoch is added to an existing project. *)
Definition add_epoch (epoch : Z) (p : project) : project :=
  {| project_type := project_type p; project_id := project_id p;
     project_name := project_name p; project_description := project_description p;
     contentURI := contentURI p;
     relevantTo := relevantTo p ++ ["Octant Epoch " ++ str_of_int epoch];
     participatingEpochs := participatingEpochs p ++ [epoch] |}.

Section Registry.
Context {rate : Type}.
Variable repr_container : json -> string.
Variable config : OctantConfig.
Variable env : @environment rate.

Notation "x <~ m ; k" := (mbindM m (fun x => k))
  (at level 20, m at level 100, k at level 200, only parsing).

Definition get_projects_for_epoch (epoch : Z) : @M rate json :=
  _make_request config env ("/projects/epoch/" ++ str_of_int epoch) false.

(** [get_project_details(epochs)], with the default empty search phrase. *)
Definition get_project_details (epochs : list Z) : @M rate json :=
  _make_request config env
    ("/projects/details?epochs=" ++ join_comma (map str_of_int epochs)
     ++ "&searchPhrases=") false.

(** The body of the loop [for address in project_addresses].  In
    [detail.get("name", f"Project {address[:8]}...")] the method is looked
    up before the default is computed. *)
Definition register_address (chain : json) (epoch : Z) (projects_cid : json)
    (detail_map : list (hashable * json)) (all_projects : list (hashable * project))
    (address : json) : result (list (hashable * project)) :=
  key <- py_hash address;
  if negb (hdict_mem key all_projects) then
    caip <- _generate_caip10_address repr_container chain (str_of_key key);
    let detail := match hdict_get key detail_map with
                  | Some d => d
                  | None => JObj []
                  end in
    _ <- py_get detail "name" JNull;
    short <- slice8 key;
    name <- py_get detail "name" (JStr ("Project " ++ short ++ "..."));
    let project0 :=
      {| project_type := "Project";
         project_id := caip ++ "?proposalId=1";
         project_name := name;
         project_description :=
           "Public goods project participating in Octant quadratic funding";
         contentURI := if py_truthy projects_cid
                       then Some ("ipfs://" ++ py_str repr_container projects_cid)
                       else None;
         relevantTo := ["Octant Epoch " ++ str_of_int epoch];
         participatingEpochs := [epoch] |} in
    Ok (all_projects ++ [(key, project0)])%list
  else Ok (hdict_alter (add_epoch epoch) key all_projects).

Fixpoint register_addresses (chain : json) (epoch : Z) (projects_cid : json)
    (detail_map : list (hashable * json)) (addresses : list json)
    (all_projects : list (hashable * project)) : result (list (hashable * project)) :=
  match addresses with
  | [] => Ok all_projects
  | address :: rest =>
      all_projects' <- register_address chain epoch projects_cid detail_map
                         all_projects address;
      register_addresses chain epoch projects_cid detail_map rest all_projects'
  end.

(** One iteration of the loop [for epoch in epochs]. *)
Definition projects_of_epoch (epoch : Z) (all_projects : list (hashable * project))
    : @M rate (list (hashable * project)) :=
  projects_data <~ get_projects_for_epoch epoch;
  if negb (py_truthy projects_data) then ret all_projects
  else
    project_addresses <~ lift (py_get projects_data "projectsAddresses" (JList []));
    projects_cid <~ lift (py_get projects_data "projectsCid" JNull);
    project_details <~ get_project_details [epoch];
    detail_map <~ lift (make_detail_map project_details);
    addresses <~ lift (py_iter project_addresses);
    st <~ get_state;
    lift (register_addresses (chain_info st) epoch projects_cid detail_map addresses
            all_projects).

Fixpoint collect_projects (epochs : list Z) (all_projects : list (hashable * project))
    : @M rate (list (hashable * project)) :=
  match epochs with
  | [] => ret all_projects
  | epoch :: rest =>
      all_projects' <~ projects_of_epoch epoch all_projects;
      collect_projects rest all_projects'
  end.

Definition participations (all_projects : list (hashable * project)) : Z :=
  fold_right Z.add 0
    (map (fun e => Z.of_nat (length (participatingEpochs (snd e)))) all_projects).

Definition generate_projects (epochs : list Z) : @M rate project_registry :=
  all_projects <~ collect_projects epochs [];
  ret {| projects := map snd all_projects;
         total_projects := Z.of_nat (length all_projects);
         total_project_epoch_participations := participations all_projects |}.

End Registry.

(** ** [DAOIP5Converter.generate_grant_pools] *)

(** Dates at midnight, as their proleptic Gregorian ordinal: day 1 is
    0001-01-01 and [datetime.max] falls on day 3652059. *)
Definition epoch_0_start : Z := 738794.

(** [timedelta(days=days)]. *)
Definition timedelta_days (days : Z) : result Z :=
  if (-999999999 <=? days) && (days <=? 999999999) then Ok days
  else Raise OverflowError.

(** [date + delta]. *)
Definition datetime_add (ordinal delta : Z) : result Z :=
  let r := ordinal + delta in
  if (1 <=? r) && (r <=? 3652059) then Ok r else Raise OverflowError.

Definition _calculate_epoch_dates (epoch : Z) : result (Z * Z) :=
  let epoch_duration_days := 90 in
  d <- timedelta_days (epoch * epoch_duration_days);
  start_date <- datetime_add epoch_0_start d;
  d' <- timedelta_days epoch_duration_days;
  end_date <- datetime_add start_date d';
  Ok (start_date, end_date).

(** An entry of ["grantPools"] in the document of [generate_grant_pools]. *)
Record grant_pool_entry : Type := {
  gp_type : string;
  gp_id : string;
  gp_name : string;
  gp_description : string;
  grantFundingMechanism : string;
  isOpen : json;
  closeDate : string;
  applicationsURI : string;
  governanceURI : string;
  totalGrantPoolSize : list funds;
  epochMetadata : list (string * json)
}.

(** The document, with the two entries added under ["_metadata"]; the
    freshness metadata is outside the model. *)
Record grant_pools_document : Type := {
  grantPools : list grant_pool_entry;
  epochs_processed : list Z;
  total_grant_pools : Z
}.

Definition epoch_metadata_keys : list string :=
  ["stakingProceeds"; "totalEffectiveDeposit"; "vanillaIndividualRewards";
   "operationalCost"; "matchedRewards"; "patronsRewards"; "totalWithdrawals";
   "leftover"; "ppf"; "communityFund"].

(** [{k: d.get(k) for k in keys}], key by key. *)
Fixpoint get_all (d : json) (keys : list string) : result (list (string * json)) :=
  match keys with
  | [] => Ok []
  | k :: rest =>
      v <- py_get d k JNull;
      vs <- get_all d rest;
      Ok ((k, v) :: vs)
  end.

Section GrantPools.
Context {rate : Type}.
Variable repr_container : json -> string.
(** [d.isoformat()] for the date of an ordinal, at midnight. *)
Variable isoformat : Z -> string.
Variable config : OctantConfig.
Variable env : @environment rate.

Notation "x <~ m ; k" := (mbindM m (fun x => k))
  (at level 20, m at level 100, k at level 200, only parsing).

Definition get_epoch_info (epoch : Z) : @M rate json :=
  _make_request config env ("/epochs/info/" ++ str_of_int epoch) false.

Definition get_epoch_status (epoch : Z) : @M rate json :=
  _make_request config env ("/snapshots/status/" ++ str_of_int epoch) false.

(** One iteration of the loop [for epoch in epochs]: the pool appended, if
    any. *)
Definition grant_pool_of_epoch (epoch : Z) : @M rate (option grant_pool_entry) :=
  epoch_info <~ get_epoch_info epoch;
  epoch_status <~ get_epoch_status epoch;
  if negb (py_truthy epoch_info) || negb (py_truthy epoch_status) then ret None
  else
    dates <~ lift (_calculate_epoch_dates epoch);
    st <~ get_state;
    pool_address <~ lift (_generate_caip10_address repr_container (chain_info st)
                            zero_address);
    is_current <~ lift (py_get epoch_status "isCurrent" (JBool false));
    total_rewards <~ lift (py_get epoch_info "totalRewards" (JStr "0"));
    metadata <~ lift (get_all epoch_info epoch_metadata_keys);
    ret (Some
      {| gp_type := "GrantPool";
         gp_id := pool_address ++ "?contractId=" ++ str_of_int epoch;
         gp_name := "Octant Epoch " ++ str_of_int epoch;
         gp_description :=
           "Quadratic funding round for Octant epoch " ++ str_of_int epoch
           ++ " - 90-day funding period supporting Ethereum public goods";
         grantFundingMechanism := "Quadratic Funding";
         isOpen := is_current;
         closeDate := isoformat (snd dates) ++ "Z";
         applicationsURI := "./applications_epoch_" ++ str_of_int epoch ++ ".json";
         governanceURI := "https://docs.octant.app/how-it-works/mechanism";
         totalGrantPoolSize := [ {| amount := total_rewards; denomination := "ETH";
                                    funding_type := None |} ];
         epochMetadata := metadata |}).

Fixpoint collect_grant_pools (epochs : list Z) : @M rate (list grant_pool_entry) :=
  match epochs with
  | [] => ret []
  | epoch :: rest =>
      pool <~ grant_pool_of_epoch epoch;
      pools <~ collect_grant_pools rest;
      ret (match pool with Some p => p :: pools | None => pools end)
  end.

Definition generate_grant_pools (epochs : list Z) : @M rate grant_pools_document :=
  grant_pools <~ collect_grant_pools epochs;
  ret {| grantPools := grant_pools;
         epochs_processed := epochs;
         total_grant_pools := Z.of_nat (length grant_pools) |}.

End GrantPools.

(** ** The command line: [determine_epochs_to_process] and the validation
    of [main] *)

(** The epoch options of [parse_arguments]: [--epoch] (an [int]),
    [--epochs] (a string), [--current] and [--latest] (flags). *)
Record Args : Type := {
  arg_epoch : option Z;
  arg_epochs : option string;
  arg_current : bool;
  arg_latest : bool
}.

(** [s.strip()]. *)
Definition py_strip (s : string) : string :=
  string_of_list_ascii (strip (list_ascii_of_string s)).

(** [s.split(",")]: at least one part, empty parts kept. *)
Fixpoint split_comma (s : string) : list string :=
  match s with
  | EmptyString => [EmptyString]
  | String c s' =>
      if Ascii.eqb c "," then EmptyString :: split_comma s'
      else match split_comma s' with
           | part :: rest => String c part :: rest
           | [] => [String c EmptyString]
           end
  end.

(** [[int(e.strip()) for e in parts]]. *)
Fixpoint parse_epochs (parts : list string) : result (list Z) :=
  match parts with
  | [] => Ok []
  | e :: rest =>
      n <- py_int (JStr (py_strip e));
      ns <- parse_epochs rest;
      Ok (n :: ns)
  end.

(** [sorted(set(l))]: the distinct elements of [l] in increasing order. *)
Fixpoint insert_sorted (z : Z) (l : list Z) : list Z :=
  match l with
  | [] => [z]
  | x :: l' =>
      if z <? x then z :: l
      else if z =? x then l
      else x :: insert_sorted z l'
  end.

Definition sorted_set (l : list Z) : list Z := fold_right insert_sorted [] l.

(** [list(range(lo, hi))]. *)
Definition py_range (lo hi : Z) : list Z :=
  map (fun i => lo + Z.of_nat i) (seq 0 (Z.to_nat (hi - lo))).

Definition determine_epochs_to_process (args : Args) (current_epoch : Z)
    : result (list Z) :=
  match arg_epoch args with
  | Some e => Ok [e]
  | None =>
      match arg_epochs args with
      | Some s =>
          if str_truthy s then
            match parse_epochs (split_comma s) with
            | Ok epochs => Ok (sorted_set epochs)
            | Raise ValueError => Raise ValueError
            | Raise e => Raise e
            end
          else if arg_current args || arg_latest args then Ok [current_epoch]
          else Ok (py_range 1 (current_epoch + 1))
      | None =>
          if arg_current args || arg_latest args then Ok [current_epoch]
          else Ok (py_range 1 (current_epoch + 1))
      end
  end.

(** [[e for e in epochs_to_process if e < 1 or e > current_epoch]]. *)
Definition invalid_epochs (epochs_to_process : list Z) (current_epoch : Z) : list Z :=
  List.filter (fun e => (e <? 1) || (current_epoch <? e)) epochs_to_process.

(** The value of [epochs_to_process] after the validation of [main]. *)
Definition validate_epochs (epochs_to_process : list Z) (current_epoch : Z) : list Z :=
  match invalid_epochs epochs_to_process current_epoch with
  | [] => epochs_to_process
  | invalid =>
      List.filter (fun e => negb (existsb (Z.eqb e) invalid)) epochs_to_process
  end.

(** The epochs [main] goes on to process, from the options and the current
    epoch; with an empty list [main] returns without generating a file. *)
Definition main_epochs (args : Args) (current_epoch : Z) : result (list Z) :=
  epochs_to_process <- determine_epochs_to_process args current_epoch;
  Ok (validate_epochs epochs_to_process current_epoch).

(** ** The vocabulary of the specification *)

(** The three states of an epoch (data model, EpochState). *)
Inductive EpochState : Type := NoAllocations | NotFinalized | Completed.

(** The classification as the specification words it: allocations absent
    gives NoAllocations; allocations present and rewards absent or merkle
    absent gives NotFinalized; all three present gives Completed. *)
Definition spec_resolve (allocations rewards merkle : bool) : EpochState :=
  match allocations, rewards, merkle with
  | false, _, _ => NoAllocations
  | true, true, true => Completed
  | true, _, _ => NotFinalized
  end.

(** The value of [epoch_status] that names a state. *)
Definition status_name (s : EpochState) : string :=
  match s with
  | NoAllocations => "no_allocations"
  | NotFinalized => "not_finalized"
  | Completed => "completed"
  end.

Definition is_completed (s : EpochState) : bool :=
  match s with Completed => true | _ => false end.

(** A value of the declared type [Optional[Dict]]. *)
Definition optional_dict (d : option (list (string * json))) : json :=
  match d with Some kv => JObj kv | None => JNull end.

(** Allocations are present: the document exists and its ["allocations"]
    entry is a non-empty list (more generally, a true value). *)
Definition allocations_present (d : option (list (string * json))) : bool :=
  match d with
  | Some kv => match assoc "allocations" kv with Some v => py_truthy v | None => false end
  | None => false
  end.

(** [int(allocation.get("amount", "0"))] and the dictionary key
    [allocation.get("project")] of one raw allocation record. *)
Definition allocation_amount (allocation : json) : result Z :=
  a <- py_get allocation "amount" (JStr "0"); py_int a.

Definition allocation_project (allocation : json) : result hashable :=
  p <- py_get allocation "project" JNull; py_hash p.

Definition sum_list (l : list Z) : Z := fold_right Z.add 0 l.

Definition sum_totals (project_allocations : list (hashable * group)) : Z :=
  sum_list (map (fun e => totalAllocated (snd e)) project_allocations).


(** [allocations_data.get("allocations", [])] as the grouping loop
    iterates it. *)
Definition allocation_records (allocations_data : json) : result (list json) :=
  allocs <- py_get allocations_data "allocations" (JList []); py_iter allocs.



(** The first entry of [fundsApproved]: the allocated total. *)
Definition allocated_entry (data : group) : funds :=
  {| amount := JStr (str_of_int (totalAllocated data)); denomination := "ETH";
     funding_type := None |}.












(** The number of historical-rate requests for [epoch] in a trace. *)
Definition is_historical_request (epoch : Z) (e : event) : bool :=
  match e with
  | EvHistoricalRate e' => e' =? epoch
  | _ => false
  end.

Definition historical_requests (epoch : Z) (t : list event) : nat :=
  length (List.filter (is_historical_request epoch) t).

(** A run of the rate cache: one lookup after the other; the state it ends in. *)
Fixpoint rate_lookups {rate : Type} (rate_truthy : rate -> bool)
    (env : @environment rate) (epochs : list Z) (st : @state rate) : @state rate :=
  match epochs with
  | [] => st
  | e :: rest =>
      rate_lookups rate_truthy env rest (snd (_get_eth_rate_for_epoch rate_truthy env e st))
  end.

(** The number of requests of [_make_request] in a trace. *)
Definition is_get (e : event) : bool :=
  match e with EvGet _ => true | _ => false end.

Definition gets (t : list event) : nat := length (List.filter is_get t).


(** An attempt that fails and is not an expected absence. *)
Definition attempt_fails (allow_404_400 : bool) (out : http_outcome) : bool :=
  match try_request allow_404_400 out with
  | Returned _ => false
  | Excepted rs => negb (expected_absence allow_404_400 rs)
  end.


(** ** A concrete world

    Rates in whole dollars per ether, converted in exact arithmetic and
    rounded down to the cent. *)

Definition two_digits (n : Z) : string :=
  if n <? 10 then "0" ++ str_of_int n else str_of_int n.

Definition usd_format_exact (wei_int rate : Z) : result string :=
  let cents := wei_int * rate * 100 / 10 ^ 18 in
  Ok ((if cents <? 0 then "-" else "") ++ str_of_int (Z.abs cents / 100)
      ++ "." ++ two_digits (Z.abs cents mod 100)).

Definition rate_nonzero (r : Z) : bool := negb (r =? 0).

Definition repr_unused (v : json) : string := "".

(** Every request fails and no rate can be fetched. *)
Definition env_offline : @environment Z := {|
  http := fun _ _ => RequestException None;
  historical_rate := fun _ _ => None;
  current_rate := fun _ => None;
  now_iso := fun _ => "2025-01-01T00:00:00"
|}.

(** The historical rate of every epoch is 2000 dollars. *)
Definition env_2000 : @environment Z := {|
  http := fun _ _ => RequestException None;
  historical_rate := fun _ _ => Some 2000;
  current_rate := fun _ => None;
  now_iso := fun _ => "2025-01-01T00:00:00"
|}.


Definition state_initial : @state Z :=
  {| eth_usd_rates := ∅; chain_info := JNull; trace := [] |}.

(** The documents of end-to-end scenario C. *)
Definition scenario_C_allocations : json :=
  JObj [("allocations", JList [
    JObj [("project", JStr "0xAA"); ("donor", JStr "0xD1");
          ("amount", JStr "1000000000000000000")];
    JObj [("project", JStr "0xAA"); ("donor", JStr "0xD2");
          ("amount", JStr "500000000000000000")]])].

Definition scenario_C_rewards : json :=
  JObj [("rewards", JList [
    JObj [("address", JStr "0xAA"); ("allocated", JStr "1500000000000000000");
          ("matched", JStr "0")]])].

Definition scenario_C_merkle : json :=
  JObj [("root", JStr "0xR");
        ("leaves", JList [
           JObj [("address", JStr "0xAA"); ("amount", JStr "1500000000000000000")]])].

(** Scenario C for epoch 7, in the world whose historical rate is 2000. *)
Definition scenario_C_run : result grant_pool * @state Z :=
  generate_applications_from rate_nonzero usd_format_exact repr_unused env_2000 7
    scenario_C_allocations scenario_C_rewards scenario_C_merkle state_initial.



(** An allocation record without a ["project"] entry. *)
Definition allocations_without_project : json :=
  JObj [("allocations", JList [
    JObj [("donor", JStr "0xD1"); ("amount", JStr "1000000000000000000")]])].

(** ** The grouping loop, read record by record *)

(** The value a key is compared by: [True] and [False] are 1 and 0. *)
Definition key_value (k : hashable) : hashable :=
  match k with
  | HBool b => HInt (if b then 1 else 0)
  | _ => k
  end.

(** The key, the donor and the amount of a raw allocation record. *)
Definition record_key (allocation : json) : hashable :=
  match allocation_project allocation with Ok k => k | Raise _ => HNone end.

Definition record_donor (allocation : json) : json :=
  match py_get allocation "donor" JNull with Ok d => d | Raise _ => JNull end.

Definition record_amount (allocation : json) : Z :=
  match allocation_amount allocation with Ok n => n | Raise _ => 0 end.

(** The keys of a list in the order of their first occurrence, those
    already [seen] left out; keys are compared as Python compares them. *)
Fixpoint first_occurrences (seen ks : list hashable) : list hashable :=
  match ks with
  | [] => []
  | k :: ks' =>
      if existsb (fun k' => hashable_eqb k' k) seen then first_occurrences seen ks'
      else k :: first_occurrences (seen ++ [k]) ks'
  end.

(** The group of key [e.1] holds the records of that project, in their
    order, with their donors and the sum of their amounts. *)
Definition group_holds (records : list json) (e : hashable * group) : Prop :=
  allocations e.2 = List.filter (fun a => hashable_eqb e.1 (record_key a)) records
  /\ donors e.2 = map record_donor (allocations e.2)
  /\ totalAllocated e.2 = sum_list (map record_amount (allocations e.2)).

(** ** The identifiers of an application *)

(** The application numbered [number] of the pool of [epoch], for the
    project of key [project_address], with [chain] the chain metadata: its
    identifiers are built on the CAIP-10 forms of the zero address and of
    the project address, and the key is a string, whose first eight
    characters name the project. *)
Definition identified_as (repr_container : json -> string) (chain : json)
    (epoch number : Z) (project_address : hashable) (app : application) : Prop :=
  exists pool_address project_caip s,
    _generate_caip10_address repr_container chain zero_address = Ok pool_address
    /\ _generate_caip10_address repr_container chain (str_of_key project_address)
       = Ok project_caip
    /\ project_address = HStr s
    /\ id app = pool_address ++ "?proposalId=" ++ str_of_int number
    /\ grantPoolId app = pool_address ++ "?contractId=" ++ str_of_int epoch
    /\ grantPoolName app = "Octant Epoch " ++ str_of_int epoch
    /\ projectId app = project_caip ++ "?proposalId=1"
    /\ projectName app = "Project " ++ substring 0 8 s ++ "...".

(** ** More vocabulary: rewards, retries, what a run may touch *)

(** [int(project_rewards.get(key, "0"))]. *)
Definition reward_amount (project_rewards : json) (key : string) : result Z :=
  a <- py_get project_rewards key (JStr "0"); py_int a.

(** [k] failed attempts from attempt index [attempt] on, each followed by
    its pause. *)
Fixpoint failed_attempts (url : string) (delay : Qc) (attempt k : nat) : list event :=
  match k with
  | O => []
  | S k' => EvGet url :: EvSleep (delay * 2 ^ attempt)%Qc
              :: failed_attempts url delay (S attempt) k'
  end.

(** What processing [epoch] may do to the converter: add actions to the
    trace and fill in the rate of [epoch] if it has none; the chain
    metadata, the rates of other epochs and a rate already there stay. *)
Definition touches_only {rate : Type} (epoch : Z) (st st' : @state rate) : Prop :=
  chain_info st' = chain_info st
  /\ (exists t, trace st' = (trace st ++ t)%list)
  /\ forall e, e <> epoch \/ is_Some (eth_usd_rates st !! e) ->
               eth_usd_rates st' !! e = eth_usd_rates st !! e.

(** A computation that respects a relation between the state it starts in
    and the state it leaves, whether it returns or raises. *)
Definition respects {rate A : Type} (R : @state rate -> @state rate -> Prop)
    (m : @M rate A) : Prop :=
  forall st, R st (snd (m st)).

(** A world whose first two requests fail with a server error and whose
    later ones answer with the current epoch. *)
Definition env_recovering : @environment Z := {|
  http := fun t _ => if (gets t <? 2)%nat then Response 503 None
                     else Response 200 (Some (JObj [("currentEpoch", JInt 7)]));
  historical_rate := fun _ _ => None;
  current_rate := fun _ => None;
  now_iso := fun _ => "2025-01-01T00:00:00"
|}.

(** ** Vocabulary of the epoch selection *)

(** A list of integers in strictly increasing order. *)
Fixpoint increasing (l : list Z) : Prop :=
  match l with
  | [] => True
  | x :: l' => Forall (fun y => x < y) l' /\ increasing l'
  end.

(** The integer a part of the [--epochs] option stands for, if any. *)
Definition epoch_of_part (part : string) : option Z := int_of_str (py_strip part).

Definition epoch_in_range (current_epoch e : Z) : bool :=
  (1 <=? e) && (e <=? current_epoch).

(** A world in which every request is answered with the same two project
    addresses. *)
Definition env_two_projects : @environment Z := {|
  http := fun _ _ =>
    Response 200 (Some (JObj [("projectsAddresses", JList [JStr "0xAA"; JStr "0xBB"]);
                              ("projectsCid", JStr "QmCid")]));
  historical_rate := fun _ _ => None;
  current_rate := fun _ => None;
  now_iso := fun _ => "2025-01-01T00:00:00"
|}.

(** ** Vocabulary of the project registry *)

(** The name of the pool of an epoch, as every document spells it. *)
Definition pool_name_of (epoch : Z) : string := "Octant Epoch " ++ str_of_int epoch.

(** A project registered for the string [address] while processing
    [epochs]: its id is built on the CAIP-10 form of the address, it took
    part in at least one epoch, all from [epochs], and [relevantTo] names
    the pools of these epochs in the same order. *)
Definition registered (repr_container : json -> string) (chain : json)
    (epochs : list Z) (address : string) (p : project) : Prop :=
  exists caip,
    _generate_caip10_address repr_container chain address = Ok caip
    /\ project_id p = caip ++ "?proposalId=1"
    /\ participatingEpochs p <> []
    /\ Forall (fun epoch => In epoch epochs) (participatingEpochs p)
    /\ relevantTo p = map pool_name_of (participatingEpochs p).

(** What the registry satisfies after any number of addresses: the keys
    are pairwise different strings, each with its project. *)
Definition registry_invariant (repr_container : json -> string) (chain : json)
    (epochs : list Z) (all_projects : list (hashable * project)) : Prop :=
  NoDup (map fst all_projects)
  /\ Forall (fun e => exists s, e.1 = HStr s
                        /\ registered repr_container chain epochs s e.2) all_projects.

(** The number of participations a list of projects reports. *)
Definition participations_of (l : list project) : Z :=
  sum_list (map (fun p => Z.of_nat (length (participatingEpochs p))) l).

(** The addresses of an epoch in which ["0xAA"] is listed twice. *)
Definition addresses_with_repeat : list json :=
  [JStr "0xAA"; JStr "0xBB"; JStr "0xAA"].

(** ** Vocabulary of the grant pools *)

(** The entry of the pool of [epoch], with [chain] the chain metadata: its
    id and name, the file of its applications and the day it closes. *)
Definition pool_of_epoch (repr_container : json -> string) (isoformat : Z -> string)
    (chain : json) (epoch : Z) (pool : grant_pool_entry) : Prop :=
  exists pool_address,
    _generate_caip10_address repr_container chain zero_address = Ok pool_address
    /\ gp_id pool = pool_address ++ "?contractId=" ++ str_of_int epoch
    /\ gp_name pool = pool_name_of epoch
    /\ applicationsURI pool = "./applications_epoch_" ++ str_of_int epoch ++ ".json"
    /\ closeDate pool = isoformat (epoch_0_start + 90 * (epoch + 1)) ++ "Z"
    /\ 1 <= epoch_0_start + 90 * epoch
    /\ epoch_0_start + 90 * (epoch + 1) <= 3652059.

(** A world in which every request is answered with the same non-empty
    document. *)
Definition env_epoch_info : @environment Z := {|
  http := fun _ _ =>
    Response 200 (Some (JObj [("totalRewards", JStr "1000"); ("isCurrent", JBool false)]));
  historical_rate := fun _ _ => None;
  current_rate := fun _ => None;
  now_iso := fun _ => "2025-01-01T00:00:00"
|}.

(** Ordinals printed as such, for want of a calendar. *)
Definition isoformat_ordinal (ordinal : Z) : string := "day " ++ str_of_int ordinal.

(** ** Vocabulary of the Giveth pagination *)

(** The projects a page query delivers: the elements of
    [data["allProjects"]["projects"]] when the query succeeds and they can
    be read, none otherwise. *)
Definition page_delivered (post : list page_query -> page_query -> graphql_response)
    (before : list page_query) (q : page_query) : list json :=
  match execute_graphql_query (post before q) with
  | Returns data =>
      match (page <- py_get data "allProjects" (JObj []);
             py_get page "projects" (JList [])) with
      | Ok projects =>
          if py_truthy projects
          then match py_iter projects with Ok batch => batch | Raise _ => [] end
          else []
      | Raise _ => []
      end
  | Raises _ => []
  end.

(** What a sequence of queries delivers, made after the queries [before]. *)
Fixpoint delivered (post : list page_query -> page_query -> graphql_response)
    (before qs : list page_query) : list json :=
  match qs with
  | [] => []
  | q :: rest =>
      (page_delivered post before q ++ delivered post (before ++ [q]) rest)%list
  end.

(** Every query skips what the queries before it delivered, [received]
    being what was delivered before the first of them. *)
Fixpoint skips_follow (post : list page_query -> page_query -> graphql_response)
    (before : list page_query) (received : Z) (qs : list page_query) : Prop :=
  match qs with
  | [] => True
  | q :: rest =>
      q_skip q = received
      /\ skips_follow post (before ++ [q])
           (received + Z.of_nat (length (page_delivered post before q))) rest
  end.

(** A server with seven projects, numbered from 0, that honours [skip] and
    [limit]. *)
Definition seven_projects : list json :=
  map (fun i => JObj [("id", JInt i)]) [0; 1; 2; 3; 4; 5; 6].

Definition post_seven (before : list page_query) (q : page_query) : graphql_response :=
  Body (JObj [("data", JObj [("allProjects", JObj [("projects",
    JList (firstn (Z.to_nat (q_limit q)) (skipn (Z.to_nat (q_skip q)) seven_projects)))])])]).

(** A server that ignores [limit] and always sends the seven projects. *)
Definition post_all (before : list page_query) (q : page_query) : graphql_response :=
  Body (JObj [("data", JObj [("allProjects", JObj [("projects",
    JList seven_projects)])])]).

Definition config_chunk_3 : GivethToDaoip5Config := {|
  giveth_api_url := "https://mainnet.serve.giveth.io/graphql";
  giveth_output_dir := "daoip5_output";
  base_uri := "https://giveth.io";
  chunk_size := 3
|}.

(** ** Vocabulary of the Giveth projects *)

(** A Giveth project with a recipient address and a slug but no id. *)
Definition project_without_id : json :=
  JObj [("title", JStr "Trees"); ("slug", JStr "trees");
        ("addresses", JList [JObj [("address", JStr "0xAA"); ("isRecipient", JBool true)]])].

(** A project whose first recipient entry has no address and whose second
    has one. *)
Definition project_two_recipients : json :=
  JObj [("id", JStr "42"); ("title", JStr "Trees");
        ("addresses", JList [JObj [("isRecipient", JBool true)];
                             JObj [("address", JStr "0xBB"); ("isRecipient", JBool true)]])].

(** ** Vocabulary of the actions of a run *)




(** ** Vocabulary of the reported amounts *)

(** The sum of the amounts of the records of project [k]. *)
Definition project_sum (records : list json) (k : hashable) : Z :=
  sum_list (map record_amount
              (List.filter (fun a => hashable_eqb k (record_key a)) records)).

(** The first entry of [fundsApproved] reports [n] wei, as a decimal text
    that [int] reads back. *)
Definition reports_allocated (n : Z) (app : application) : Prop :=
  exists rest,
    fundsApproved app
    = {| amount := JStr (str_of_int n); denomination := "ETH"; funding_type := None |}
      :: rest
    /\ py_int (JStr (str_of_int n)) = Ok n.

(** * Properties *)

(** ** The Python primitives on examples *)

Example int_of_str_wei : int_of_str "1000000000000000000" = Some (10 ^ 18).
Proof. reflexivity. Qed.

Example int_of_str_signed : int_of_str " -1_000 " = Some (-1000).
Proof. reflexivity. Qed.

Example int_of_str_bad : int_of_str "1.5" = None /\ int_of_str "" = None /\ int_of_str "1__0" = None.
Proof. repeat split. Qed.

Example str_of_int_ex : str_of_int 0 = "0" /\ str_of_int (-42) = "-42" /\ str_of_int 1500 = "1500".
Proof. repeat split. Qed.

Example slice8_ex : slice8 (HStr "0x1234567890") = Ok "0x123456" /\ slice8 (HStr "0xAA") = Ok "0xAA".
Proof. split; reflexivity. Qed.

Example py_contains_ex :
  py_contains (JStr "no rewards yet") "rewards" = Ok true /\
  py_contains (JObj [("rewards", JNull)]) "rewards" = Ok true /\
  py_contains (JObj [("x", JNull)]) "rewards" = Ok false.
Proof. repeat split. Qed.

(** ** Epoch Status Resolver *)

Section EpochStatus.
Context {rate : Type} (rate_truthy : rate -> bool)
  (usd_format : Z -> rate -> result string) (repr_container : json -> string)
  (env : @environment rate).

Lemma has_allocations_optional_dict d :
  has_allocations (optional_dict d) = Ok (allocations_present d).
Proof.
  destruct d as [kv|]; [|reflexivity].
  unfold has_allocations. cbn [optional_dict py_truthy].
  destruct kv as [|p kv]; [reflexivity|].
  cbn [negb]. unfold py_get, rbind, allocations_present.
  destruct (assoc "allocations" (p :: kv)); reflexivity.
Qed.

Lemma epoch_state_spec d rewards_data merkle_data :
  let s := spec_resolve (allocations_present d) (py_truthy rewards_data)
             (py_truthy merkle_data) in
  epoch_state (optional_dict d) rewards_data merkle_data
  = Ok (is_completed s, status_name s).
Proof.
  unfold epoch_state. rewrite has_allocations_optional_dict. simpl.
  destruct (allocations_present d), (py_truthy rewards_data),
    (py_truthy merkle_data); reflexivity.
Qed.

(** C1.  The status computed by [generate_applications] is a function of the
    three presence inputs alone and follows the table of the specification
    on each of the 8 combinations: absent allocations give NoAllocations
    whatever the other two are, present allocations with rewards or merkle
    data absent give NotFinalized, and all three present give Completed.
    Outside the Completed state the function returns the placeholder with
    no application and changes nothing. *)
Theorem epoch_status_resolver (d : option (list (string * json)))
    (rewards_data merkle_data : json) (epoch : Z) (st : state) :
  let a := allocations_present d in
  let r := py_truthy rewards_data in
  let m := py_truthy merkle_data in
  epoch_state (optional_dict d) rewards_data merkle_data
    = Ok (is_completed (spec_resolve a r m), status_name (spec_resolve a r m))
  /\ (forall r' m', spec_resolve false r' m' = NoAllocations)
  /\ (forall m', spec_resolve true false m' = NotFinalized)
  /\ (forall r', spec_resolve true r' false = NotFinalized)
  /\ spec_resolve true true true = Completed
  /\ (spec_resolve a r m <> Completed ->
      exists pool,
        generate_applications_from rate_truthy usd_format repr_container env epoch
          (optional_dict d) rewards_data merkle_data st = (Ok pool, st)
        /\ applications pool = []
        /\ _epoch_status pool = status_name (spec_resolve a r m)
        /\ _has_allocations pool = a /\ _has_rewards pool = r
        /\ _has_merkle_tree pool = m).
Proof.
  intros a r m. split; [apply epoch_state_spec|].
  split; [reflexivity|]. split; [intros []; reflexivity|].
  split; [intros []; reflexivity|]. split; [reflexivity|].
  intros Hs. unfold generate_applications_from, mbindM, lift.
  rewrite epoch_state_spec. fold a r m.
  destruct (spec_resolve a r m) eqn:E; try congruence; simpl;
    rewrite has_allocations_optional_dict; fold a;
    eexists; (split; [reflexivity|]); simpl; auto.
Qed.

End EpochStatus.

Lemma epoch_status_resolver_witness :
  exists pool,
    generate_applications_from rate_nonzero usd_format_exact repr_unused env_offline 7
      (optional_dict (Some [("allocations", JList [JObj [("project", JStr "0xAA")]])]))
      JNull JNull state_initial = (Ok pool, state_initial)
    /\ applications pool = [] /\ _epoch_status pool = "not_finalized".
Proof.
  destruct (epoch_status_resolver rate_nonzero usd_format_exact repr_unused env_offline
              (Some [("allocations", JList [JObj [("project", JStr "0xAA")]])])
              JNull JNull 7 state_initial) as (_ & _ & _ & _ & _ & H).
  destruct H as (pool & H1 & H2 & H3 & _); [simpl; discriminate|].
  exists pool. split; [exact H1|]. split; [exact H2|exact H3].
Defined.

(** ** Address Normalizer *)

Section AddressNormalizer.
Variable repr_container : json -> string.

Lemma str_truthy_true s : s <> "" -> str_truthy s = true.
Proof.
  intros H. unfold str_truthy. destruct (String.eqb_spec s ""); [contradiction|reflexivity].
Qed.

(** C9, as the code has it.  Both normalizers are total and build
    [eip155:<chainId>:<address>].  The Octant one takes the chain id from
    the loaded chain metadata and falls back to 1 when no metadata is
    loaded or it has no ["chainId"]; it has no case for the empty address.
    The Giveth one takes the network argument, 1 when that is empty, and
    maps the empty address to the empty string. *)
Theorem address_normalizer_format (address network : string) :
  _generate_caip10_address repr_container JNull address = Ok ("eip155:1:" ++ address)
  /\ (forall kv v, assoc "chainId" kv = Some v ->
        _generate_caip10_address repr_container (JObj kv) address
        = Ok ("eip155:" ++ py_str repr_container v ++ ":" ++ address))
  /\ (forall kv, assoc "chainId" kv = None ->
        _generate_caip10_address repr_container (JObj kv) address
        = Ok ("eip155:1:" ++ address))
  /\ (address <> "" ->
        transform_to_caip10 address network
        = "eip155:" ++ (if String.eqb network "" then "1" else network) ++ ":" ++ address)
  /\ transform_to_caip10 "" network = "".
Proof.
  split; [reflexivity|]. split; [|split; [|split]].
  - intros kv v H. unfold _generate_caip10_address.
    destruct kv as [|p kv]; [discriminate|].
    cbn [py_truthy negb]. unfold py_get, rbind. rewrite H. reflexivity.
  - intros kv H. unfold _generate_caip10_address.
    destruct kv as [|p kv]; [reflexivity|].
    cbn [py_truthy negb]. unfold py_get, rbind. rewrite H. reflexivity.
  - intros H. unfold transform_to_caip10. rewrite (str_truthy_true _ H).
    cbn [negb]. unfold str_truthy. destruct (String.eqb network ""); reflexivity.
  - reflexivity.
Qed.

End AddressNormalizer.

Lemma address_normalizer_format_witness :
  _generate_caip10_address repr_unused (JObj [("chainId", JInt 11155111)]) "0xAA"
    = Ok "eip155:11155111:0xAA"
  /\ _generate_caip10_address repr_unused (JObj [("chainName", JStr "sepolia")]) "0xAA"
    = Ok "eip155:1:0xAA"
  /\ transform_to_caip10 "0xAA" "" = "eip155:1:0xAA".
Proof.
  destruct (address_normalizer_format repr_unused "0xAA" "") as (_ & H1 & H2 & H3 & _).
  split; [|split].
  - apply (H1 [("chainId", JInt 11155111)] (JInt 11155111)). reflexivity.
  - apply (H2 [("chainName", JStr "sepolia")]). reflexivity.
  - apply H3. discriminate.
Defined.

(** C9 as stated fails on the Octant normalizer: the empty address is not
    mapped to the empty string. *)
Lemma address_normalizer_empty_counterexample :
  _generate_caip10_address repr_unused JNull "" = Ok "eip155:1:"
  /\ _generate_caip10_address repr_unused JNull "" <> Ok "".
Proof. split; [reflexivity|discriminate]. Qed.

(** ** Rate Cache *)

Section RateCache.
Context {rate : Type} (rate_truthy : rate -> bool)
  (usd_format : Z -> rate -> result string) (env : @environment rate).

Abbreviation get_rate := (_get_eth_rate_for_epoch rate_truthy env).
Abbreviation wei_to_usd := (_wei_to_usd_str rate_truthy usd_format env).

Lemma get_rate_hit epoch (st : state) r :
  eth_usd_rates st !! epoch = Some r -> get_rate epoch st = (Ok (Some r), st).
Proof.
  intros H. unfold _get_eth_rate_for_epoch, mbindM, get_state. rewrite H. reflexivity.
Qed.

(** A lookup that misses the cache: what it returns and the state it leaves. *)
Lemma get_rate_miss epoch (st : state) :
  eth_usd_rates st !! epoch = None ->
  let st1 := log_event (EvHistoricalRate epoch) st in
  let st2 := log_event EvCurrentRate st1 in
  match historical_rate env (trace st) epoch with
  | Some h =>
      if rate_truthy h then get_rate epoch st = (Ok (Some h), store_rate epoch h st1)
      else match current_rate env (trace st1) with
           | Some c =>
               get_rate epoch st
               = (Ok (Some c), if rate_truthy c then store_rate epoch c st2 else st2)
           | None => get_rate epoch st = (Ok None, st2)
           end
  | None =>
      match current_rate env (trace st1) with
      | Some c =>
          get_rate epoch st
          = (Ok (Some c), if rate_truthy c then store_rate epoch c st2 else st2)
      | None => get_rate epoch st = (Ok None, st2)
      end
  end.
Proof.
  intros H. unfold _get_eth_rate_for_epoch, mbindM, get_state. rewrite H.
  unfold get_eth_price_for_epoch_end, get_eth_to_usd_rate, perform, modify, ret.
  cbn [trace log_event].
  destruct (historical_rate env (trace st) epoch) as [h|]; cbn [opt_truthy].
  - destruct (rate_truthy h) eqn:Eh; cbn [negb]; [rewrite Eh; reflexivity|].
    cbn [trace log_event].
    destruct (current_rate env _) as [c|]; [|reflexivity].
    destruct (rate_truthy c); reflexivity.
  - cbn [negb trace log_event].
    destruct (current_rate env _) as [c|]; [|reflexivity].
    destruct (rate_truthy c); reflexivity.
Qed.

(** C5.  When the period has no cached rate and both the historical and the
    current lookup fail, the conversion of any amount is unknown ([None]),
    never ["0.00"]. *)
Theorem wei_to_usd_unknown_without_rate (wei_amount : json) (epoch : Z) (st : state) :
  eth_usd_rates st !! epoch = None ->
  opt_truthy rate_truthy (historical_rate env (trace st) epoch) = false ->
  opt_truthy rate_truthy
    (current_rate env (trace st ++ [EvHistoricalRate epoch])) = false ->
  wei_to_usd wei_amount epoch st
    = (Ok None, log_event EvCurrentRate (log_event (EvHistoricalRate epoch) st))
  /\ fst (wei_to_usd wei_amount epoch st) <> Ok (Some "0.00").
Proof.
  intros Hc Hh Hn.
  assert (E : wei_to_usd wei_amount epoch st
    = (Ok None, log_event EvCurrentRate (log_event (EvHistoricalRate epoch) st))).
  { unfold _wei_to_usd_str, mbindM.
    pose proof (get_rate_miss epoch st Hc) as Hm. cbn zeta in Hm.
    cbn [trace log_event] in Hm.
    destruct (historical_rate env (trace st) epoch) as [h|]; cbn [opt_truthy] in Hh.
    - rewrite Hh in Hm.
      destruct (current_rate env _) as [c|]; cbn [opt_truthy] in Hn.
      + rewrite Hm, Hn. reflexivity.
      + rewrite Hm. reflexivity.
    - destruct (current_rate env _) as [c|]; cbn [opt_truthy] in Hn.
      + rewrite Hm, Hn. reflexivity.
      + rewrite Hm. reflexivity. }
  split; [exact E|]. rewrite E. discriminate.
Qed.

(** Historical requests and cache entries along one lookup. *)
Lemma historical_requests_log epoch e (st : @state rate) :
  historical_requests epoch (trace (log_event e st))
  = (historical_requests epoch (trace st)
     + if is_historical_request epoch e then 1 else 0)%nat.
Proof.
  unfold historical_requests. cbn [trace log_event].
  rewrite List.filter_app, length_app. cbn [List.filter].
  destruct (is_historical_request epoch e); reflexivity.
Qed.

Lemma get_rate_cases epoch (st : state) :
  (exists r, eth_usd_rates st !! epoch = Some r /\ get_rate epoch st = (Ok (Some r), st))
  \/ (eth_usd_rates st !! epoch = None /\
      exists o st', get_rate epoch st = (Ok o, st')
        /\ (trace st' = (trace st ++ [EvHistoricalRate epoch])%list
            \/ trace st' = (trace st ++ [EvHistoricalRate epoch; EvCurrentRate])%list)
        /\ (match o with
            | Some r => if rate_truthy r
                        then eth_usd_rates st' = <[epoch := r]> (eth_usd_rates st)
                        else eth_usd_rates st' = eth_usd_rates st
            | None => eth_usd_rates st' = eth_usd_rates st
            end)).
Proof.
  destruct (eth_usd_rates st !! epoch) as [r|] eqn:Hc.
  - left. exists r. split; [reflexivity|]. apply get_rate_hit, Hc.
  - right. split; [reflexivity|].
    pose proof (get_rate_miss epoch st Hc) as Hm. cbn zeta in Hm.
    destruct (historical_rate env (trace st) epoch) as [h|].
    + destruct (rate_truthy h) eqn:Eh.
      * eexists _, _. split; [exact Hm|]. split; [left; reflexivity|].
        rewrite Eh. reflexivity.
      * destruct (current_rate env _) as [c|].
        -- eexists _, _. split; [exact Hm|].
           split; [right; destruct (rate_truthy c); cbn; rewrite <- app_assoc; reflexivity|].
           destruct (rate_truthy c); reflexivity.
        -- eexists _, _. split; [exact Hm|].
           split; [right; cbn; rewrite <- app_assoc; reflexivity|reflexivity].
    + destruct (current_rate env _) as [c|].
      * eexists _, _. split; [exact Hm|].
        split; [right; destruct (rate_truthy c); cbn; rewrite <- app_assoc; reflexivity|].
        destruct (rate_truthy c); reflexivity.
      * eexists _, _. split; [exact Hm|].
        split; [right; cbn; rewrite <- app_assoc; reflexivity|reflexivity].
Qed.

(** A cached rate stays cached, and looking up any period adds no
    historical request for a period whose rate is cached. *)
Lemma get_rate_preserves epoch r e (st : state) :
  eth_usd_rates st !! epoch = Some r ->
  eth_usd_rates (snd (get_rate e st)) !! epoch = Some r
  /\ historical_requests epoch (trace (snd (get_rate e st)))
     = historical_requests epoch (trace st).
Proof.
  intros Hc.
  destruct (get_rate_cases e st) as [(r' & _ & ->)|(Hn & o & st' & -> & Ht & Hs)];
    [split; [exact Hc|reflexivity]|].
  cbn [snd].
  assert (Hne : e <> epoch) by (intros ->; congruence).
  split.
  - destruct o as [x|]; [destruct (rate_truthy x)|]; rewrite Hs; try exact Hc.
    rewrite lookup_insert_ne; [exact Hc|exact Hne].
  - unfold historical_requests.
    assert (He : (e =? epoch) = false) by (apply Z.eqb_neq; exact Hne).
    destruct Ht as [-> | ->]; rewrite List.filter_app, length_app;
      cbn [List.filter is_historical_request]; rewrite He; cbn; lia.
Qed.

Lemma rate_lookups_preserve epoch r epochs : forall st : state,
  eth_usd_rates st !! epoch = Some r ->
  historical_requests epoch (trace (rate_lookups rate_truthy env epochs st))
  = historical_requests epoch (trace st).
Proof.
  induction epochs as [|e rest IH]; intros st Hc; [reflexivity|].
  cbn [rate_lookups].
  destruct (get_rate_preserves epoch r e st Hc) as [Hc' Hh].
  rewrite (IH _ Hc'). exact Hh.
Qed.

(** C6, as the code has it.  A lookup for a period whose rate is cached is
    answered from the mapping: it returns the cached rate and performs no
    request.  A lookup that resolves a rate stores it before returning it,
    and from then on no sequence of lookups issues another historical
    request for that period.  Every single lookup issues at most one
    historical request.  (A lookup that resolves no rate stores nothing,
    so the next lookup for that period fetches again.) *)
Theorem rate_cache_memoization (epoch : Z) (st : state) :
  (forall r, eth_usd_rates st !! epoch = Some r ->
     get_rate epoch st = (Ok (Some r), st))
  /\ (forall r st', get_rate epoch st = (Ok (Some r), st') ->
       rate_truthy r = true ->
       eth_usd_rates st' !! epoch = Some r
       /\ forall epochs,
            historical_requests epoch (trace (rate_lookups rate_truthy env epochs st'))
            = historical_requests epoch (trace st'))
  /\ (forall o st', get_rate epoch st = (Ok o, st') ->
       opt_truthy rate_truthy o = false ->
       eth_usd_rates st' = eth_usd_rates st)
  /\ (historical_requests epoch (trace (snd (get_rate epoch st)))
      <= S (historical_requests epoch (trace st)))%nat.
Proof.
  split; [intros r; apply get_rate_hit|]. split; [|split].
  - intros r st' Hrun Ht.
    assert (Hc : eth_usd_rates st' !! epoch = Some r).
    { destruct (get_rate_cases epoch st)
        as [(r' & Hc & E)|(Hn & o & st'' & E & _ & Hs)];
        rewrite E in Hrun; injection Hrun as ? ?; subst.
      - exact Hc.
      - rewrite Ht in Hs. rewrite Hs. apply lookup_insert_eq. }
    split; [exact Hc|]. intros epochs. apply (rate_lookups_preserve epoch r), Hc.
  - intros o st' Hrun Hf.
    destruct (get_rate_cases epoch st)
      as [(r' & Hc & E)|(Hn & o' & st'' & E & _ & Hs)];
      rewrite E in Hrun; injection Hrun as ? ?; subst; [reflexivity|].
    destruct o as [r|]; [|exact Hs].
    cbn [opt_truthy] in Hf. rewrite Hf in Hs. exact Hs.
  - destruct (get_rate_cases epoch st)
      as [(r' & Hc & ->)|(Hn & o & st'' & -> & Ht & _)]; cbn [snd]; [lia|].
    unfold historical_requests.
    destruct Ht as [-> | ->]; rewrite List.filter_app, length_app;
      cbn [List.filter is_historical_request]; rewrite Z.eqb_refl; cbn; lia.
Qed.

End RateCache.

Lemma wei_to_usd_unknown_without_rate_witness :
  _wei_to_usd_str rate_nonzero usd_format_exact env_offline
    (JStr "1500000000000000000") 7 state_initial
  = (Ok None, log_event EvCurrentRate (log_event (EvHistoricalRate 7) state_initial)).
Proof.
  apply (wei_to_usd_unknown_without_rate rate_nonzero usd_format_exact env_offline
           (JStr "1500000000000000000") 7 state_initial); reflexivity.
Defined.

Lemma rate_cache_memoization_witness :
  eth_usd_rates (snd (_get_eth_rate_for_epoch rate_nonzero env_2000 7 state_initial)) !! 7
    = Some 2000
  /\ historical_requests 7
       (trace (rate_lookups rate_nonzero env_2000 [7; 8; 7; 7]
                 (snd (_get_eth_rate_for_epoch rate_nonzero env_2000 7 state_initial))))
     = 1%nat.
Proof.
  destruct (rate_cache_memoization rate_nonzero env_2000 7 state_initial)
    as (_ & H & _ & _).
  destruct (H 2000 (snd (_get_eth_rate_for_epoch rate_nonzero env_2000 7 state_initial)))
    as [H1 H2]; [reflexivity|reflexivity|].
  split; [exact H1|]. rewrite H2. reflexivity.
Defined.

(** C6 as stated fails: while no rate can be resolved, every lookup for the
    period issues a historical request again. *)
Lemma rate_cache_refetch_counterexample :
  historical_requests 7
    (trace (rate_lookups rate_nonzero env_offline [7; 7] state_initial)) = 2%nat
  /\ ~ (historical_requests 7%Z
         (trace (rate_lookups rate_nonzero env_offline [7%Z; 7%Z] state_initial)) <= 1)%nat.
Proof. split; [reflexivity|]. vm_compute. lia. Qed.

(** ** Resilient Fetcher *)

Section ResilientFetcher.
Context {rate : Type} (config : OctantConfig) (env : @environment rate).

Abbreviation request_loop := (_make_request_loop config env).





End ResilientFetcher.


(** ** Allocation Aggregator: grouping *)

Lemma rbind_Ok {A B} (r : result A) (k : A -> result B) (b : B) :
  rbind r k = Ok b -> exists a, r = Ok a /\ k a = Ok b.
Proof. destruct r as [a|e]; [|discriminate]. intros H. exists a. split; [reflexivity|exact H]. Qed.

Lemma hashable_eqb_refl k : hashable_eqb k k = true.
Proof.
  destruct k as [|b|z|s]; cbn.
  - reflexivity.
  - destruct b; reflexivity.
  - apply Z.eqb_refl.
  - apply String.eqb_refl.
Qed.

Lemma sum_list_app l1 l2 : sum_list (l1 ++ l2) = sum_list l1 + sum_list l2.
Proof.
  unfold sum_list. induction l1 as [|x l1 IH]; cbn [app fold_right]; [reflexivity|].
  rewrite IH. lia.
Qed.

Lemma sum_totals_new_key pa k : sum_totals (pa ++ [(k, empty_group)]) = sum_totals pa.
Proof.
  unfold sum_totals. rewrite map_app, sum_list_app. cbn. lia.
Qed.

Lemma dict_mem_new_key pa k g : dict_mem k (pa ++ [(k, g)]) = true.
Proof.
  induction pa as [|[k' g'] pa IH]; cbn.
  - rewrite hashable_eqb_refl. reflexivity.
  - rewrite IH. apply orb_true_r.
Qed.

Lemma sum_totals_cons k g pa : sum_totals ((k, g) :: pa) = totalAllocated g + sum_totals pa.
Proof. reflexivity. Qed.

(** Adding an allocation to the group of a key of the dictionary adds its
    amount to the sum of the totals. *)
Lemma sum_totals_alter n donor allocation k pa :
  dict_mem k pa = true ->
  sum_totals (dict_alter (add_allocation n donor allocation) k pa) = sum_totals pa + n.
Proof.
  induction pa as [|[k' g] pa IH]; cbn [dict_mem dict_alter].
  - discriminate.
  - destruct (hashable_eqb k' k); cbn [orb]; rewrite !sum_totals_cons.
    + intros _. cbn [add_allocation totalAllocated]. lia.
    + intros H. rewrite (IH H). lia.
Qed.

Lemma group_step_sum pa allocation k n :
  allocation_project allocation = Ok k ->
  allocation_amount allocation = Ok n ->
  exists pa', group_step pa allocation = Ok pa' /\ sum_totals pa' = sum_totals pa + n.
Proof.
  unfold allocation_project, allocation_amount, group_step. intros Hk Hn.
  destruct allocation as [| | | | |kv]; try discriminate.
  cbn [py_get rbind] in *. rewrite Hk. cbn [rbind]. rewrite Hn. cbn [rbind].
  eexists. split; [reflexivity|].
  destruct (dict_mem k pa) eqn:Hmem.
  - apply sum_totals_alter, Hmem.
  - rewrite sum_totals_alter by apply dict_mem_new_key.
    rewrite sum_totals_new_key. reflexivity.
Qed.

Lemma group_allocations_sum allocs amounts :
  Forall2 (fun a n => allocation_amount a = Ok n
                      /\ exists k, allocation_project a = Ok k) allocs amounts ->
  forall pa0, exists pa, group_allocations pa0 allocs = Ok pa
                         /\ sum_totals pa = sum_totals pa0 + sum_list amounts.
Proof.
  induction 1 as [|a n allocs amounts [Hn [k Hk]] _ IH]; intros pa0.
  - exists pa0. split; [reflexivity|]. cbn. lia.
  - destruct (group_step_sum pa0 a k n Hk Hn) as (pa1 & E1 & S1).
    destruct (IH pa1) as (pa & E & S).
    exists pa. cbn [group_allocations rbind]. rewrite E1. cbn [rbind].
    split; [exact E|]. rewrite S, S1. unfold sum_list. cbn [fold_right]. lia.
Qed.

(** C2.  When every raw allocation record has a project address that can be
    a dictionary key and an amount that [int] converts, grouping succeeds
    and the per-project totals add up to the sum of the amounts; the totals
    are unbounded integers. *)
Theorem allocation_conservation (allocs : list json) (amounts : list Z) :
  Forall2 (fun a n => allocation_amount a = Ok n
                      /\ exists k, allocation_project a = Ok k) allocs amounts ->
  exists project_allocations,
    group_allocations [] allocs = Ok project_allocations
    /\ sum_totals project_allocations = sum_list amounts.
Proof.
  intros H. destruct (group_allocations_sum allocs amounts H []) as (pa & E & S).
  exists pa. split; [exact E|]. rewrite S. reflexivity.
Qed.

Lemma allocation_conservation_witness :
  exists project_allocations,
    group_allocations []
      [JObj [("project", JStr "0xAA"); ("donor", JStr "0xD1");
             ("amount", JStr "1000000000000000000")];
       JObj [("project", JStr "0xBB"); ("donor", JStr "0xD1"); ("amount", JStr "7")];
       JObj [("project", JStr "0xAA"); ("donor", JStr "0xD2");
             ("amount", JStr "500000000000000000")]]
    = Ok project_allocations
    /\ sum_totals project_allocations
       = sum_list [1000000000000000000; 7; 500000000000000000].
Proof.
  apply allocation_conservation.
  repeat (apply Forall2_cons; [split; [reflexivity|eexists; reflexivity]|]).
  apply Forall2_nil.
Defined.

(** ** [int(str(z))] *)

Lemma digit_char c :
  is_digit c = true ->
  is_space c = false /\ Ascii.eqb c "-" = false /\ Ascii.eqb c "+" = false.
Proof.
  destruct c as [[] [] [] [] [] [] [] []]; cbn; intros H;
    try discriminate H; repeat split.
Qed.

Lemma uint_chars_digits d :
  Forall (fun c => is_digit c = true)
    (list_ascii_of_string (NilEmpty.string_of_uint d)).
Proof.
  induction d; cbn [NilEmpty.string_of_uint list_ascii_of_string];
    constructor; trivial.
Qed.

Lemma lstrip_id l : Forall (fun c => is_space c = false) l -> lstrip l = l.
Proof. destruct 1 as [|c l Hc _]; cbn; [reflexivity|]. rewrite Hc. reflexivity. Qed.

Lemma strip_id l : Forall (fun c => is_space c = false) l -> strip l = l.
Proof.
  intros H. unfold strip. rewrite (lstrip_id l H).
  rewrite lstrip_id by (apply List.Forall_rev, H). apply rev_involutive.
Qed.

Lemma digits_of_digits l :
  Forall (fun c => is_digit c = true) l ->
  forall prev, l <> [] \/ prev = true -> digits_of l prev = Some l.
Proof.
  induction 1 as [|c l Hc _ IH]; intros prev Hp; cbn [digits_of].
  - destruct Hp as [Hp| ->]; [contradiction|reflexivity].
  - rewrite Hc, (IH true) by (right; reflexivity). reflexivity.
Qed.

Lemma nat_of_digits_uint d :
  d <> Nil ->
  nat_of_digits (list_ascii_of_string (NilEmpty.string_of_uint d)) = Some (Z.of_uint d).
Proof.
  intros Hd. unfold nat_of_digits.
  rewrite digits_of_digits.
  - rewrite string_of_list_ascii_of_string, NilEmpty.usu. reflexivity.
  - apply uint_chars_digits.
  - left. destruct d; cbn; congruence.
Qed.

Lemma digits_not_space l :
  Forall (fun c => is_digit c = true) l -> Forall (fun c => is_space c = false) l.
Proof. apply Forall_impl. intros c Hc. apply (digit_char c Hc). Qed.

(** [int] reads back the decimal text that [str] prints. *)
Lemma int_of_str_of_int z : int_of_str (str_of_int z) = Some z.
Proof.
  destruct z as [|p|p]; [reflexivity| |].
  - unfold str_of_int, int_of_str. cbn [Z.to_int NilZero.string_of_int].
    pose proof (DecimalPos.Unsigned.to_uint_nonnil p) as Hnil.
    assert (E : NilZero.string_of_uint (Pos.to_uint p)
                = NilEmpty.string_of_uint (Pos.to_uint p))
      by (destruct (Pos.to_uint p); [contradiction|reflexivity..]).
    rewrite E.
    pose proof (uint_chars_digits (Pos.to_uint p)) as Hd.
    pose proof (nat_of_digits_uint _ Hnil) as Hn.
    rewrite strip_id by (apply digits_not_space, Hd).
    destruct (list_ascii_of_string (NilEmpty.string_of_uint (Pos.to_uint p)))
      as [|c l] eqn:El.
    + discriminate Hn.
    + apply Forall_cons_1 in Hd as [Hc _].
      destruct (digit_char c Hc) as (_ & -> & ->).
      rewrite Hn. unfold Z.of_uint. rewrite DecimalPos.Unsigned.of_to. reflexivity.
  - unfold str_of_int, int_of_str. cbn [Z.to_int NilZero.string_of_int].
    pose proof (DecimalPos.Unsigned.to_uint_nonnil p) as Hnil.
    assert (E : NilZero.string_of_uint (Pos.to_uint p)
                = NilEmpty.string_of_uint (Pos.to_uint p))
      by (destruct (Pos.to_uint p); [contradiction|reflexivity..]).
    rewrite E. cbn [list_ascii_of_string].
    pose proof (uint_chars_digits (Pos.to_uint p)) as Hd.
    rewrite strip_id by (constructor; [reflexivity|apply digits_not_space, Hd]).
    cbn [Ascii.eqb Bool.eqb]. rewrite (nat_of_digits_uint _ Hnil).
    unfold Z.of_uint. rewrite DecimalPos.Unsigned.of_to. reflexivity.
Qed.

Lemma py_int_str_of_int z : py_int (JStr (str_of_int z)) = Ok z.
Proof. cbn [py_int]. rewrite int_of_str_of_int. reflexivity. Qed.

(** ** Allocation Aggregator: applications *)

Section Aggregator.
Context {rate : Type} (rate_truthy : rate -> bool)
  (usd_format : Z -> rate -> result string) (repr_container : json -> string)
  (env : @environment rate).

Abbreviation get_rate := (_get_eth_rate_for_epoch rate_truthy env).
Abbreviation wei_to_usd := (_wei_to_usd_str rate_truthy usd_format env).
Abbreviation create_app :=
  (create_application rate_truthy usd_format repr_container env).
Abbreviation create_apps :=
  (create_applications rate_truthy usd_format repr_container env).
Abbreviation generate_from :=
  (generate_applications_from rate_truthy usd_format repr_container env).

Lemma mbindM_Ok {A B} (m : @M rate A) (k : A -> @M rate B) st b st' :
  mbindM m k st = (Ok b, st') ->
  exists a st1, m st = (Ok a, st1) /\ k a st1 = (Ok b, st').
Proof.
  unfold mbindM. destruct (m st) as [[a|e] st1]; [|discriminate].
  intros H. exists a, st1. split; [reflexivity|exact H].
Qed.

Lemma lift_Ok {A} (r : result A) (st : @state rate) a st' :
  lift r st = (Ok a, st') -> r = Ok a /\ st' = st.
Proof. unfold lift. intros [= -> ->]. split; reflexivity. Qed.

(** One step of a successful run: name the intermediate result. *)
Ltac bind_inv H x E :=
  let st1 := fresh "st" in
  apply mbindM_Ok in H as (x & st1 & E & H).

Ltac lift_inv H x E :=
  bind_inv H x E; apply lift_Ok in E as [E ->].

(** A rate lookup always returns; it keeps the chain metadata and leaves a
    resolved rate in the mapping. *)
Lemma get_rate_inv epoch (st : state) :
  exists o st', get_rate epoch st = (Ok o, st')
    /\ chain_info st' = chain_info st
    /\ (forall r, o = Some r -> rate_truthy r = true ->
          eth_usd_rates st' !! epoch = Some r).
Proof.
  destruct (eth_usd_rates st !! epoch) as [r|] eqn:Hc.
  - exists (Some r), st. split; [apply get_rate_hit, Hc|]. split; [reflexivity|].
    intros r0 [= <-] _. exact Hc.
  - pose proof (get_rate_miss rate_truthy env epoch st Hc) as Hm. cbn zeta in Hm.
    destruct (historical_rate env (trace st) epoch) as [h|];
      [destruct (rate_truthy h) eqn:Eh|];
      try (destruct (current_rate env _) as [c|]; [destruct (rate_truthy c) eqn:Ec|]);
      eexists _, _; (split; [exact Hm|]); (split; [reflexivity|]);
      intros r0 [= <-] Ht; try congruence; apply lookup_insert_eq.
Qed.

Lemma wei_to_usd_inv w epoch (st : state) o st' :
  wei_to_usd w epoch st = (Ok o, st') ->
  chain_info st' = chain_info st
  /\ forall s, o = Some s ->
       exists r n, rate_truthy r = true /\ eth_usd_rates st' !! epoch = Some r
                   /\ py_int w = Ok n /\ usd_format n r = Ok s.
Proof.
  unfold _wei_to_usd_str. intros H. bind_inv H eth_rate E.
  unfold ret, lift in H.
  destruct (get_rate_inv epoch st) as (o' & st1 & E' & Hci & Hr).
  rewrite E' in E. injection E as -> ->.
  destruct eth_rate as [r|]; [destruct (rate_truthy r) eqn:Et|];
    try (injection H as <- <-; split; [exact Hci|discriminate]).
  destruct (py_int w) as [n|e] eqn:En; cbn [rbind] in H.
  - destruct (usd_format n r) as [s|e] eqn:Ef.
    + injection H as <- <-. split; [exact Hci|].
      intros s0 [= <-]. exists r, n. repeat split; auto.
    + destruct e; try discriminate H; injection H as <- <-;
        (split; [exact Hci|discriminate]).
  - destruct e; try discriminate H; injection H as <- <-;
      (split; [exact Hci|discriminate]).
Qed.


(** What a successful run of the loop body did. *)
Lemma create_application_inv epoch rd md c k data (st : state) app st' :
  create_app epoch rd md c k data st = (Ok app, st') ->
  exists pr usd st1,
    find_project_rewards rd k = Ok pr
    /\ application_status pr = Ok (status app)
    /\ make_payouts epoch pr md k = Ok (payouts app)
    /\ wei_to_usd (JStr (str_of_int (totalAllocated data))) epoch (log_event EvNow st)
       = (Ok usd, st1)
    /\ if py_truthy pr then
         exists ma m musd st2,
           py_get pr "matched" (JStr "0") = Ok ma /\ py_int ma = Ok m
           /\ wei_to_usd ma epoch st1 = (Ok musd, st2)
           /\ fundsApproved app = [allocated_entry data; matched_entry ma]
           /\ if opt_truthy str_truthy musd
              then wei_to_usd (JStr (str_of_int (totalAllocated data + m))) epoch st2
                   = (Ok (fundsApprovedInUSD app), st')
              else fundsApprovedInUSD app = usd /\ st' = st2
       else fundsApproved app = [allocated_entry data]
            /\ fundsApprovedInUSD app = usd /\ st' = st1.
Proof.
  unfold create_application. intros H.
  lift_inv H pr Epr. lift_inv H status0 Est. lift_inv H payouts0 Epay.
  bind_inv H st0 Eget. unfold get_state in Eget. injection Eget as <- <-.
  lift_inv H id_address E1. lift_inv H pool_address E2. lift_inv H project_caip E3.
  lift_inv H short E4. bind_inv H created E5. unfold perform in E5. injection E5 as <- <-.
  bind_inv H usd Eusd.
  exists pr, usd, st0. cbv zeta in H.
  destruct (py_truthy pr).
  - lift_inv H ma Ema. lift_inv H m Em. bind_inv H musd Emusd.
    destruct (opt_truthy str_truthy musd) eqn:Et.
    + bind_inv H usd' Eusd'. injection H as <- <-.
      cbn. repeat split; try assumption.
      exists ma, m, musd, st1. rewrite Et. repeat split; assumption || reflexivity.
    + injection H as <- <-. cbn. repeat split; try assumption.
      exists ma, m, musd, st1. rewrite Et. repeat split; assumption || reflexivity.
  - injection H as <- <-. cbn. repeat split; assumption || reflexivity.
Qed.





(** A property of every successful run of the loop body holds of every
    application, in the order of the projects. *)
Lemma create_applications_Forall2 epoch rd md
    (P : hashable -> group -> application -> Prop) :
  (forall c k data (st : state) app st',
      create_app epoch rd md c k data st = (Ok app, st') -> P k data app) ->
  forall pa c (st : state) apps st',
    create_apps epoch rd md c pa st = (Ok apps, st') ->
    Forall2 (fun e app => P e.1 e.2 app) pa apps.
Proof.
  intros HP. induction pa as [|[k data] pa IH]; intros c st apps st' H;
    cbn [create_applications] in H.
  - injection H as <- _. constructor.
  - bind_inv H app1 Eapp. bind_inv H rest Erest. injection H as <- _.
    constructor; [exact (HP _ _ _ _ _ _ Eapp)|exact (IH _ _ _ _ Erest)].
Qed.

Lemma epoch_state_inv ad rd md es :
  epoch_state ad rd md = Ok es ->
  es = (false, "no_allocations") \/ es = (false, "not_finalized")
  \/ (es = (true, "completed") /\ py_truthy rd = true /\ py_truthy md = true).
Proof.
  unfold epoch_state. intros H. apply rbind_Ok in H as (has & _ & H).
  destruct has; cbn [negb] in H; [|injection H as <-; auto].
  destruct (py_truthy rd), (py_truthy md); cbn in H; injection H as <-; auto.
Qed.

(** A successful run on a completed epoch grouped the allocation records
    and built one application per project. *)
Lemma generate_from_completed epoch ad rd md (st : state) pool st' :
  generate_from epoch ad rd md st = (Ok pool, st') ->
  _epoch_status pool = "completed" ->
  py_truthy rd = true /\ py_truthy md = true
  /\ exists allocs pa,
       allocation_records ad = Ok allocs
       /\ group_allocations [] allocs = Ok pa
       /\ create_apps epoch rd md 1 pa st = (Ok (applications pool), st').
Proof.
  unfold generate_applications_from. intros H Hs. lift_inv H es Ees.
  cbv zeta in H.
  destruct (epoch_state_inv _ _ _ _ Ees) as [->|[->|(-> & Hrd & Hmd)]];
    cbn [fst snd negb] in H.
  - lift_inv H has Ehas. injection H as <- _. discriminate Hs.
  - lift_inv H has Ehas. injection H as <- _. discriminate Hs.
  - lift_inv H allocs Ea. lift_inv H l El. lift_inv H pa Epa.
    bind_inv H apps Eapps. injection H as <- <-.
    split; [exact Hrd|]. split; [exact Hmd|]. exists l, pa.
    split; [unfold allocation_records; rewrite Ea; exact El|].
    split; [exact Epa|exact Eapps].
Qed.



(** *** Totality on well-formed documents *)










Lemma dict_alter_keys f k d : map fst (dict_alter f k d) = map fst d.
Proof.
  induction d as [|[k' g] d IH]; cbn [dict_alter]; [reflexivity|].
  destruct (hashable_eqb k' k); cbn [map fst]; [reflexivity|]. rewrite IH. reflexivity.
Qed.









End Aggregator.

(** ** The aggregator on scenario C *)











(** * Further properties of the converters *)

(** ** The grouping loop *)

Lemma hashable_eqb_value a b :
  hashable_eqb a b = true <-> key_value a = key_value b.
Proof.
  destruct a as [|x|x|s], b as [|y|y|t]; cbn; split; intros H;
    try discriminate H; try reflexivity.
  - destruct x, y; try discriminate H; reflexivity.
  - destruct x, y; try discriminate H; reflexivity.
  - apply Z.eqb_eq in H. congruence.
  - injection H as H. apply Z.eqb_eq. exact H.
  - apply Z.eqb_eq in H. congruence.
  - injection H as H. apply Z.eqb_eq. congruence.
  - apply Z.eqb_eq in H. congruence.
  - injection H as H. apply Z.eqb_eq. exact H.
  - apply String.eqb_eq in H. congruence.
  - injection H as H. apply String.eqb_eq. exact H.
Qed.

Lemma hashable_eqb_false a b :
  hashable_eqb a b = false <-> key_value a <> key_value b.
Proof.
  rewrite <- hashable_eqb_value. destruct (hashable_eqb a b); split; congruence.
Qed.

Lemma dict_mem_value k pa :
  dict_mem k pa = true <-> In (key_value k) (map key_value (map fst pa)).
Proof.
  induction pa as [|[k' g] pa IH]; cbn [dict_mem map fst In].
  - split; [discriminate|contradiction].
  - rewrite orb_true_iff, IH, hashable_eqb_value. reflexivity.
Qed.

Lemma dict_mem_existsb k pa :
  dict_mem k pa = existsb (fun k' => hashable_eqb k' k) (map fst pa).
Proof.
  induction pa as [|[k' g] pa IH]; cbn [dict_mem map fst existsb]; [reflexivity|].
  rewrite IH. reflexivity.
Qed.

(** With pairwise different keys, updating the first entry of a key updates
    the only one. *)
Lemma dict_alter_map f k pa :
  NoDup (map key_value (map fst pa)) ->
  dict_alter f k pa
  = map (fun e => if hashable_eqb e.1 k then (e.1, f e.2) else e) pa.
Proof.
  induction pa as [|[k' g] pa IH]; cbn [dict_alter map fst snd]; [reflexivity|].
  intros Hnd. apply list.NoDup_cons in Hnd as [Hnotin Hnd].
  rewrite list_elem_of_In in Hnotin.
  destruct (hashable_eqb k' k) eqn:Ek.
  - f_equal. rewrite <- (map_id pa) at 1. apply map_ext_in.
    intros [k2 g2] Hin. cbn [fst snd].
    destruct (hashable_eqb k2 k) eqn:E2; [|reflexivity].
    exfalso. apply Hnotin.
    apply hashable_eqb_value in Ek, E2. rewrite Ek, <- E2.
    apply in_map, (in_map fst _ (k2, g2)), Hin.
  - rewrite (IH Hnd). reflexivity.
Qed.

(** What one iteration of the loop did, when it did not raise. *)
Lemma group_step_inv pa a pa' :
  group_step pa a = Ok pa' ->
  exists k n,
    allocation_project a = Ok k /\ allocation_amount a = Ok n
    /\ pa' = dict_alter (add_allocation n (record_donor a) a) k
               (if dict_mem k pa then pa else pa ++ [(k, empty_group)]).
Proof.
  unfold group_step, allocation_project, allocation_amount, record_donor.
  intros H. apply rbind_Ok in H as (p & Ep & H). apply rbind_Ok in H as (d & Ed & H).
  apply rbind_Ok in H as (am & Eam & H). apply rbind_Ok in H as (k & Ek & H).
  apply rbind_Ok in H as (n & En & H). injection H as <-.
  exists k, n. rewrite Ep, Eam, Ed. cbn [rbind]. auto.
Qed.

Lemma group_step_keys pa a pa' :
  group_step pa a = Ok pa' ->
  map fst pa'
  = (map fst pa ++ (if dict_mem (record_key a) pa then [] else [record_key a]))%list.
Proof.
  intros H. apply group_step_inv in H as (k & n & Ek & _ & ->).
  unfold record_key. rewrite Ek, dict_alter_keys.
  destruct (dict_mem k pa); [rewrite app_nil_r; reflexivity|].
  rewrite map_app. reflexivity.
Qed.

Lemma group_step_nodup pa a pa' :
  group_step pa a = Ok pa' ->
  NoDup (map key_value (map fst pa)) -> NoDup (map key_value (map fst pa')).
Proof.
  intros H Hnd. rewrite (group_step_keys _ _ _ H).
  destruct (dict_mem (record_key a) pa) eqn:Em; [rewrite app_nil_r; exact Hnd|].
  rewrite map_app. apply list.NoDup_app. split; [exact Hnd|]. split.
  - intros x Hx Hx'. cbn [map] in Hx'. apply list_elem_of_singleton in Hx'. subst x.
    apply list_elem_of_In, dict_mem_value in Hx. congruence.
  - cbn [map]. apply NoDup_singleton.
Qed.

Lemma group_allocations_keys allocs : forall pa0 pa,
  group_allocations pa0 allocs = Ok pa ->
  map fst pa
  = (map fst pa0 ++ first_occurrences (map fst pa0) (map record_key allocs))%list
  /\ (NoDup (map key_value (map fst pa0)) -> NoDup (map key_value (map fst pa))).
Proof.
  induction allocs as [|a allocs IH]; intros pa0 pa H; cbn [group_allocations] in H.
  - injection H as <-. cbn. rewrite app_nil_r. auto.
  - apply rbind_Ok in H as (pa1 & E1 & H).
    destruct (IH _ _ H) as [Hk Hn].
    pose proof (group_step_keys _ _ _ E1) as Hk1.
    split.
    + rewrite Hk, Hk1. cbn [map first_occurrences].
      rewrite <- dict_mem_existsb.
      destruct (dict_mem (record_key a) pa0).
      * rewrite app_nil_r. reflexivity.
      * rewrite <- app_assoc. reflexivity.
    + intros Hnd. apply Hn. exact (group_step_nodup _ _ _ E1 Hnd).
Qed.

(** X1.  The groups are keyed by the project addresses of the records in
    the order of their first occurrence, and no two groups have keys that
    Python holds equal. *)
Theorem grouping_keys_first_seen (allocs : list json) project_allocations :
  group_allocations [] allocs = Ok project_allocations ->
  map fst project_allocations = first_occurrences [] (map record_key allocs)
  /\ NoDup (map key_value (map fst project_allocations)).
Proof.
  intros H. destruct (group_allocations_keys _ _ _ H) as [Hk Hn].
  split; [exact Hk|]. apply Hn. constructor.
Qed.

Lemma dict_mem_keys k pa pa' :
  map fst pa' = (map fst pa ++ if dict_mem (record_key k) pa then [] else [record_key k])%list ->
  (forall k', dict_mem k' pa = true -> dict_mem k' pa' = true)
  /\ dict_mem (record_key k) pa' = true.
Proof.
  intros Hk. split.
  - intros k' H. rewrite dict_mem_existsb in *. rewrite Hk, existsb_app, H. reflexivity.
  - destruct (dict_mem (record_key k) pa) eqn:Em.
    + rewrite dict_mem_existsb in *. rewrite Hk, existsb_app, Em. reflexivity.
    + rewrite dict_mem_existsb, Hk, existsb_app. cbn [existsb].
      rewrite hashable_eqb_refl, orb_true_r. reflexivity.
Qed.

Lemma filter_new_key k pa records :
  dict_mem k pa = false ->
  Forall (fun a' => dict_mem (record_key a') pa = true) records ->
  List.filter (fun a => hashable_eqb k (record_key a)) records = [].
Proof.
  intros Em. induction 1 as [|a' records Ha' _ IH]; [reflexivity|].
  cbn [List.filter].
  destruct (hashable_eqb k (record_key a')) eqn:E; [|exact IH].
  apply hashable_eqb_value in E. apply dict_mem_value in Ha'.
  rewrite <- E in Ha'. apply dict_mem_value in Ha'. congruence.
Qed.

(** One iteration keeps every group in step with the records read so far. *)
Lemma group_step_holds records pa a pa' :
  group_step pa a = Ok pa' ->
  NoDup (map key_value (map fst pa)) ->
  Forall (group_holds records) pa ->
  Forall (fun a' => dict_mem (record_key a') pa = true) records ->
  Forall (group_holds (records ++ [a])) pa'
  /\ Forall (fun a' => dict_mem (record_key a') pa' = true) (records ++ [a]).
Proof.
  intros Hstep Hnd Hh Hm.
  pose proof (group_step_keys _ _ _ Hstep) as Hkeys.
  pose proof (group_step_nodup _ _ _ Hstep Hnd) as Hnd'.
  destruct (dict_mem_keys a pa pa' Hkeys) as [Hmono Hmem].
  split; [|apply Forall_app; split;
            [revert Hm; apply Forall_impl; intros a' Ha'; exact (Hmono _ Ha')
            |constructor; [exact Hmem|constructor]]].
  apply group_step_inv in Hstep as (k & n & Ek & En & ->).
  assert (Hka : record_key a = k) by (unfold record_key; rewrite Ek; reflexivity).
  assert (Hna : record_amount a = n) by (unfold record_amount; rewrite En; reflexivity).
  rewrite dict_alter_keys in Hnd'.
  set (pa1 := if dict_mem k pa then pa else (pa ++ [(k, empty_group)])%list) in *.
  assert (Hh1 : Forall (group_holds records) pa1).
  { unfold pa1. destruct (dict_mem k pa) eqn:Em; [exact Hh|].
    apply Forall_app. split; [exact Hh|]. constructor; [|constructor].
    unfold group_holds. cbn [fst snd empty_group allocations donors totalAllocated].
    split; [|split; reflexivity].
    symmetry. exact (filter_new_key _ _ _ Em Hm). }
  rewrite (dict_alter_map _ _ _ Hnd'). apply Forall_map.
  revert Hh1. apply Forall_impl. intros [k' g] (Hal & Hdo & Hto).
  cbn [fst snd] in *. unfold group_holds.
  destruct (hashable_eqb k' k) eqn:Ek';
    cbn [fst snd add_allocation allocations donors totalAllocated];
    rewrite List.filter_app; cbn [List.filter]; rewrite Hka, Ek'.
  - rewrite <- Hal. split; [reflexivity|]. split.
    + rewrite map_app, Hdo. reflexivity.
    + rewrite map_app, sum_list_app, Hto. cbn [map]. rewrite Hna.
      unfold sum_list at 3. cbn [fold_right]. lia.
  - rewrite app_nil_r. auto.
Qed.

Lemma group_allocations_holds allocs : forall records pa0 pa,
  group_allocations pa0 allocs = Ok pa ->
  NoDup (map key_value (map fst pa0)) ->
  Forall (group_holds records) pa0 ->
  Forall (fun a' => dict_mem (record_key a') pa0 = true) records ->
  Forall (group_holds (records ++ allocs)) pa
  /\ Forall (fun a' => dict_mem (record_key a') pa = true) (records ++ allocs).
Proof.
  induction allocs as [|a allocs IH]; intros records pa0 pa H Hnd Hh Hm;
    cbn [group_allocations] in H.
  - injection H as <-. rewrite app_nil_r. auto.
  - apply rbind_Ok in H as (pa1 & E1 & H).
    destruct (group_step_holds _ _ _ _ E1 Hnd Hh Hm) as [Hh1 Hm1].
    pose proof (group_step_nodup _ _ _ E1 Hnd) as Hnd1.
    replace (records ++ a :: allocs)%list with ((records ++ [a]) ++ allocs)%list
      by (rewrite <- app_assoc; reflexivity).
    exact (IH _ _ _ H Hnd1 Hh1 Hm1).
Qed.

(** X2.  Grouping is a partition of the records: the group of a project
    holds exactly the records of that project, in their order, its donors
    are the donors of these records, and its total is the sum of their
    amounts; and every record has the group of its project. *)
Theorem grouping_partitions_records (allocs : list json) project_allocations :
  group_allocations [] allocs = Ok project_allocations ->
  Forall (group_holds allocs) project_allocations
  /\ Forall (fun a => dict_mem (record_key a) project_allocations = true) allocs.
Proof.
  intros H.
  apply (group_allocations_holds allocs [] [] project_allocations H);
    constructor.
Qed.

Lemma grouping_keys_first_seen_witness :
  exists project_allocations,
    group_allocations []
      [JObj [("project", JStr "0xAA"); ("amount", JStr "5")];
       JObj [("project", JInt 1); ("amount", JStr "7")];
       JObj [("project", JStr "0xAA"); ("amount", JStr "1")];
       JObj [("project", JBool true)]]
    = Ok project_allocations
    /\ map fst project_allocations = [HStr "0xAA"; HInt 1].
Proof.
  eexists. split; [reflexivity|].
  apply (grouping_keys_first_seen
           [JObj [("project", JStr "0xAA"); ("amount", JStr "5")];
            JObj [("project", JInt 1); ("amount", JStr "7")];
            JObj [("project", JStr "0xAA"); ("amount", JStr "1")];
            JObj [("project", JBool true)]]).
  reflexivity.
Defined.

Lemma grouping_partitions_records_witness :
  exists project_allocations,
    group_allocations []
      [JObj [("project", JStr "0xAA"); ("donor", JStr "0xD1"); ("amount", JStr "5")];
       JObj [("project", JStr "0xBB"); ("donor", JStr "0xD1"); ("amount", JStr "7")];
       JObj [("project", JStr "0xAA"); ("donor", JStr "0xD2"); ("amount", JStr "1")]]
    = Ok project_allocations
    /\ Forall (group_holds
                 [JObj [("project", JStr "0xAA"); ("donor", JStr "0xD1"); ("amount", JStr "5")];
                  JObj [("project", JStr "0xBB"); ("donor", JStr "0xD1"); ("amount", JStr "7")];
                  JObj [("project", JStr "0xAA"); ("donor", JStr "0xD2"); ("amount", JStr "1")]])
         project_allocations.
Proof.
  eexists. split; [reflexivity|].
  apply grouping_partitions_records. reflexivity.
Defined.

(** ** The status of an application *)

(** X3.  The status of an application is ["pending"] without a reward
    record; with one it is ["funded"] when allocated plus matched is
    positive, ["approved"] when that sum is not positive although allocated
    is, and ["pending"] otherwise.  So ["approved"] occurs only with a
    negative matched amount. *)
Theorem status_of_reward (project_rewards : json) (s : string) :
  application_status project_rewards = Ok s ->
  if py_truthy project_rewards then
    exists allocated matched,
      reward_amount project_rewards "allocated" = Ok allocated
      /\ reward_amount project_rewards "matched" = Ok matched
      /\ (s = "funded" <-> 0 < allocated + matched)
      /\ (s = "approved" <-> allocated + matched <= 0 /\ 0 < allocated)
      /\ (s = "pending" <-> allocated + matched <= 0 /\ allocated <= 0)
      /\ (0 <= matched -> s <> "approved")
  else s = "pending".
Proof.
  unfold application_status. destruct (py_truthy project_rewards);
    [|intros [= <-]; reflexivity].
  intros H. apply rbind_Ok in H as (a & Ea & H). apply rbind_Ok in H as (al & Eal & H).
  apply rbind_Ok in H as (m & Em & H). apply rbind_Ok in H as (ma & Ema & H).
  exists al, ma. unfold reward_amount. rewrite Ea, Em. cbn [rbind].
  split; [exact Eal|]. split; [exact Ema|].
  rewrite Ea in H. cbn [rbind] in H. rewrite Eal in H. cbn [rbind] in H.
  destruct (0 <? al + ma) eqn:E1.
  - injection H as <-. apply Z.ltb_lt in E1.
    repeat split; intros; try discriminate; try lia.
  - apply Z.ltb_ge in E1. destruct (0 <? al) eqn:E2; injection H as <-.
    + apply Z.ltb_lt in E2. repeat split; intros; try discriminate; try lia.
    + apply Z.ltb_ge in E2. repeat split; intros; try discriminate; try lia.
Qed.

Lemma status_of_reward_witness :
  application_status (JObj [("address", JStr "0xAA"); ("allocated", JStr "5");
                            ("matched", JStr "-5")]) = Ok "approved"
  /\ exists allocated matched,
       reward_amount (JObj [("address", JStr "0xAA"); ("allocated", JStr "5");
                            ("matched", JStr "-5")]) "allocated" = Ok allocated
       /\ reward_amount (JObj [("address", JStr "0xAA"); ("allocated", JStr "5");
                               ("matched", JStr "-5")]) "matched" = Ok matched
       /\ ("approved" = "approved" <-> allocated + matched <= 0 /\ 0 < allocated).
Proof.
  split; [reflexivity|].
  destruct (status_of_reward
              (JObj [("address", JStr "0xAA"); ("allocated", JStr "5");
                     ("matched", JStr "-5")]) "approved" eq_refl)
    as (al & ma & H1 & H2 & _ & H3 & _).
  exists al, ma. split; [exact H1|]. split; [exact H2|exact H3].
Defined.

(** ** The fetcher: recovery after failed attempts *)

Section Recovery.
Context {rate : Type} (config : OctantConfig) (env : @environment rate).

Lemma request_loop_recovers url allow v : forall k attempt remaining (st : state),
  (k < remaining)%nat ->
  (attempt + remaining)%nat = Z.to_nat (max_retries config) ->
  (forall j, (j < k)%nat ->
     attempt_fails allow
       (http env (trace st ++ failed_attempts url (retry_delay config) attempt j) url)
     = true) ->
  try_request allow
    (http env (trace st ++ failed_attempts url (retry_delay config) attempt k) url)
  = Returned v ->
  _make_request_loop config env url allow (seq attempt remaining) st
  = (Ok v,
     {| eth_usd_rates := eth_usd_rates st; chain_info := chain_info st;
        trace := trace st ++ failed_attempts url (retry_delay config) attempt k
                 ++ [EvGet url] |}).
Proof.
  induction k as [|k IH]; intros attempt remaining st Hlt Hn Hfail Hok.
  - destruct remaining as [|r]; [lia|].
    cbn [seq _make_request_loop failed_attempts] in *. rewrite app_nil_r in Hok.
    unfold mbindM, perform. rewrite Hok. reflexivity.
  - destruct remaining as [|r]; [lia|].
    cbn [seq _make_request_loop]. unfold mbindM at 1. unfold perform at 1.
    pose proof (Hfail 0%nat ltac:(lia)) as H0. cbn [failed_attempts] in H0.
    rewrite app_nil_r in H0. unfold attempt_fails in H0.
    destruct (try_request allow (http env (trace st) url)) as [v0|rs]; [discriminate|].
    apply negb_true_iff in H0. rewrite H0.
    assert (Hlt' : (Z.of_nat attempt <? max_retries config - 1) = true)
      by (apply Z.ltb_lt; lia).
    rewrite Hlt'. unfold mbindM at 1. unfold perform at 1.
    rewrite (IH (S attempt) r); cbn [trace log_event eth_usd_rates chain_info].
    + cbn [failed_attempts]. rewrite <- !app_assoc. reflexivity.
    + lia.
    + lia.
    + intros j Hj. specialize (Hfail (S j) ltac:(lia)).
      cbn [failed_attempts] in Hfail. rewrite <- !app_assoc. exact Hfail.
    + cbn [failed_attempts] in Hok. rewrite <- !app_assoc. exact Hok.
Qed.

(** X4.  When the first [k] attempts of a fetch fail (and are not an
    expected absence), [k] being smaller than [max_retries], and the next
    attempt succeeds, the fetch returns the value of that attempt; it has
    made [k + 1] requests, with the pause [retry_delay * 2 ^ i] after the
    failed attempt [i] and no pause after the successful one. *)
Theorem make_request_recovers (endpoint : string) (allow_404_400 : bool)
    (k : nat) (v : json) (st : state) :
  let url := base_url config ++ endpoint in
  (k < Z.to_nat (max_retries config))%nat ->
  (forall j, (j < k)%nat ->
     attempt_fails allow_404_400
       (http env (trace st ++ failed_attempts url (retry_delay config) 0 j) url) = true) ->
  try_request allow_404_400
    (http env (trace st ++ failed_attempts url (retry_delay config) 0 k) url)
  = Returned v ->
  _make_request config env endpoint allow_404_400 st
  = (Ok v,
     {| eth_usd_rates := eth_usd_rates st; chain_info := chain_info st;
        trace := trace st ++ failed_attempts url (retry_delay config) 0 k
                 ++ [EvGet url] |})
  /\ gets (failed_attempts url (retry_delay config) 0 k ++ [EvGet url]) = S k.
Proof.
  intros url Hk Hfail Hok. split.
  - unfold _make_request. fold url.
    apply request_loop_recovers; [exact Hk|lia|exact Hfail|exact Hok].
  - clear. generalize 0%nat. induction k as [|k IH]; intros a; [reflexivity|].
    cbn [failed_attempts app]. unfold gets in *. cbn [List.filter is_get length].
    rewrite IH. reflexivity.
Qed.

End Recovery.

Lemma make_request_recovers_witness :
  _make_request OctantConfig_default env_recovering "/epochs/current" false state_initial
  = (Ok (JObj [("currentEpoch", JInt 7)]),
     {| eth_usd_rates := ∅; chain_info := JNull;
        trace := [EvGet "https://backend.mainnet.octant.app/epochs/current";
                  EvSleep (1 * 2 ^ 0)%Qc;
                  EvGet "https://backend.mainnet.octant.app/epochs/current";
                  EvSleep (1 * 2 ^ 1)%Qc;
                  EvGet "https://backend.mainnet.octant.app/epochs/current"] |}).
Proof.
  apply (make_request_recovers OctantConfig_default env_recovering "/epochs/current"
           false 2 (JObj [("currentEpoch", JInt 7)]) state_initial).
  - vm_compute. lia.
  - intros [|[|j]] Hj; [reflexivity|reflexivity|lia].
  - reflexivity.
Defined.

(** ** What processing an epoch may touch *)

Section Frames.
Context {rate : Type} (rate_truthy : rate -> bool)
  (usd_format : Z -> rate -> result string) (repr_container : json -> string)
  (config : OctantConfig) (env : @environment rate).

Section Combinators.
Variable R : @state rate -> @state rate -> Prop.
Hypothesis R_refl : forall st, R st st.
Hypothesis R_trans : forall a b c, R a b -> R b c -> R a c.
Hypothesis R_log : forall e st, R st (log_event e st).

Lemma respects_ret {A} (a : A) : respects R (ret a).
Proof. intros st. apply R_refl. Qed.

Lemma respects_lift {A} (r : result A) : respects R (lift r).
Proof. intros st. apply R_refl. Qed.

Lemma respects_get_state : respects R get_state.
Proof. intros st. apply R_refl. Qed.

Lemma respects_perform {A} e (answer : list event -> A) : respects R (perform e answer).
Proof. intros st. apply R_log. Qed.

Lemma respects_bind {A B} (m : M A) (k : A -> M B) :
  respects R m -> (forall a, respects R (k a)) -> respects R (mbindM m k).
Proof.
  intros Hm Hk st. unfold mbindM. specialize (Hm st).
  destruct (m st) as [[a|e] st1]; cbn [snd] in *; [|exact Hm].
  exact (R_trans _ _ _ Hm (Hk a st1)).
Qed.

Lemma respects_request_loop url allow attempts :
  respects R (_make_request_loop config env url allow attempts).
Proof.
  induction attempts as [|attempt rest IH]; cbn [_make_request_loop];
    [apply respects_ret|].
  apply respects_bind; [apply respects_perform|]. intros out.
  destruct (try_request allow out) as [v|rs]; [apply respects_ret|].
  destruct (expected_absence allow rs); [apply respects_ret|].
  destruct (Z.of_nat attempt <? max_retries config - 1); [|apply respects_ret].
  apply respects_bind; [apply respects_perform|]. intros _. exact IH.
Qed.

End Combinators.

Lemma touches_only_refl epoch (st : @state rate) : touches_only epoch st st.
Proof.
  split; [reflexivity|]. split; [exists []; rewrite app_nil_r; reflexivity|].
  reflexivity.
Qed.

Lemma touches_only_trans epoch (a b c : @state rate) :
  touches_only epoch a b -> touches_only epoch b c -> touches_only epoch a c.
Proof.
  intros (C1 & [t1 T1] & K1) (C2 & [t2 T2] & K2).
  split; [congruence|]. split.
  - exists (t1 ++ t2)%list. rewrite T2, T1, app_assoc. reflexivity.
  - intros e He. rewrite <- (K1 e He). apply K2.
    destruct He as [He|He]; [left; exact He|right; rewrite (K1 e); auto].
Qed.

Lemma touches_only_log epoch e (st : @state rate) :
  touches_only epoch st (log_event e st).
Proof.
  split; [reflexivity|]. split; [exists [e]; reflexivity|]. reflexivity.
Qed.

Lemma touches_only_store epoch r (st : @state rate) :
  eth_usd_rates st !! epoch = None ->
  touches_only epoch st (store_rate epoch r st).
Proof.
  intros Hc. split; [reflexivity|].
  split; [exists []; cbn; rewrite app_nil_r; reflexivity|].
  intros e [He|[x Hx]]; cbn [store_rate eth_usd_rates].
  - apply lookup_insert_ne. congruence.
  - apply lookup_insert_ne. congruence.
Qed.

Lemma get_rate_touches epoch :
  respects (touches_only epoch) (_get_eth_rate_for_epoch rate_truthy env epoch).
Proof.
  intros st. destruct (eth_usd_rates st !! epoch) as [r|] eqn:Hc.
  - rewrite (get_rate_hit rate_truthy env epoch st r Hc). apply touches_only_refl.
  - pose proof (get_rate_miss rate_truthy env epoch st Hc) as Hm. cbn zeta in Hm.
    assert (H1 : touches_only epoch st (log_event (EvHistoricalRate epoch) st))
      by apply touches_only_log.
    assert (H2 : touches_only epoch st
                   (log_event EvCurrentRate (log_event (EvHistoricalRate epoch) st)))
      by (eapply touches_only_trans; [exact H1|apply touches_only_log]).
    assert (S1 : forall r, touches_only epoch st
                   (store_rate epoch r (log_event (EvHistoricalRate epoch) st))).
    { intros r. eapply touches_only_trans; [exact H1|].
      apply touches_only_store. exact Hc. }
    assert (S2 : forall r, touches_only epoch st
                   (store_rate epoch r
                      (log_event EvCurrentRate (log_event (EvHistoricalRate epoch) st)))).
    { intros r. eapply touches_only_trans; [exact H2|].
      apply touches_only_store. exact Hc. }
    destruct (historical_rate env (trace st) epoch) as [h|];
      [destruct (rate_truthy h)|];
      try (destruct (current_rate env _) as [c|]; [destruct (rate_truthy c)|]);
      rewrite Hm; cbn [snd]; auto.
Qed.

Lemma wei_to_usd_touches w epoch :
  respects (touches_only epoch) (_wei_to_usd_str rate_truthy usd_format env w epoch).
Proof.
  unfold _wei_to_usd_str.
  apply respects_bind; [apply touches_only_trans|apply get_rate_touches|].
  intros [r|]; [|apply respects_ret, touches_only_refl].
  destruct (rate_truthy r); [|apply respects_ret, touches_only_refl].
  destruct (wei_int <- py_int w; usd_format wei_int r) as [s|[]];
    first [apply respects_ret, touches_only_refl|apply respects_lift, touches_only_refl].
Qed.

(** Takes a chain of binds apart. *)
Ltac respects_step epoch :=
  first
    [ apply respects_ret, touches_only_refl
    | apply respects_lift, touches_only_refl
    | apply respects_get_state, touches_only_refl
    | apply respects_perform, touches_only_log
    | apply wei_to_usd_touches
    | apply respects_bind; [apply touches_only_trans| |intros ?] ].

Lemma create_application_touches epoch rd md c k data :
  respects (touches_only epoch)
    (create_application rate_truthy usd_format repr_container env epoch rd md c k data).
Proof.
  unfold create_application. do 10 (respects_step epoch; [respects_step epoch|]).
  cbv zeta. destruct (py_truthy _).
  - do 3 (respects_step epoch; [respects_step epoch|]).
    destruct (opt_truthy str_truthy _); repeat respects_step epoch.
  - respects_step epoch.
Qed.

Lemma create_applications_touches epoch rd md pa : forall c,
  respects (touches_only epoch)
    (create_applications rate_truthy usd_format repr_container env epoch rd md c pa).
Proof.
  induction pa as [|[k data] pa IH]; intros c; cbn [create_applications].
  - respects_step epoch.
  - respects_step epoch; [apply create_application_touches|].
    respects_step epoch; [apply IH|]. respects_step epoch.
Qed.

Lemma generate_from_touches epoch ad rd md :
  respects (touches_only epoch)
    (generate_applications_from rate_truthy usd_format repr_container env epoch ad rd md).
Proof.
  unfold generate_applications_from. respects_step epoch; [respects_step epoch|].
  cbv zeta. destruct (negb _).
  - repeat respects_step epoch.
  - do 3 (respects_step epoch; [respects_step epoch|]).
    respects_step epoch; [apply create_applications_touches|]. respects_step epoch.
Qed.

(** X5.  Processing an epoch, whether it returns a document or raises,
    only adds actions to the trace and may fill in the rate of that epoch
    when the cache has none: the chain metadata is kept, a rate that is
    cached (for this or any other epoch) is never replaced, and no rate of
    another epoch is added or removed. *)
Theorem generate_applications_touches (epoch : Z) (st : state) :
  touches_only epoch st
    (snd (generate_applications rate_truthy usd_format repr_container config env
            epoch st)).
Proof.
  revert st. change (respects (touches_only epoch)
    (generate_applications rate_truthy usd_format repr_container config env epoch)).
  unfold generate_applications, get_allocations_for_epoch, get_project_rewards,
    get_merkle_tree, _make_request.
  do 3 (respects_step epoch;
        [apply respects_request_loop;
         [apply touches_only_refl|apply touches_only_trans|apply touches_only_log]|]).
  apply generate_from_touches.
Qed.

End Frames.

(** ** An outage of the allocations endpoint *)

Section Outage.
Context {rate : Type} (rate_truthy : rate -> bool)
  (usd_format : Z -> rate -> result string) (repr_container : json -> string)
  (config : OctantConfig) (env : @environment rate).



End Outage.


(** ** The identifiers of the applications *)

Lemma append_inj_l (s a b : string) : s ++ a = s ++ b -> a = b.
Proof.
  induction s as [|c s IH]; cbn [append]; [auto|]. intros [= H]. exact (IH H).
Qed.

Lemma str_of_int_inj a b : str_of_int a = str_of_int b -> a = b.
Proof.
  intros H. pose proof (int_of_str_of_int a) as Ha. rewrite H, int_of_str_of_int in Ha.
  congruence.
Qed.

Section Identifiers.
Context {rate : Type} (rate_truthy : rate -> bool)
  (usd_format : Z -> rate -> result string) (repr_container : json -> string)
  (env : @environment rate).

Ltac bind_inv H x E :=
  let st1 := fresh "st" in
  apply mbindM_Ok in H as (x & st1 & E & H).

Ltac lift_inv H x E :=
  bind_inv H x E; apply lift_Ok in E as [E ->].

Lemma create_application_ids epoch rd md c k data (st : state) app st' :
  create_application rate_truthy usd_format repr_container env epoch rd md c k data st
  = (Ok app, st') ->
  identified_as repr_container (chain_info st) epoch c k app.
Proof.
  unfold create_application. intros H.
  lift_inv H pr Epr. lift_inv H status0 Est. lift_inv H payouts0 Epay.
  bind_inv H st0 Eget. unfold get_state in Eget. injection Eget as <- <-.
  lift_inv H id_address E1. lift_inv H pool_address E2. lift_inv H project_caip E3.
  lift_inv H short E4. bind_inv H created E5. bind_inv H usd Eusd.
  assert (E1' := E1). rewrite E2 in E1'. injection E1' as ->.
  destruct k as [| | |s]; try discriminate E4. injection E4 as <-.
  exists id_address, project_caip, s.
  split; [exact E1|]. split; [exact E3|]. split; [reflexivity|].
  cbv zeta in H. destruct (py_truthy pr).
  - lift_inv H ma Ema. lift_inv H m Em. bind_inv H musd Emusd.
    destruct (opt_truthy str_truthy musd).
    + bind_inv H usd' Eusd'. injection H as <- _. cbn. repeat split; reflexivity.
    + injection H as <- _. cbn. repeat split; reflexivity.
  - injection H as <- _. cbn. repeat split; reflexivity.
Qed.

Lemma create_applications_ids epoch rd md pa : forall c (st : state) apps st',
  create_applications rate_truthy usd_format repr_container env epoch rd md c pa st
  = (Ok apps, st') ->
  length apps = length pa
  /\ forall i e app, pa !! i = Some e -> apps !! i = Some app ->
       identified_as repr_container (chain_info st) epoch (c + Z.of_nat i) e.1 app.
Proof.
  induction pa as [|[k data] pa IH]; intros c st apps st' H;
    cbn [create_applications] in H.
  - injection H as <- _. split; [reflexivity|]. intros i e app He. discriminate He.
  - bind_inv H app1 Eapp. bind_inv H rest Erest. injection H as <- _.
    destruct (IH _ _ _ _ Erest) as [Hlen Hids].
    split; [cbn [length]; rewrite Hlen; reflexivity|].
    intros [|i] e app He Ha; cbn in He, Ha.
    + injection He as <-. injection Ha as <-. rewrite Z.add_0_r.
      exact (create_application_ids _ _ _ _ _ _ _ _ _ Eapp).
    + pose proof (create_application_touches rate_truthy usd_format repr_container env
                    epoch rd md c k data st) as (Hci & _).
      rewrite Eapp in Hci. cbn [snd] in Hci. rewrite <- Hci.
      replace (c + Z.of_nat (S i)) with (c + 1 + Z.of_nat i) by lia.
      exact (Hids i e app He Ha).
Qed.

(** X7.  In the document of a completed epoch there is one application per
    project with allocations, in the order of the projects, and
    [_total_applications] counts them.  The application at position [i]
    (from 0) carries the number [i + 1] in its id, the epoch in its pool
    id and the CAIP-10 form of its project address in its project id, and
    that address is a string.  No two applications share an id. *)
Theorem applications_numbered epoch ad rd md (st : state) pool st' :
  generate_applications_from rate_truthy usd_format repr_container env epoch ad rd md st
  = (Ok pool, st') ->
  _epoch_status pool = "completed" ->
  exists allocs project_allocations,
    allocation_records ad = Ok allocs
    /\ group_allocations [] allocs = Ok project_allocations
    /\ length (applications pool) = length project_allocations
    /\ _total_applications pool = Some (Z.of_nat (length project_allocations))
    /\ (forall i e app,
          project_allocations !! i = Some e -> applications pool !! i = Some app ->
          identified_as repr_container (chain_info st) epoch (Z.of_nat i + 1) e.1 app)
    /\ NoDup (map id (applications pool)).
Proof.
  unfold generate_applications_from. intros H Hs. lift_inv H es Ees.
  cbv zeta in H.
  destruct (epoch_state_inv _ _ _ _ Ees) as [->|[->|(-> & Hrd & Hmd)]];
    cbn [fst snd negb] in H.
  - lift_inv H has Ehas. injection H as <- _. discriminate Hs.
  - lift_inv H has Ehas. injection H as <- _. discriminate Hs.
  - lift_inv H allocs Ea. lift_inv H l El. lift_inv H pa Epa.
    bind_inv H apps Eapps. injection H as <- _. cbn [applications _total_applications].
    destruct (create_applications_ids _ _ _ _ _ _ _ _ Eapps) as [Hlen Hids].
    exists l, pa.
    split; [unfold allocation_records; rewrite Ea; exact El|].
    split; [exact Epa|]. split; [exact Hlen|]. split; [rewrite Hlen; reflexivity|].
    assert (Hnum : forall i app, apps !! i = Some app ->
              exists pool_address,
                _generate_caip10_address repr_container (chain_info st) zero_address
                = Ok pool_address
                /\ id app = pool_address ++ "?proposalId=" ++ str_of_int (Z.of_nat i + 1)).
    { intros i app Ha.
      destruct (pa !! i) as [e|] eqn:He.
      - destruct (Hids i e app He Ha) as (p & q & s & H1 & _ & _ & H2 & _).
        exists p. split; [exact H1|]. rewrite H2. f_equal. f_equal. f_equal. lia.
      - apply lookup_ge_None in He. apply lookup_lt_Some in Ha. lia. }
    split.
    + intros i e app He Ha. rewrite Z.add_comm. exact (Hids i e app He Ha).
    + change (map id apps) with (id <$> apps). apply NoDup_alt.
      intros i j x Hi Hj. rewrite list_lookup_fmap in Hi, Hj.
      destruct (apps !! i) as [a1|] eqn:E1; [|discriminate Hi].
      destruct (apps !! j) as [a2|] eqn:E2; [|discriminate Hj].
      cbn in Hi, Hj. injection Hi as Hi. injection Hj as Hj.
      destruct (Hnum i a1 E1) as (p1 & P1 & I1).
      destruct (Hnum j a2 E2) as (p2 & P2 & I2).
      rewrite P1 in P2. injection P2 as <-.
      rewrite <- Hj, I1, I2 in Hi.
      apply append_inj_l, append_inj_l, str_of_int_inj in Hi. lia.
Qed.

End Identifiers.

Lemma applications_numbered_witness :
  exists pool st' allocs project_allocations,
    scenario_C_run = (Ok pool, st')
    /\ allocation_records scenario_C_allocations = Ok allocs
    /\ group_allocations [] allocs = Ok project_allocations
    /\ length (applications pool) = length project_allocations
    /\ _total_applications pool = Some (Z.of_nat (length project_allocations))
    /\ NoDup (map id (applications pool)).
Proof.
  assert (E : { p & { s : @state Z | scenario_C_run = (Ok p, s) } }).
  { eexists. eexists. vm_compute. reflexivity. }
  destruct E as (pool & st' & E).
  destruct (applications_numbered rate_nonzero usd_format_exact repr_unused env_2000 7
              scenario_C_allocations scenario_C_rewards scenario_C_merkle
              state_initial pool st' E)
    as (allocs & pa & H1 & H2 & H3 & H4 & _ & H5).
  - revert E. vm_compute. intros [= <- _]. reflexivity.
  - exists pool, st', allocs, pa. auto 10.
Defined.

(** ** Records whose project is not a string *)

Lemma group_allocations_projects allocs : forall pa0 pa,
  group_allocations pa0 allocs = Ok pa ->
  Forall (fun a => allocation_project a = Ok (record_key a)) allocs.
Proof.
  induction allocs as [|a allocs IH]; intros pa0 pa H; cbn [group_allocations] in H;
    [constructor|].
  apply rbind_Ok in H as (pa1 & E1 & H). constructor; [|exact (IH _ _ H)].
  apply group_step_inv in E1 as (k & n & Ek & _). unfold record_key. rewrite Ek.
  reflexivity.
Qed.

Lemma hashable_eqb_string s k : hashable_eqb (HStr s) k = true -> k = HStr s.
Proof.
  destruct k as [| | |t]; try discriminate. cbn. intros H.
  apply String.eqb_eq in H. congruence.
Qed.

Lemma dict_mem_In k pa :
  dict_mem k pa = true -> exists e, In e pa /\ hashable_eqb e.1 k = true.
Proof.
  induction pa as [|[k' g] pa IH]; cbn [dict_mem]; [discriminate|].
  intros H. apply orb_true_iff in H as [H|H].
  - exists (k', g). split; [left; reflexivity|exact H].
  - destruct (IH H) as (e & He & Hk). exists e. split; [right; exact He|exact Hk].
Qed.

Section StringProjects.
Context {rate : Type} (rate_truthy : rate -> bool)
  (usd_format : Z -> rate -> result string) (repr_container : json -> string)
  (env : @environment rate).

Lemma completed_projects_are_strings epoch ad rd md (st : state) pool st' :
  generate_applications_from rate_truthy usd_format repr_container env epoch ad rd md st
  = (Ok pool, st') ->
  _epoch_status pool = "completed" ->
  exists allocs, allocation_records ad = Ok allocs
    /\ Forall (fun a => exists s, allocation_project a = Ok (HStr s)) allocs.
Proof.
  intros H Hs.
  destruct (generate_from_completed _ _ _ _ _ _ _ _ _ _ _ H Hs)
    as (_ & _ & allocs & pa & Ea & Epa & Eapps).
  exists allocs. split; [exact Ea|].
  destruct (create_applications_ids _ _ _ _ _ _ _ _ _ _ _ _ Eapps) as [Hlen Hids].
  pose proof (group_allocations_projects _ _ _ Epa) as Hp.
  destruct (group_allocations_holds allocs [] [] pa Epa) as [_ Hm];
    [constructor|constructor|constructor|].
  cbn [app] in Hm. apply Forall_forall. intros a Ha.
  rewrite Forall_forall in Hp, Hm.
  specialize (Hp a Ha). specialize (Hm a Ha).
  apply dict_mem_In in Hm as (e & He & Hk).
  apply list_elem_of_In, list_elem_of_lookup in He as [i Hi].
  destruct (lookup_lt_is_Some_2 (applications pool) i) as [app Happ].
  { rewrite Hlen. eapply lookup_lt_Some, Hi. }
  destruct (Hids i e app Hi Happ) as (_ & _ & s & _ & _ & Hstr & _).
  rewrite Hstr in Hk. apply hashable_eqb_string in Hk.
  exists s. rewrite Hp, Hk. reflexivity.
Qed.

(** X8.  When the three documents make the epoch completed, an allocation
    record whose project is missing or is not a string (so that
    [project_address[:8]] cannot be sliced) makes the generation of the
    applications raise; no document is returned. *)
Theorem record_without_string_project_raises epoch ad rd md allocs a (st : state) :
  epoch_state ad rd md = Ok (true, "completed") ->
  allocation_records ad = Ok allocs ->
  In a allocs ->
  (forall s, allocation_project a <> Ok (HStr s)) ->
  exists e,
    fst (generate_applications_from rate_truthy usd_format repr_container env
           epoch ad rd md st) = Raise e.
Proof.
  intros Hes Ha Hin Hns.
  destruct (generate_applications_from rate_truthy usd_format repr_container env
              epoch ad rd md st) as [[pool|e] st'] eqn:E; [|exists e; reflexivity].
  exfalso.
  assert (Hs : _epoch_status pool = "completed").
  { revert E. unfold generate_applications_from, mbindM at 1, lift at 1.
    rewrite Hes. cbv zeta. cbn [fst snd negb]. intros H.
    apply mbindM_Ok in H as (x1 & s1 & _ & H). apply mbindM_Ok in H as (x2 & s2 & _ & H).
    apply mbindM_Ok in H as (x3 & s3 & _ & H). apply mbindM_Ok in H as (x4 & s4 & _ & H).
    injection H as <- _. reflexivity. }
  destruct (completed_projects_are_strings _ _ _ _ _ _ _ E Hs) as (allocs' & Ea' & Hall).
  rewrite Ha in Ea'. injection Ea' as <-.
  rewrite Forall_forall in Hall. destruct (Hall a Hin) as [s Hsa].
  exact (Hns s Hsa).
Qed.

End StringProjects.

Lemma record_without_string_project_raises_witness :
  exists e,
    fst (generate_applications_from rate_nonzero usd_format_exact repr_unused env_2000 7
           allocations_without_project scenario_C_rewards scenario_C_merkle
           state_initial) = Raise e.
Proof.
  apply (record_without_string_project_raises rate_nonzero usd_format_exact repr_unused
           env_2000 7 allocations_without_project scenario_C_rewards scenario_C_merkle
           [JObj [("donor", JStr "0xD1"); ("amount", JStr "1000000000000000000")]]
           (JObj [("donor", JStr "0xD1"); ("amount", JStr "1000000000000000000")])).
  - reflexivity.
  - reflexivity.
  - left. reflexivity.
  - intros s. vm_compute. discriminate.
Defined.

(** ** The selection of the epochs to process *)

Lemma insert_sorted_In x l z : In z (insert_sorted x l) <-> z = x \/ In z l.
Proof.
  induction l as [|y l IH]; cbn [insert_sorted In].
  - intuition.
  - destruct (x <? y) eqn:E1; [cbn [In]; intuition|].
    destruct (x =? y) eqn:E2.
    + apply Z.eqb_eq in E2. subst y. cbn [In]. intuition.
    + cbn [In]. rewrite IH. intuition.
Qed.

Lemma insert_sorted_increasing x l : increasing l -> increasing (insert_sorted x l).
Proof.
  induction l as [|y l IH]; cbn [insert_sorted increasing].
  - intros _. split; [constructor|exact I].
  - intros [Hy Hl]. destruct (x <? y) eqn:E1.
    + apply Z.ltb_lt in E1. cbn [increasing]. split; [|split; assumption].
      constructor; [exact E1|]. revert Hy. apply Forall_impl. intros a Ha. lia.
    + destruct (x =? y) eqn:E2; [split; assumption|].
      apply Z.ltb_ge in E1. apply Z.eqb_neq in E2. cbn [increasing].
      split; [|apply IH, Hl]. apply Forall_forall. intros a Ha.
      apply insert_sorted_In in Ha as [->|Ha]; [lia|].
      rewrite Forall_forall in Hy. apply Hy, Ha.
Qed.

Lemma sorted_set_In l z : In z (sorted_set l) <-> In z l.
Proof.
  induction l as [|x l IH]; cbn [sorted_set fold_right In]; [reflexivity|].
  fold (sorted_set l). rewrite insert_sorted_In, IH. intuition.
Qed.

Lemma sorted_set_increasing l : increasing (sorted_set l).
Proof.
  induction l as [|x l IH]; cbn [sorted_set fold_right]; [exact I|].
  apply insert_sorted_increasing, IH.
Qed.

Lemma filter_increasing f l : increasing l -> increasing (List.filter f l).
Proof.
  induction l as [|x l IH]; cbn [List.filter increasing]; [auto|].
  intros [Hx Hl]. destruct (f x); [|apply IH, Hl].
  cbn [increasing]. split; [|apply IH, Hl].
  apply Forall_forall. intros a Ha. apply filter_In in Ha as [Ha _].
  rewrite Forall_forall in Hx. apply Hx, Ha.
Qed.

Lemma py_range_In lo hi e : In e (py_range lo hi) <-> lo <= e < hi.
Proof.
  unfold py_range. rewrite in_map_iff. split.
  - intros (i & <- & Hi). apply in_seq in Hi. lia.
  - intros He. exists (Z.to_nat (e - lo)). split; [lia|]. apply in_seq. lia.
Qed.

Lemma py_range_increasing lo hi : increasing (py_range lo hi).
Proof.
  unfold py_range. generalize (Z.to_nat (hi - lo)) as n.
  generalize 0%nat as a. intros a n. revert a.
  induction n as [|n IH]; intros a; cbn [seq map increasing]; [exact I|].
  split; [|apply IH]. apply Forall_forall. intros y Hy.
  apply in_map_iff in Hy as (i & <- & Hi). apply in_seq in Hi. lia.
Qed.

(** The two passes of the validation amount to keeping the epochs between
    1 and the current one. *)
Lemma validate_epochs_filter l c :
  validate_epochs l c = List.filter (epoch_in_range c) l.
Proof.
  unfold validate_epochs.
  assert (Hbad : forall e, ((e <? 1) || (c <? e)) = negb (epoch_in_range c e)).
  { intros e. unfold epoch_in_range.
    destruct (e <? 1) eqn:E1, (c <? e) eqn:E2, (1 <=? e) eqn:E3, (e <=? c) eqn:E4;
      try reflexivity; exfalso;
      repeat match goal with
             | H : (_ <? _) = true |- _ => apply Z.ltb_lt in H
             | H : (_ <? _) = false |- _ => apply Z.ltb_ge in H
             | H : (_ <=? _) = true |- _ => apply Z.leb_le in H
             | H : (_ <=? _) = false |- _ => apply Z.leb_gt in H
             end; lia. }
  destruct (invalid_epochs l c) as [|b bs] eqn:Ei.
  - symmetry. apply forallb_filter_id. apply forallb_forall. intros e He.
    destruct (epoch_in_range c e) eqn:E; [reflexivity|]. exfalso.
    assert (Hin : In e (invalid_epochs l c)).
    { unfold invalid_epochs. apply filter_In. split; [exact He|].
      rewrite Hbad, E. reflexivity. }
    rewrite Ei in Hin. exact Hin.
  - rewrite <- Ei. apply filter_ext_in. intros e He.
    destruct (epoch_in_range c e) eqn:E.
    + apply negb_true_iff. destruct (existsb _ _) eqn:Ex; [|reflexivity].
      apply existsb_exists in Ex as (x & Hx & Hex). apply Z.eqb_eq in Hex. subst x.
      unfold invalid_epochs in Hx. apply filter_In in Hx as [_ Hx].
      rewrite Hbad, E in Hx. discriminate Hx.
    + apply negb_false_iff. apply existsb_exists. exists e.
      split; [|apply Z.eqb_refl]. unfold invalid_epochs. apply filter_In.
      split; [exact He|]. rewrite Hbad, E. reflexivity.
Qed.

Lemma determine_epochs_increasing args c l :
  determine_epochs_to_process args c = Ok l -> increasing l.
Proof.
  unfold determine_epochs_to_process.
  assert (H1 : forall e : Z, increasing [e]) by (intros e; split; [constructor|exact I]).
  destruct (arg_epoch args) as [e|]; [intros [= <-]; apply H1|].
  assert (Hrest : (if arg_current args || arg_latest args then Ok [c]
                   else Ok (py_range 1 (c + 1))) = Ok l -> increasing l).
  { destruct (arg_current args || arg_latest args); intros [= <-];
      [apply H1|apply py_range_increasing]. }
  destruct (arg_epochs args) as [s|]; [|exact Hrest].
  destruct (str_truthy s); [|exact Hrest].
  destruct (parse_epochs (split_comma s)) as [ns|[]]; try discriminate.
  intros [= <-]. apply sorted_set_increasing.
Qed.

(** X9.  The epochs [main] goes on to process are the selected ones that
    lie between 1 and the current epoch; whatever the options, they are in
    strictly increasing order, so no epoch is processed twice. *)
Theorem main_epochs_valid (args : Args) (current_epoch : Z) (l : list Z) :
  main_epochs args current_epoch = Ok l ->
  exists selected,
    determine_epochs_to_process args current_epoch = Ok selected
    /\ l = List.filter (epoch_in_range current_epoch) selected
    /\ increasing l
    /\ Forall (fun e => 1 <= e <= current_epoch) l.
Proof.
  unfold main_epochs. intros H. apply rbind_Ok in H as (selected & Es & H).
  injection H as <-. exists selected. rewrite validate_epochs_filter.
  split; [exact Es|]. split; [reflexivity|]. split.
  - apply filter_increasing. exact (determine_epochs_increasing _ _ _ Es).
  - apply Forall_forall. intros e He. apply filter_In in He as [_ He].
    unfold epoch_in_range in He. apply andb_true_iff in He as [H1 H2].
    apply Z.leb_le in H1, H2. lia.
Qed.

Lemma main_epochs_valid_witness :
  exists selected,
    determine_epochs_to_process
      {| arg_epoch := None; arg_epochs := Some "9, 3,0,3"; arg_current := false;
         arg_latest := false |} 7 = Ok selected
    /\ [3] = List.filter (epoch_in_range 7) selected
    /\ increasing [3]
    /\ Forall (fun e => 1 <= e <= 7) [3].
Proof.
  apply (main_epochs_valid
           {| arg_epoch := None; arg_epochs := Some "9, 3,0,3"; arg_current := false;
              arg_latest := false |} 7 [3]).
  reflexivity.
Defined.

Lemma parse_epochs_Ok parts ns :
  parse_epochs parts = Ok ns -> map epoch_of_part parts = map Some ns.
Proof.
  revert ns. induction parts as [|p parts IH]; intros ns; cbn [parse_epochs].
  - intros [= <-]. reflexivity.
  - intros H. apply rbind_Ok in H as (n & En & H). apply rbind_Ok in H as (ms & Ems & H).
    injection H as <-. cbn [map]. rewrite (IH _ Ems). f_equal.
    unfold epoch_of_part. cbn [py_int] in En.
    destruct (int_of_str (py_strip p)); [congruence|discriminate].
Qed.

Lemma parse_epochs_Raise parts e :
  parse_epochs parts = Raise e ->
  e = ValueError /\ exists part, In part parts /\ epoch_of_part part = None.
Proof.
  induction parts as [|p parts IH]; cbn [parse_epochs]; [discriminate|].
  unfold epoch_of_part in *. cbn [py_int].
  destruct (int_of_str (py_strip p)) as [n|] eqn:En; cbn [rbind].
  - destruct (parse_epochs parts) as [ms|e'] eqn:Ems; cbn [rbind]; [discriminate|].
    intros [= <-]. destruct (IH eq_refl) as (He & part & Hin & Hp).
    split; [exact He|]. exists part. split; [right; exact Hin|exact Hp].
  - intros [= <-]. split; [reflexivity|]. exists p. split; [left; reflexivity|exact En].
Qed.

(** X10.  With the [--epochs] option (a non-empty string, and no
    [--epoch]) the selection succeeds exactly when every comma-separated
    part, blanks stripped, is an integer literal: it is then the strictly
    increasing list of the distinct integers of the parts.  Otherwise, as
    for an empty part after a trailing comma, [ValueError] is raised. *)
Theorem epochs_option_parsed (args : Args) (current_epoch : Z) (s : string) :
  arg_epoch args = None ->
  arg_epochs args = Some s ->
  s <> "" ->
  match determine_epochs_to_process args current_epoch with
  | Ok l =>
      increasing l
      /\ Forall (fun part => epoch_of_part part <> None) (split_comma s)
      /\ forall z, In z l <->
                   exists part, In part (split_comma s) /\ epoch_of_part part = Some z
  | Raise e =>
      e = ValueError
      /\ exists part, In part (split_comma s) /\ epoch_of_part part = None
  end.
Proof.
  intros He Hs Hne.
  pose proof (determine_epochs_increasing args current_epoch) as Hinc.
  unfold determine_epochs_to_process in *. rewrite He, Hs in *.
  assert (Ht : str_truthy s = true).
  { unfold str_truthy. apply negb_true_iff. apply String.eqb_neq. exact Hne. }
  rewrite Ht in *.
  destruct (parse_epochs (split_comma s)) as [ns|e] eqn:Ep.
  - apply parse_epochs_Ok in Ep. split; [apply Hinc; reflexivity|]. split.
    + apply Forall_forall. intros part Hin Hnone.
      apply (in_map epoch_of_part) in Hin. rewrite Ep, Hnone in Hin.
      apply in_map_iff in Hin as (n & Hn & _). discriminate Hn.
    + intros z. rewrite sorted_set_In. split.
      * intros Hz. apply (in_map Some) in Hz. rewrite <- Ep in Hz.
        apply in_map_iff in Hz as (part & Hp & Hin). exists part. auto.
      * intros (part & Hin & Hp). apply (in_map epoch_of_part) in Hin.
        rewrite Ep, Hp in Hin. apply in_map_iff in Hin as (n & [= ->] & Hn). exact Hn.
  - destruct (parse_epochs_Raise _ _ Ep) as [-> Hex]. split; [reflexivity|exact Hex].
Qed.

Lemma epochs_option_parsed_witness :
  determine_epochs_to_process
    {| arg_epoch := None; arg_epochs := Some "3,4,"; arg_current := false;
       arg_latest := false |} 7 = Raise ValueError
  /\ exists part, In part (split_comma "3,4,") /\ epoch_of_part part = None.
Proof.
  split; [reflexivity|].
  pose proof (epochs_option_parsed
                {| arg_epoch := None; arg_epochs := Some "3,4,"; arg_current := false;
                   arg_latest := false |} 7 "3,4," eq_refl eq_refl ltac:(discriminate))
    as H.
  change (determine_epochs_to_process _ 7) with (@Raise (list Z) ValueError) in H.
  exact (proj2 H).
Defined.

(** X11.  Without an epoch option (or with an empty [--epochs]) [main]
    processes every epoch from 1 to the current one, in order: the
    validation drops nothing. *)
Theorem default_selection_is_all_epochs (args : Args) (current_epoch : Z) :
  arg_epoch args = None ->
  opt_truthy str_truthy (arg_epochs args) = false ->
  arg_current args || arg_latest args = false ->
  main_epochs args current_epoch = Ok (py_range 1 (current_epoch + 1))
  /\ length (py_range 1 (current_epoch + 1)) = Z.to_nat current_epoch
  /\ forall e, In e (py_range 1 (current_epoch + 1)) <-> 1 <= e <= current_epoch.
Proof.
  intros He Hs Hc. split; [|split].
  - unfold main_epochs, determine_epochs_to_process. rewrite He, Hc.
    assert (Hv : validate_epochs (py_range 1 (current_epoch + 1)) current_epoch
                 = py_range 1 (current_epoch + 1)).
    { rewrite validate_epochs_filter. apply forallb_filter_id, forallb_forall.
      intros e Hin. apply py_range_In in Hin. unfold epoch_in_range.
      apply andb_true_iff. split; apply Z.leb_le; lia. }
    destruct (arg_epochs args) as [s|]; cbn [opt_truthy] in Hs;
      [rewrite Hs|]; cbn [rbind]; rewrite Hv; reflexivity.
  - unfold py_range. rewrite length_map, length_seq. f_equal. lia.
  - intros e. rewrite py_range_In. lia.
Qed.

Lemma default_selection_is_all_epochs_witness :
  main_epochs {| arg_epoch := None; arg_epochs := None; arg_current := false;
                 arg_latest := false |} 3 = Ok (py_range 1 (3 + 1))
  /\ py_range 1 (3 + 1) = [1; 2; 3].
Proof.
  split; [|reflexivity].
  apply (default_selection_is_all_epochs
           {| arg_epoch := None; arg_epochs := None; arg_current := false;
              arg_latest := false |} 3); reflexivity.
Defined.

(** ** The project registry *)

Lemma list_ascii_of_append (a b : string) :
  list_ascii_of_string (a ++ b)
  = (list_ascii_of_string a ++ list_ascii_of_string b)%list.
Proof.
  induction a as [|x a IH]; simpl; [reflexivity|].
  rewrite IH. reflexivity.
Qed.

Lemma append_inj_r (s a b : string) : a ++ s = b ++ s -> a = b.
Proof.
  intros H. apply (f_equal list_ascii_of_string) in H.
  rewrite !list_ascii_of_append in H. apply app_inv_tail in H.
  apply (f_equal string_of_list_ascii) in H.
  rewrite !string_of_list_ascii_of_string in H. exact H.
Qed.

Lemma caip10_inj repr_container chain a b x :
  _generate_caip10_address repr_container chain a = Ok x ->
  _generate_caip10_address repr_container chain b = Ok x ->
  a = b.
Proof.
  unfold _generate_caip10_address. destruct (negb (py_truthy chain)).
  - intros [= <-] [= H]. symmetry. exact (append_inj_l _ _ _ H).
  - destruct (py_get chain "chainId" (JInt 1)) as [c|e]; cbn [rbind]; [|discriminate].
    intros [= <-] [= H]. symmetry.
    apply append_inj_l, append_inj_l, append_inj_l in H. exact H.
Qed.

Lemma hdict_alter_keys {V} (f : V -> V) k d : map fst (hdict_alter f k d) = map fst d.
Proof.
  induction d as [|[k' v] d IH]; cbn [hdict_alter]; [reflexivity|].
  destruct (hashable_eqb k' k); cbn [map fst]; [reflexivity|]. rewrite IH. reflexivity.
Qed.

Lemma hdict_alter_Forall {V} (P : hashable * V -> Prop) (f : V -> V) k d :
  (forall k' v, P (k', v) -> P (k', f v)) ->
  Forall P d -> Forall P (hdict_alter f k d).
Proof.
  intros Hf. induction 1 as [|[k' v] d Hx Hd IH]; cbn [hdict_alter]; [constructor|].
  destruct (hashable_eqb k' k); constructor; auto.
Qed.

Lemma hdict_mem_notin {V} k (d : list (hashable * V)) :
  hdict_mem k d = false -> ~ In k (map fst d).
Proof.
  induction d as [|[k' v] d IH]; cbn [hdict_mem map fst In]; [auto|].
  intros H. apply orb_false_iff in H as [H1 H2]. intros [->|Hin].
  - rewrite hashable_eqb_refl in H1. discriminate H1.
  - exact (IH H2 Hin).
Qed.

Lemma participations_app a b :
  participations (a ++ b) = participations a + participations b.
Proof.
  unfold participations. rewrite map_app, fold_right_app.
  generalize (map (fun e : hashable * project =>
                     Z.of_nat (length (participatingEpochs e.2))) a) as l.
  intros l. induction l as [|x l IH]; cbn [fold_right]; lia.
Qed.

Lemma participations_alter epoch k d :
  hdict_mem k d = true ->
  participations (hdict_alter (add_epoch epoch) k d) = participations d + 1.
Proof.
  induction d as [|[k' p] d IH]; cbn [hdict_mem hdict_alter]; [discriminate|].
  destruct (hashable_eqb k' k); cbn [orb].
  - intros _. unfold participations. cbn [map fold_right snd add_epoch participatingEpochs].
    rewrite length_app. cbn [length]. lia.
  - intros H. specialize (IH H). unfold participations in *.
    cbn [map fold_right]. rewrite IH. lia.
Qed.

Section RegistryProperties.
Context {rate : Type} (repr_container : json -> string)
  (config : OctantConfig) (env : @environment rate).

Lemma register_address_cases chain epoch cid dm pa a pa' :
  register_address repr_container chain epoch cid dm pa a = Ok pa' ->
  exists key, py_hash a = Ok key
    /\ ((hdict_mem key pa = true /\ pa' = hdict_alter (add_epoch epoch) key pa)
        \/ (hdict_mem key pa = false
            /\ exists s caip p, key = HStr s
                 /\ _generate_caip10_address repr_container chain s = Ok caip
                 /\ project_id p = caip ++ "?proposalId=1"
                 /\ participatingEpochs p = [epoch]
                 /\ relevantTo p = [pool_name_of epoch]
                 /\ pa' = (pa ++ [(key, p)])%list)).
Proof.
  unfold register_address. intros H. apply rbind_Ok in H as (key & Ek & H).
  exists key. split; [exact Ek|].
  destruct (hdict_mem key pa); cbn [negb] in H.
  - left. injection H as <-. auto.
  - right. split; [reflexivity|].
    apply rbind_Ok in H as (caip & Ec & H). apply rbind_Ok in H as (x & _ & H).
    apply rbind_Ok in H as (short & Es & H). apply rbind_Ok in H as (name & _ & H).
    cbv zeta in H. injection H as <-.
    destruct key as [| | |s]; try discriminate Es.
    exists s, caip. eexists. split; [reflexivity|]. split; [exact Ec|].
    cbn. repeat split; reflexivity.
Qed.

Lemma register_address_invariant chain epochs epoch cid dm pa a pa' :
  In epoch epochs ->
  registry_invariant repr_container chain epochs pa ->
  register_address repr_container chain epoch cid dm pa a = Ok pa' ->
  registry_invariant repr_container chain epochs pa'.
Proof.
  intros Hin [Hnd Hall] H.
  apply register_address_cases in H
    as (key & _ & [[_ ->]|(Hm & s & caip & p & -> & Ec & Hid & Hpe & Hre & ->)]).
  - split; [rewrite hdict_alter_keys; exact Hnd|].
    apply hdict_alter_Forall; [|exact Hall].
    intros k' v (s & Hk & caip & Hc & Hid & Hne & Hfa & Hre).
    exists s. split; [exact Hk|]. exists caip. cbn [snd add_epoch project_id
      participatingEpochs relevantTo] in *.
    split; [exact Hc|]. split; [exact Hid|]. split.
    + destruct (participatingEpochs v); discriminate.
    + split; [apply Forall_app; split; [exact Hfa|constructor; [exact Hin|constructor]]|].
      rewrite map_app, Hre. reflexivity.
  - split.
    + rewrite map_app. apply list.NoDup_app. split; [exact Hnd|]. split.
      * intros x Hx Hx'. cbn [map fst] in Hx'. apply list_elem_of_singleton in Hx'.
        subst x. apply list_elem_of_In in Hx. exact (hdict_mem_notin _ _ Hm Hx).
      * apply NoDup_singleton.
    + apply Forall_app. split; [exact Hall|]. constructor; [|constructor].
      exists s. split; [reflexivity|]. exists caip. cbn [snd].
      rewrite Hpe, Hre. split; [exact Ec|]. split; [exact Hid|].
      split; [discriminate|]. split; [constructor; [exact Hin|constructor]|reflexivity].
Qed.

Lemma register_addresses_invariant chain epochs epoch cid dm addresses :
  In epoch epochs ->
  forall pa pa',
    registry_invariant repr_container chain epochs pa ->
    register_addresses repr_container chain epoch cid dm addresses pa = Ok pa' ->
    registry_invariant repr_container chain epochs pa'.
Proof.
  intros Hin. induction addresses as [|a addresses IH]; intros pa pa' Hinv H;
    cbn [register_addresses] in H.
  - injection H as <-. exact Hinv.
  - apply rbind_Ok in H as (pa1 & E1 & H).
    exact (IH _ _ (register_address_invariant _ _ _ _ _ _ _ _ Hin Hinv E1) H).
Qed.

Lemma make_request_keeps_chain endpoint allow (st : state) :
  chain_info (snd (_make_request config env endpoint allow st)) = chain_info st.
Proof.
  unfold _make_request.
  apply (respects_request_loop config env
           (fun st st' : state => chain_info st' = chain_info st));
    [reflexivity|intros a b c; congruence|reflexivity].
Qed.

Lemma projects_of_epoch_invariant epochs epoch pa (st : state) pa' st' :
  In epoch epochs ->
  registry_invariant repr_container (chain_info st) epochs pa ->
  projects_of_epoch repr_container config env epoch pa st = (Ok pa', st') ->
  registry_invariant repr_container (chain_info st) epochs pa' /\ chain_info st' = chain_info st.
Proof.
  intros Hin Hinv H. unfold projects_of_epoch in H.
  apply mbindM_Ok in H as (pd & st1 & E1 & H).
  pose proof (make_request_keeps_chain ("/projects/epoch/" ++ str_of_int epoch) false st)
    as C1.
  unfold get_projects_for_epoch in E1. rewrite E1 in C1. cbn [snd] in C1.
  destruct (negb (py_truthy pd)).
  - injection H as <- <-. split; [exact Hinv|exact C1].
  - apply mbindM_Ok in H as (addrs & s2 & E2 & H). apply lift_Ok in E2 as [E2 ->].
    apply mbindM_Ok in H as (cid & s3 & E3 & H). apply lift_Ok in E3 as [E3 ->].
    apply mbindM_Ok in H as (details & st2 & E4 & H).
    pose proof (make_request_keeps_chain
                  ("/projects/details?epochs=" ++ join_comma (map str_of_int [epoch])
                   ++ "&searchPhrases=") false st1) as C2.
    unfold get_project_details in E4. rewrite E4 in C2. cbn [snd] in C2.
    apply mbindM_Ok in H as (dm & s5 & E5 & H). apply lift_Ok in E5 as [E5 ->].
    apply mbindM_Ok in H as (l & s6 & E6 & H). apply lift_Ok in E6 as [E6 ->].
    apply mbindM_Ok in H as (s7 & s8 & E7 & H). unfold get_state in E7.
    injection E7 as <- <-. apply lift_Ok in H as [H ->].
    rewrite C2, C1 in H. split; [|congruence].
    exact (register_addresses_invariant _ _ _ _ _ _ Hin _ _ Hinv H).
Qed.

Lemma collect_projects_invariant epochs rest : forall pa (st : state) pa' st',
  (forall e, In e rest -> In e epochs) ->
  registry_invariant repr_container (chain_info st) epochs pa ->
  collect_projects repr_container config env rest pa st = (Ok pa', st') ->
  registry_invariant repr_container (chain_info st) epochs pa'.
Proof.
  induction rest as [|epoch rest IH]; intros pa st pa' st' Hsub Hinv H;
    cbn [collect_projects] in H.
  - injection H as <- _. exact Hinv.
  - apply mbindM_Ok in H as (pa1 & st1 & E1 & H).
    destruct (projects_of_epoch_invariant epochs epoch pa st pa1 st1) as [Hinv1 Hci];
      [apply Hsub; left; reflexivity|exact Hinv|exact E1|].
    rewrite <- Hci in Hinv1 |- *.
    apply (IH _ _ _ _ (fun e He => Hsub e (or_intror He)) Hinv1 H).
Qed.

(** X12.  In the registry returned by [generate_projects] every project
    stands for one string address, its id is the CAIP-10 form of that
    address followed by ["?proposalId=1"], and no two projects share an id.
    Every project took part in at least one of the epochs processed,
    [relevantTo] names the pools of [participatingEpochs] in the same
    order, and the two counts reported are the number of projects and the
    number of their participations. *)
Theorem projects_registry_wellformed (epochs : list Z) (st : state) reg st' :
  generate_projects repr_container config env epochs st = (Ok reg, st') ->
  NoDup (map project_id (projects reg))
  /\ Forall (fun p => exists address,
               registered repr_container (chain_info st) epochs address p)
       (projects reg)
  /\ total_projects reg = Z.of_nat (length (projects reg))
  /\ total_project_epoch_participations reg = participations_of (projects reg).
Proof.
  unfold generate_projects. intros H. apply mbindM_Ok in H as (pa & st1 & E & H).
  injection H as <- _. cbn [projects total_projects total_project_epoch_participations].
  destruct (collect_projects_invariant epochs epochs [] st pa st1) as [Hnd Hall];
    [auto|split; constructor|exact E|].
  split; [|split; [|split]].
  - clear E. induction pa as [|[k p] pa IH]; cbn [map fst snd] in *; [constructor|].
    apply list.NoDup_cons in Hnd as [Hk Hnd].
    apply Forall_cons_iff in Hall as [(s & Hs & caip & Hc & Hid & _) Hall].
    cbn [fst snd] in Hs, Hid. subst k.
    apply list.NoDup_cons. split; [|exact (IH Hnd Hall)].
    intros Hin. apply Hk. apply list_elem_of_In in Hin. apply list_elem_of_In.
    apply in_map_iff in Hin as (p' & Hp' & Hin).
    apply in_map_iff in Hin as ([k' p''] & Hk' & Hin). cbn [snd] in Hk'. subst p''.
    rewrite Forall_forall in Hall.
    destruct (Hall _ Hin) as (s' & Hs' & caip' & Hc' & Hid' & _).
    cbn [fst snd] in Hs', Hid'. subst k'.
    rewrite Hid, Hid' in Hp'. apply append_inj_r in Hp'. subst caip'.
    rewrite (caip10_inj _ _ _ _ _ Hc Hc').
    apply (in_map fst) in Hin. exact Hin.
  - apply Forall_forall. intros p Hp. apply in_map_iff in Hp as ([k p'] & <- & Hin).
    rewrite Forall_forall in Hall. destruct (Hall _ Hin) as (s & _ & Hr).
    exists s. exact Hr.
  - rewrite length_map. reflexivity.
  - unfold participations, participations_of, sum_list. rewrite map_map. reflexivity.
Qed.

(** X13.  The loop over the addresses listed for one epoch records one
    participation per listed address, also for an address listed twice;
    it keeps the projects there are in their place and adds the new ones
    after them, at most one per address. *)
Theorem addresses_registered_one_by_one chain epoch cid dm addresses :
  forall pa pa',
    register_addresses repr_container chain epoch cid dm addresses pa = Ok pa' ->
    participations pa' = participations pa + Z.of_nat (length addresses)
    /\ (exists new, map fst pa' = (map fst pa ++ new)%list
                    /\ (length new <= length addresses)%nat).
Proof.
  induction addresses as [|a addresses IH]; intros pa pa' H;
    cbn [register_addresses] in H.
  - injection H as <-. split; [cbn; lia|]. exists []. rewrite app_nil_r.
    split; [reflexivity|cbn; lia].
  - apply rbind_Ok in H as (pa1 & E1 & H).
    destruct (IH _ _ H) as (Hp & new & Hk & Hlen).
    apply register_address_cases in E1
      as (key & _ & [[Hm ->]|(Hm & s & caip & p & -> & _ & _ & Hpe & _ & ->)]).
    + rewrite participations_alter in Hp by exact Hm.
      rewrite hdict_alter_keys in Hk.
      split; [cbn [length]; lia|]. exists new. split; [exact Hk|cbn [length]; lia].
    + assert (H1 : participations [(HStr s, p)] = 1)
        by (unfold participations; cbn [map fold_right snd]; rewrite Hpe; reflexivity).
      rewrite participations_app, H1 in Hp.
      split; [cbn [length]; lia|].
      exists ((HStr s) :: new). rewrite Hk, map_app, <- app_assoc.
      split; [reflexivity|cbn [length]; lia].
Qed.

End RegistryProperties.

Lemma projects_registry_wellformed_witness :
  exists reg st',
    generate_projects repr_unused OctantConfig_default env_two_projects [1; 2]
      state_initial = (Ok reg, st')
    /\ map participatingEpochs (projects reg) = [[1; 2]; [1; 2]]
    /\ NoDup (map project_id (projects reg))
    /\ total_project_epoch_participations reg = participations_of (projects reg).
Proof.
  assert (E : { r & { s : @state Z |
                generate_projects repr_unused OctantConfig_default env_two_projects
                  [1; 2] state_initial = (Ok r, s) } }).
  { eexists. eexists. vm_compute. reflexivity. }
  destruct E as (reg & st' & E).
  destruct (projects_registry_wellformed repr_unused OctantConfig_default
              env_two_projects [1; 2] state_initial reg st' E) as (H1 & _ & _ & H2).
  exists reg, st'. split; [exact E|]. split; [|split; [exact H1|exact H2]].
  revert E. vm_compute. intros [= <- _]. reflexivity.
Defined.

Lemma addresses_registered_one_by_one_witness :
  exists pa',
    register_addresses repr_unused JNull 3 JNull [] addresses_with_repeat [] = Ok pa'
    /\ participations pa' = 3
    /\ map (fun e => participatingEpochs e.2) pa' = [[3; 3]; [3]].
Proof.
  assert (E : { pa' | register_addresses repr_unused JNull 3 JNull []
                        addresses_with_repeat [] = Ok pa' }).
  { eexists. vm_compute. reflexivity. }
  destruct E as (pa' & E).
  destruct (addresses_registered_one_by_one repr_unused JNull 3 JNull []
              addresses_with_repeat [] pa' E) as (H1 & _).
  exists pa'. split; [exact E|]. split; [exact H1|].
  revert E. vm_compute. intros [= <-]. reflexivity.
Defined.

(** ** The grant pools *)

Lemma calculate_epoch_dates_Ok epoch start_date end_date :
  _calculate_epoch_dates epoch = Ok (start_date, end_date) ->
  start_date = epoch_0_start + 90 * epoch
  /\ end_date = epoch_0_start + 90 * (epoch + 1)
  /\ 1 <= start_date /\ end_date <= 3652059.
Proof.
  unfold _calculate_epoch_dates, timedelta_days, datetime_add. cbv zeta.
  destruct ((-999999999 <=? epoch * 90) && (epoch * 90 <=? 999999999));
    cbn [rbind]; [|discriminate].
  destruct ((1 <=? epoch_0_start + epoch * 90) && (epoch_0_start + epoch * 90 <=? 3652059))
    eqn:E1; cbn [rbind]; [|discriminate].
  change ((-999999999 <=? 90) && (90 <=? 999999999)) with true. cbn [rbind].
  destruct ((1 <=? epoch_0_start + epoch * 90 + 90)
            && (epoch_0_start + epoch * 90 + 90 <=? 3652059)) eqn:E2;
    cbn [rbind]; [|discriminate].
  intros [= <- <-]. apply andb_true_iff in E1 as [A1 A2], E2 as [B1 B2].
  apply Z.leb_le in A1, A2, B1, B2. lia.
Qed.

Section GrantPoolsProperties.
Context {rate : Type} (rate_truthy : rate -> bool)
  (usd_format : Z -> rate -> result string) (repr_container : json -> string)
  (isoformat : Z -> string) (config : OctantConfig) (env env' : @environment rate).

Ltac bind_inv H x E :=
  let st1 := fresh "st" in
  apply mbindM_Ok in H as (x & st1 & E & H).

Ltac lift_inv H x E :=
  bind_inv H x E; apply lift_Ok in E as [E ->].

Lemma grant_pool_of_epoch_inv epoch (st : state) o st' :
  grant_pool_of_epoch repr_container isoformat config env epoch st = (Ok o, st') ->
  chain_info st' = chain_info st
  /\ forall pool, o = Some pool ->
       pool_of_epoch repr_container isoformat (chain_info st) epoch pool.
Proof.
  unfold grant_pool_of_epoch. intros H.
  bind_inv H info E1. bind_inv H status0 E2.
  pose proof (make_request_keeps_chain config env ("/epochs/info/" ++ str_of_int epoch)
                false st) as C1.
  unfold get_epoch_info in E1. rewrite E1 in C1. cbn [snd] in C1.
  pose proof (make_request_keeps_chain config env
                ("/snapshots/status/" ++ str_of_int epoch) false st0) as C2.
  unfold get_epoch_status in E2. rewrite E2 in C2. cbn [snd] in C2.
  destruct (negb (py_truthy info) || negb (py_truthy status0)).
  - injection H as <- <-. split; [congruence|discriminate].
  - lift_inv H dates Ed. bind_inv H st2 Eg. unfold get_state in Eg.
    injection Eg as <- <-.
    lift_inv H addr Ea. lift_inv H cur Ec. lift_inv H tot Et. lift_inv H mdata Em.
    injection H as <- <-. split; [congruence|].
    intros pool [= <-]. destruct dates as [start_date end_date].
    apply calculate_epoch_dates_Ok in Ed as (-> & -> & Hlo & Hhi).
    exists addr. rewrite C2, C1 in Ea. cbn. repeat split; assumption || reflexivity.
Qed.

Lemma collect_grant_pools_inv epochs : forall (st : state) pools st',
  collect_grant_pools repr_container isoformat config env epochs st = (Ok pools, st') ->
  exists kept, sublist kept epochs
    /\ Forall2 (pool_of_epoch repr_container isoformat (chain_info st)) kept pools.
Proof.
  induction epochs as [|epoch rest IH]; intros st pools st' H;
    cbn [collect_grant_pools] in H.
  - injection H as <- _. exists []. split; constructor.
  - bind_inv H o E1. bind_inv H ps E2. injection H as <- _.
    destruct (grant_pool_of_epoch_inv _ _ _ _ E1) as [Hci Hp].
    destruct (IH _ _ _ E2) as (kept & Hsub & Hall). rewrite Hci in Hall.
    destruct o as [p|].
    + exists (epoch :: kept). split; [apply sublist_skip, Hsub|].
      constructor; [apply Hp; reflexivity|exact Hall].
    + exists kept. split; [apply sublist_cons, Hsub|exact Hall].
Qed.


Lemma generate_from_apps_identified epoch ad rd md (st : state) apool st' :
  generate_applications_from rate_truthy usd_format repr_container env' epoch ad rd md st
  = (Ok apool, st') ->
  forall app, In app (applications apool) ->
    exists n k, identified_as repr_container (chain_info st) epoch n k app.
Proof.
  unfold generate_applications_from. intros H. lift_inv H es Ees. cbv zeta in H.
  destruct (epoch_state_inv _ _ _ _ Ees) as [->|[->|(-> & Hrd & Hmd)]];
    cbn [fst snd negb] in H.
  - lift_inv H has Ehas. injection H as <- _. intros app [].
  - lift_inv H has Ehas. injection H as <- _. intros app [].
  - lift_inv H allocs Ea. lift_inv H l El. lift_inv H pa Epa.
    bind_inv H apps Eapps. injection H as <- _. cbn [applications].
    destruct (create_applications_ids _ _ _ _ _ _ _ _ _ _ _ _ Eapps) as [Hlen Hids].
    intros app Hin. apply list_elem_of_In, list_elem_of_lookup in Hin as [i Hi].
    destruct (lookup_lt_is_Some_2 pa i) as [e He].
    { rewrite <- Hlen. eapply lookup_lt_Some, Hi. }
    exists (1 + Z.of_nat i), e.1. exact (Hids i e app He Hi).
Qed.

(** X15.  The applications of an epoch refer to the grant pool of that
    epoch: with the same chain metadata, a pool of the grant pools document
    that bears the pool name of an application bears its pool id, and
    names the file of this epoch as the file of its applications. *)
Theorem application_refers_to_its_pool (epochs : list Z) (st : state) doc st1
    epoch ad rd md (st2 : state) apool st3 :
  generate_grant_pools repr_container isoformat config env epochs st = (Ok doc, st1) ->
  generate_applications_from rate_truthy usd_format repr_container env' epoch ad rd md st2
  = (Ok apool, st3) ->
  chain_info st2 = chain_info st ->
  forall app pool,
    In app (applications apool) -> In pool (grantPools doc) ->
    gp_name pool = grantPoolName app ->
    gp_id pool = grantPoolId app
    /\ applicationsURI pool = "./applications_epoch_" ++ str_of_int epoch ++ ".json".
Proof.
  intros Hpools Happs Hci app pool Hin Hpin Hname.
  destruct (generate_from_apps_identified _ _ _ _ _ _ _ Happs app Hin)
    as (n & k & addr & caip & s & Ha & _ & _ & _ & Hpid & Hpname & _).
  unfold generate_grant_pools in Hpools. bind_inv Hpools pools E.
  injection Hpools as <- _. cbn [grantPools] in Hpin.
  destruct (collect_grant_pools_inv _ _ _ _ E) as (kept & _ & Hall).
  assert (Hex : exists e, pool_of_epoch repr_container isoformat (chain_info st) e pool).
  { clear E. induction Hall as [|e p kept pools Hp _ IH]; [destruct Hpin|].
    destruct Hpin as [->|Hpin]; [exists e; exact Hp|exact (IH Hpin)]. }
  destruct Hex as (e & addr' & Ha' & Hgid & Hgname & Huri & _).
  rewrite Hci, Ha' in Ha. injection Ha as ->.
  rewrite Hgname, Hpname in Hname. unfold pool_name_of in Hname.
  apply append_inj_l, str_of_int_inj in Hname. subst e.
  split; [rewrite Hgid, Hpid; reflexivity|exact Huri].
Qed.

End GrantPoolsProperties.


Lemma application_refers_to_its_pool_witness :
  exists doc st1 apool st3,
    generate_grant_pools repr_unused isoformat_ordinal OctantConfig_default env_epoch_info
      [6; 7] state_initial = (Ok doc, st1)
    /\ scenario_C_run = (Ok apool, st3)
    /\ forall app pool,
         In app (applications apool) -> In pool (grantPools doc) ->
         gp_name pool = grantPoolName app ->
         gp_id pool = grantPoolId app
         /\ applicationsURI pool = "./applications_epoch_" ++ str_of_int 7 ++ ".json".
Proof.
  assert (E : { d & { s : @state Z |
                generate_grant_pools repr_unused isoformat_ordinal OctantConfig_default
                  env_epoch_info [6; 7] state_initial = (Ok d, s) } }).
  { eexists. eexists. vm_compute. reflexivity. }
  destruct E as (doc & st1 & E).
  assert (E' : { p & { s : @state Z | scenario_C_run = (Ok p, s) } }).
  { eexists. eexists. vm_compute. reflexivity. }
  destruct E' as (apool & st3 & E').
  exists doc, st1, apool, st3. split; [exact E|]. split; [exact E'|].
  exact (application_refers_to_its_pool rate_nonzero usd_format_exact repr_unused
           isoformat_ordinal OctantConfig_default env_epoch_info env_2000 [6; 7]
           state_initial doc st1 7 scenario_C_allocations scenario_C_rewards
           scenario_C_merkle state_initial apool st3 E E' eq_refl).
Defined.

(** ** Giveth: the pagination of [fetch_projects] *)

Lemma truthy_iter_nonempty v l : py_truthy v = true -> py_iter v = Ok l -> l <> [].
Proof.
  destruct v as [| | |s|l0|kv]; cbn [py_truthy py_iter]; try discriminate.
  - destruct s; [discriminate|]. intros _ [= <-]. discriminate.
  - destruct l0; [discriminate|]. intros _ [= <-]. discriminate.
  - destruct kv; [discriminate|]. intros _ [= <-]. discriminate.
Qed.

Lemma slice_to_length {A} (l : list A) n :
  0 <= n -> Z.of_nat (length (slice_to l n)) <= n.
Proof.
  intros Hn. unfold slice_to. destruct (0 <=? n) eqn:E; [|apply Z.leb_gt in E; lia].
  rewrite length_firstn. lia.
Qed.

Section GivethFetchProperties.
Variable config : GivethToDaoip5Config.
Variable post : list page_query -> page_query -> graphql_response.

Abbreviation loop := (fetch_projects_loop config post).

(** With a positive limit the loop stops before the projects at hand
    reach it, however the server answers. *)
Lemma fetch_loop_within_limit n (P : page_query -> Prop) :
  0 < n ->
  (forall q, q_limit q <= n
             /\ (0 < chunk_size config -> 1 <= q_limit q <= chunk_size config) -> P q) ->
  forall fuel all_projects skip qs,
    Z.of_nat (length all_projects) < n ->
    n - Z.of_nat (length all_projects) <= Z.of_nat fuel ->
    Forall P qs ->
    exists r qs',
      loop fuel (Some n) all_projects skip qs = Some (r, qs')
      /\ Z.of_nat (length qs') <= Z.of_nat (length qs) + (n - Z.of_nat (length all_projects))
      /\ (forall l, r = Returns l -> Z.of_nat (length l) <= n)
      /\ Forall P qs'.
Proof.
  intros Hn HP. induction fuel as [|fuel IH]; intros all_projects skip qs Hlt Hfuel HPqs;
    [lia|].
  cbn [fetch_projects_loop]. cbv zeta.
  assert (Hset : limit_set (Some n) = true)
    by (cbn; apply negb_true_iff, Z.eqb_neq; lia).
  rewrite Hset. cbn [limit_value andb].
  destruct (chunk_size config =? 0) eqn:Ec.
  { exists (Raises ZeroDivisionError), qs. split; [reflexivity|].
    split; [lia|]. split; [discriminate|exact HPqs]. }
  apply Z.eqb_neq in Ec.
  set (q := {| q_limit := Z.min (chunk_size config) (n - Z.of_nat (length all_projects));
               q_skip := skip |}).
  assert (HPq : Forall P (qs ++ [q])).
  { apply Forall_app. split; [exact HPqs|]. constructor; [|constructor].
    apply HP. unfold q. cbn [q_limit]. lia. }
  assert (Hlen : Z.of_nat (length (qs ++ [q]))
                 <= Z.of_nat (length qs) + (n - Z.of_nat (length all_projects))).
  { rewrite length_app. cbn [length]. lia. }
  destruct (execute_graphql_query (post qs q)) as [data|e].
  2:{ eexists _, _. split; [reflexivity|]. split; [exact Hlen|].
      split; [discriminate|exact HPq]. }
  destruct (page <- py_get data "allProjects" (JObj []); py_get page "projects" (JList []))
    as [projects|e].
  2:{ eexists _, _. split; [reflexivity|]. split; [exact Hlen|].
      split; [discriminate|exact HPq]. }
  destruct (py_truthy projects) eqn:Et; cbn [negb].
  2:{ eexists _, _. split; [reflexivity|]. split; [exact Hlen|].
      split; [intros l [= <-]; lia|exact HPq]. }
  destruct (py_iter projects) as [batch|e] eqn:Ei.
  2:{ eexists _, _. split; [reflexivity|]. split; [exact Hlen|].
      split; [discriminate|exact HPq]. }
  pose proof (truthy_iter_nonempty _ _ Et Ei) as Hne.
  assert (Hb : (0 < length batch)%nat) by (destruct batch; [congruence|cbn; lia]).
  destruct (n <=? Z.of_nat (length (all_projects ++ batch))) eqn:El.
  { eexists _, _. split; [reflexivity|]. split; [exact Hlen|].
    split; [intros l [= <-]; apply slice_to_length; lia|exact HPq]. }
  apply Z.leb_gt in El.
  destruct (Z.of_nat (length batch) <? chunk_size config).
  { eexists _, _. split; [reflexivity|]. split; [exact Hlen|].
    split; [intros l [= <-]; lia|exact HPq]. }
  rewrite length_app in El.
  destruct (IH (all_projects ++ batch)%list (skip + Z.of_nat (length batch)) (qs ++ [q])%list)
    as (r & qs' & E & Hl & Hr & HPq'); [rewrite length_app; lia|rewrite length_app; lia
                                        |exact HPq|].
  exists r, qs'. split; [exact E|]. rewrite !length_app in Hl. cbn [length] in Hl.
  split; [lia|]. split; [exact Hr|exact HPq'].
Qed.

(** X16.  With a positive limit [n], [fetch_projects] ends after at most
    [n] queries, however the server answers: it returns or raises, and a
    list it returns has at most [n] projects.  No query asks for more than
    [n] projects, nor, with a positive chunk size, for less than one or
    more than a chunk. *)
Theorem fetch_projects_within_limit (n : Z) (fuel : nat) :
  0 < n ->
  n <= Z.of_nat fuel ->
  exists r qs,
    fetch_projects config post fuel (Some n) = Some (r, qs)
    /\ Z.of_nat (length qs) <= n
    /\ (forall l, r = Returns l -> Z.of_nat (length l) <= n)
    /\ Forall (fun q => q_limit q <= n
                        /\ (0 < chunk_size config -> 1 <= q_limit q <= chunk_size config))
         qs.
Proof.
  intros Hn Hfuel. unfold fetch_projects.
  destruct (fetch_loop_within_limit n
              (fun q => q_limit q <= n
                        /\ (0 < chunk_size config -> 1 <= q_limit q <= chunk_size config))
              Hn (fun q H => H) fuel [] 0 [])
    as (r & qs & E & Hl & Hr & HP); [cbn; lia|cbn; lia|constructor|].
  exists r, qs. cbn [length] in Hl. split; [exact E|]. split; [lia|].
  split; [exact Hr|exact HP].
Qed.

Lemma fetch_loop_delivers limit : forall fuel all_projects skip qs l qs',
  loop fuel limit all_projects skip qs = Some (Returns l, qs') ->
  exists new,
    qs' = (qs ++ new)%list
    /\ skips_follow post qs skip new
    /\ Forall (fun q => q_limit q
                        = if limit_set limit
                          then Z.min (chunk_size config)
                                 (limit_value limit
                                  - (Z.of_nat (length all_projects) + (q_skip q - skip)))
                          else chunk_size config) new
    /\ (l = (all_projects ++ delivered post qs new)%list
        \/ (limit_set limit = true
            /\ l = slice_to (all_projects ++ delivered post qs new) (limit_value limit))).
Proof.
  induction fuel as [|fuel IH]; intros all_projects skip qs l qs' H; [discriminate|].
  cbn [fetch_projects_loop] in H. cbv zeta in H.
  destruct (chunk_size config =? 0); [discriminate|].
  set (q := {| q_limit := if limit_set limit
                          then Z.min (chunk_size config)
                                 (limit_value limit - Z.of_nat (length all_projects))
                          else chunk_size config;
               q_skip := skip |}) in *.
  assert (Hq : q_limit q
               = if limit_set limit
                 then Z.min (chunk_size config)
                        (limit_value limit
                         - (Z.of_nat (length all_projects) + (q_skip q - skip)))
                 else chunk_size config).
  { unfold q. cbn [q_limit q_skip]. destruct (limit_set limit); [|reflexivity].
    f_equal. lia. }
  assert (Hpage := eq_refl (page_delivered post qs q)).
  unfold page_delivered at 2 in Hpage.
  destruct (execute_graphql_query (post qs q)) as [data|e]; [|discriminate].
  destruct (page <- py_get data "allProjects" (JObj []); py_get page "projects" (JList []))
    as [projects|e]; [|discriminate].
  destruct (py_truthy projects) eqn:Et; cbn [negb] in H.
  2:{ injection H as <- <-. exists [q]. split; [reflexivity|].
      cbn [skips_follow delivered]. rewrite Hpage. cbn [app]. rewrite app_nil_r.
      split; [split; [reflexivity|exact I]|]. split; [constructor; [exact Hq|constructor]|].
      left. reflexivity. }
  destruct (py_iter projects) as [batch|e] eqn:Ei; [|discriminate].
  destruct (limit_set limit
            && (limit_value limit <=? Z.of_nat (length (all_projects ++ batch)))) eqn:El.
  { injection H as <- <-. exists [q]. split; [reflexivity|].
    cbn [skips_follow delivered]. rewrite Hpage, !app_nil_r.
    split; [split; [reflexivity|exact I]|]. split; [constructor; [exact Hq|constructor]|].
    right. apply andb_true_iff in El as [El _]. split; [exact El|reflexivity]. }
  destruct (Z.of_nat (length batch) <? chunk_size config).
  { injection H as <- <-. exists [q]. split; [reflexivity|].
    cbn [skips_follow delivered]. rewrite Hpage, !app_nil_r.
    split; [split; [reflexivity|exact I]|]. split; [constructor; [exact Hq|constructor]|].
    left. reflexivity. }
  destruct (IH _ _ _ _ _ H) as (new & -> & Hsk & Hlim & Hl).
  exists (q :: new). rewrite <- app_assoc. split; [reflexivity|].
  cbn [skips_follow delivered]. rewrite Hpage.
  split; [split; [reflexivity|exact Hsk]|]. split.
  - constructor; [exact Hq|]. revert Hlim. apply Forall_impl. intros q' ->.
    destruct (limit_set limit); [|reflexivity]. rewrite length_app. f_equal. lia.
  - rewrite <- app_assoc in Hl. exact Hl.
Qed.

(** X17.  What [fetch_projects] returns is what its queries delivered, in
    order, nothing dropped and nothing repeated by the loop itself, cut at
    the limit when there is one; and every query skips exactly the number
    of projects the queries before it delivered. *)
Theorem fetch_projects_returns_what_was_delivered (fuel : nat) (limit : option Z) l qs :
  fetch_projects config post fuel limit = Some (Returns l, qs) ->
  skips_follow post [] 0 qs
  /\ (l = delivered post [] qs
      \/ (limit_set limit = true /\ l = slice_to (delivered post [] qs) (limit_value limit)))
  /\ (limit_set limit = false -> l = delivered post [] qs
                                 /\ Forall (fun q => q_limit q = chunk_size config) qs).
Proof.
  unfold fetch_projects. intros H.
  destruct (fetch_loop_delivers _ _ _ _ _ _ _ H) as (new & -> & Hsk & Hlim & Hl).
  cbn [app] in *. split; [exact Hsk|]. split; [exact Hl|].
  intros Hf. rewrite Hf in Hlim. split; [|exact Hlim].
  destruct Hl as [Hl|[Ht _]]; [exact Hl|congruence].
Qed.

(** X18.  A limit of 0 is no limit: [fetch_projects(limit=0)] fetches what
    [fetch_projects()] fetches.  With a negative limit [n] and a first
    page that delivers projects, the loop stops after that page and returns
    it without its last [-n] projects. *)
Theorem fetch_projects_limit_edge_cases (fuel : nat) :
  fetch_projects config post fuel (Some 0) = fetch_projects config post fuel None
  /\ forall n batch,
       n < 0 -> chunk_size config <> 0 -> batch <> [] ->
       page_delivered post []
         {| q_limit := Z.min (chunk_size config) n; q_skip := 0 |} = batch ->
       fetch_projects config post (S fuel) (Some n)
       = Some (Returns (firstn (length batch - Z.to_nat (- n)) batch),
               [{| q_limit := Z.min (chunk_size config) n; q_skip := 0 |}]).
Proof.
  split.
  - unfold fetch_projects.
    assert (Hloop : forall qs skip all_projects,
              loop fuel (Some 0) all_projects skip qs = loop fuel None all_projects skip qs);
      [|apply Hloop].
    induction fuel as [|fuel IH]; intros qs skip all_projects; [reflexivity|].
    cbn [fetch_projects_loop limit_set limit_value Z.eqb negb andb]. cbv zeta.
    destruct (chunk_size config =? 0); [reflexivity|].
    destruct (execute_graphql_query _) as [data|e]; [|reflexivity].
    destruct (page <- py_get data "allProjects" (JObj []); py_get page "projects" (JList []))
      as [projects|e]; [|reflexivity].
    destruct (negb (py_truthy projects)); [reflexivity|].
    destruct (py_iter projects) as [batch|e]; [|reflexivity].
    destruct (Z.of_nat (length batch) <? chunk_size config); [reflexivity|].
    apply IH.
  - intros n batch Hn Hc Hne Hpage. unfold fetch_projects.
    cbn [fetch_projects_loop]. cbv zeta.
    assert (Hset : limit_set (Some n) = true)
      by (cbn; apply negb_true_iff, Z.eqb_neq; lia).
    rewrite Hset. cbn [limit_value length andb app]. rewrite Z.sub_0_r.
    apply Z.eqb_neq in Hc. rewrite Hc.
    unfold page_delivered in Hpage.
    destruct (execute_graphql_query _) as [data|e]; [|congruence].
    destruct (page <- py_get data "allProjects" (JObj []); py_get page "projects" (JList []))
      as [projects|e]; [|congruence].
    destruct (py_truthy projects); [|congruence]. cbn [negb].
    destruct (py_iter projects) as [b|e]; [|congruence]. subst b.
    assert (Hle : (n <=? Z.of_nat (length batch)) = true) by (apply Z.leb_le; lia).
    rewrite Hle. unfold slice_to.
    assert (Hneg : (0 <=? n) = false) by (apply Z.leb_gt; lia).
    rewrite Hneg. reflexivity.
Qed.

End GivethFetchProperties.

Lemma fetch_projects_within_limit_witness :
  exists r qs,
    fetch_projects config_chunk_3 post_seven 5 (Some 5) = Some (r, qs)
    /\ Z.of_nat (length qs) <= 5
    /\ (forall l, r = Returns l -> Z.of_nat (length l) <= 5)
    /\ Forall (fun q => q_limit q <= 5
                        /\ (0 < chunk_size config_chunk_3 ->
                            1 <= q_limit q <= chunk_size config_chunk_3)) qs.
Proof.
  apply (fetch_projects_within_limit config_chunk_3 post_seven 5 5); lia.
Defined.

Lemma fetch_projects_returns_what_was_delivered_witness :
  fetch_projects config_chunk_3 post_seven 10 None
  = Some (Returns seven_projects,
          [{| q_limit := 3; q_skip := 0 |}; {| q_limit := 3; q_skip := 3 |};
           {| q_limit := 3; q_skip := 6 |}])
  /\ skips_follow post_seven [] 0
       [{| q_limit := 3; q_skip := 0 |}; {| q_limit := 3; q_skip := 3 |};
        {| q_limit := 3; q_skip := 6 |}].
Proof.
  split; [reflexivity|].
  exact (proj1 (fetch_projects_returns_what_was_delivered config_chunk_3 post_seven 10
                  None seven_projects
                  [{| q_limit := 3; q_skip := 0 |}; {| q_limit := 3; q_skip := 3 |};
                   {| q_limit := 3; q_skip := 6 |}] eq_refl)).
Defined.

Lemma fetch_projects_limit_edge_cases_witness :
  fetch_projects config_chunk_3 post_all 1 (Some (-2))
  = Some (Returns (firstn 5 seven_projects), [{| q_limit := -2; q_skip := 0 |}]).
Proof.
  apply (proj2 (fetch_projects_limit_edge_cases config_chunk_3 post_all 0) (-2)
           seven_projects); [lia|discriminate|discriminate|reflexivity].
Defined.

(** ** One exchange rate per epoch *)

Section OneRate.
Context {rate : Type} (rate_truthy : rate -> bool)
  (usd_format : Z -> rate -> result string) (repr_container : json -> string)
  (env : @environment rate).

Ltac bind_inv H x E :=
  let st1 := fresh "st" in
  apply mbindM_Ok in H as (x & st1 & E & H).

Ltac lift_inv H x E :=
  bind_inv H x E; apply lift_Ok in E as [E ->].

Lemma touches_only_keeps epoch (st st' : @state rate) r :
  touches_only epoch st st' ->
  eth_usd_rates st !! epoch = Some r -> eth_usd_rates st' !! epoch = Some r.
Proof.
  intros (_ & _ & K) H. rewrite (K epoch); [exact H|]. right. rewrite H. eexists. reflexivity.
Qed.

Lemma wei_to_usd_rate w epoch (st : state) s st' :
  _wei_to_usd_str rate_truthy usd_format env w epoch st = (Ok (Some s), st') ->
  exists r n, eth_usd_rates st' !! epoch = Some r /\ rate_truthy r = true
              /\ usd_format n r = Ok s.
Proof.
  intros H. destruct (wei_to_usd_inv _ _ _ _ _ _ _ _ H) as [_ Hr].
  destruct (Hr s eq_refl) as (r & n & Ht & Hc & _ & Hf). exists r, n. auto.
Qed.

Lemma create_application_rate epoch rd md c k data (st : state) app st' s :
  create_application rate_truthy usd_format repr_container env epoch rd md c k data st
  = (Ok app, st') ->
  fundsApprovedInUSD app = Some s ->
  exists r n, eth_usd_rates st' !! epoch = Some r /\ rate_truthy r = true
              /\ usd_format n r = Ok s.
Proof.
  intros H Hs.
  apply create_application_inv in H as (pr & usd & st1 & _ & _ & _ & Eusd & H).
  destruct (py_truthy pr).
  - destruct H as (ma & m & musd & st2 & _ & _ & Emusd & _ & H).
    destruct (opt_truthy str_truthy musd).
    + rewrite Hs in H. exact (wei_to_usd_rate _ _ _ _ _ H).
    + destruct H as [Hu ->]. rewrite Hs in Hu. subst usd.
      destruct (wei_to_usd_rate _ _ _ _ _ Eusd) as (r & n & Hc & Ht & Hf).
      exists r, n. split; [|split; assumption].
      pose proof (wei_to_usd_touches rate_truthy usd_format env ma epoch st1) as Htouch.
      rewrite Emusd in Htouch. cbn [snd] in Htouch.
      exact (touches_only_keeps _ _ _ _ Htouch Hc).
  - destruct H as (_ & Hu & ->). rewrite Hs in Hu. subst usd.
    exact (wei_to_usd_rate _ _ _ _ _ Eusd).
Qed.

Lemma create_applications_rate epoch rd md pa : forall c (st : state) apps st',
  create_applications rate_truthy usd_format repr_container env epoch rd md c pa st
  = (Ok apps, st') ->
  forall app s, In app apps -> fundsApprovedInUSD app = Some s ->
    exists r n, eth_usd_rates st' !! epoch = Some r /\ rate_truthy r = true
                /\ usd_format n r = Ok s.
Proof.
  induction pa as [|[k data] pa IH]; intros c st apps st' H;
    cbn [create_applications] in H.
  - injection H as <- _. intros app s [].
  - bind_inv H app1 Eapp. bind_inv H rest Erest. injection H as <- <-.
    intros app s [<-|Hin] Hs.
    + destruct (create_application_rate _ _ _ _ _ _ _ _ _ _ Eapp Hs)
        as (r & n & Hc & Ht & Hf).
      exists r, n. split; [|split; assumption].
      pose proof (create_applications_touches rate_truthy usd_format repr_container env
                    epoch rd md pa (c + 1) st0) as Htouch.
      rewrite Erest in Htouch. cbn [snd] in Htouch.
      exact (touches_only_keeps _ _ _ _ Htouch Hc).
    + exact (IH _ _ _ _ Erest app s Hin Hs).
Qed.

(** X19.  All the USD figures of the applications of one document are
    computed with one exchange rate, the non-zero rate that the cache
    holds for the epoch when the document is returned. *)
Theorem usd_figures_share_one_rate epoch ad rd md (st : state) pool st' :
  generate_applications_from rate_truthy usd_format repr_container env epoch ad rd md st
  = (Ok pool, st') ->
  forall app s,
    In app (applications pool) -> fundsApprovedInUSD app = Some s ->
    exists r n, eth_usd_rates st' !! epoch = Some r /\ rate_truthy r = true
                /\ usd_format n r = Ok s.
Proof.
  unfold generate_applications_from. intros H. lift_inv H es Ees. cbv zeta in H.
  destruct (epoch_state_inv _ _ _ _ Ees) as [->|[->|(-> & Hrd & Hmd)]];
    cbn [fst snd negb] in H.
  - lift_inv H has Ehas. injection H as <- _. intros app s [].
  - lift_inv H has Ehas. injection H as <- _. intros app s [].
  - lift_inv H allocs Ea. lift_inv H l El. lift_inv H pa Epa.
    bind_inv H apps Eapps. injection H as <- <-. cbn [applications].
    exact (create_applications_rate _ _ _ _ _ _ _ _ Eapps).
Qed.

End OneRate.

Lemma usd_figures_share_one_rate_witness :
  exists pool st',
    scenario_C_run = (Ok pool, st')
    /\ forall app s,
         In app (applications pool) -> fundsApprovedInUSD app = Some s ->
         exists r n, eth_usd_rates st' !! 7 = Some r /\ rate_nonzero r = true
                     /\ usd_format_exact n r = Ok s.
Proof.
  assert (E : { p & { s : @state Z | scenario_C_run = (Ok p, s) } }).
  { eexists. eexists. vm_compute. reflexivity. }
  destruct E as (pool & st' & E).
  exists pool, st'. split; [exact E|].
  exact (usd_figures_share_one_rate rate_nonzero usd_format_exact repr_unused env_2000 7
           scenario_C_allocations scenario_C_rewards scenario_C_merkle state_initial
           pool st' E).
Defined.

(** ** Giveth: the identifier of a project *)

Lemma caip10_value_on_strings repr_container s network :
  transform_to_caip10_value repr_container (JStr s) network
  = transform_to_caip10 s network.
Proof. reflexivity. Qed.

Lemma transform_project_id_key config repr_container project tp :
  transform_project config repr_container project = Ok tp ->
  exists primary_address pid,
    primary_address_of project = Ok primary_address
    /\ giveth_project_id repr_container project primary_address = Ok (tp_id tp)
    /\ py_getitem project "id" = Ok pid
    /\ tp_attestationIssuersURI tp
       = base_uri config ++ "/attestations/project/" ++ py_str repr_container pid ++ ".json"
    /\ tp_relevantTo tp = [].
Proof.
  unfold transform_project. intros H.
  apply rbind_Ok in H as (pa & Epa & H). apply rbind_Ok in H as (pid0 & Eid & H).
  apply rbind_Ok in H as (sm & _ & H). apply rbind_Ok in H as (socials & _ & H).
  apply rbind_Ok in H as (title & _ & H). apply rbind_Ok in H as (descr & _ & H).
  apply rbind_Ok in H as (pid & Epid & H). apply rbind_Ok in H as (slug & _ & H).
  apply rbind_Ok in H as (pid' & Epid' & H). apply rbind_Ok in H as (image & _ & H).
  apply rbind_Ok in H as (cover & _ & H). injection H as <-.
  exists pa, pid'. cbn. repeat split; assumption.
Qed.



(** X21.  One project without an ["id"] entry makes [transform_projects]
    raise, whatever else the project has (a slug, a recipient address) and
    whatever the other projects are: no projects document is produced. *)
Theorem giveth_projects_need_id config repr_container projects project kv :
  In project projects ->
  project = JObj kv ->
  assoc "id" kv = None ->
  exists e, transform_projects config repr_container projects = Raise e.
Proof.
  intros Hin -> Hid.
  assert (Hone : forall tp, transform_project config repr_container (JObj kv) <> Ok tp).
  { intros tp H. destruct (transform_project_id_key _ _ _ _ H) as (_ & pid & _ & _ & E & _).
    cbn [py_getitem] in E. rewrite Hid in E. discriminate E. }
  induction projects as [|p projects IH]; [destruct Hin|].
  cbn [transform_projects]. destruct Hin as [->|Hin].
  - destruct (transform_project config repr_container (JObj kv)) as [tp|e] eqn:E.
    + exfalso. exact (Hone tp eq_refl).
    + exists e. reflexivity.
  - destruct (transform_project config repr_container p) as [tp|e]; cbn [rbind].
    + destruct (IH Hin) as [e ->]. exists e. reflexivity.
    + exists e. reflexivity.
Qed.

Lemma giveth_projects_need_id_witness :
  exists e,
    transform_projects GivethToDaoip5Config_default repr_unused
      [project_two_recipients; project_without_id] = Raise e.
Proof.
  apply (giveth_projects_need_id GivethToDaoip5Config_default repr_unused
           [project_two_recipients; project_without_id] project_without_id
           [("title", JStr "Trees"); ("slug", JStr "trees");
            ("addresses",
             JList [JObj [("address", JStr "0xAA"); ("isRecipient", JBool true)]])]).
  - right. left. reflexivity.
  - reflexivity.
  - reflexivity.
Defined.

(** ** The actions of processing an epoch *)

Section Actions.
Context {rate : Type} (rate_truthy : rate -> bool)
  (usd_format : Z -> rate -> result string) (repr_container : json -> string)
  (config : OctantConfig) (env : @environment rate).

Section Allowed.
Variable allowed : event -> Prop.






Variable epoch : Z.
Hypothesis allowed_historical : allowed (EvHistoricalRate epoch).
Hypothesis allowed_current : allowed EvCurrentRate.
Hypothesis allowed_now : allowed EvNow.







End Allowed.




End Actions.

(** ** The amount an application reports *)

Section ReportedAmounts.
Context {rate : Type} (rate_truthy : rate -> bool)
  (usd_format : Z -> rate -> result string) (repr_container : json -> string)
  (env : @environment rate).

Lemma create_application_reports epoch rd md c k data (st : state) app st' :
  create_application rate_truthy usd_format repr_container env epoch rd md c k data st
  = (Ok app, st') ->
  reports_allocated (totalAllocated data) app.
Proof.
  intros H.
  apply create_application_inv in H as (pr & usd & st1 & _ & _ & _ & _ & H).
  unfold reports_allocated. destruct (py_truthy pr).
  - destruct H as (ma & m & musd & st2 & _ & _ & _ & Hf & _).
    eexists. split; [rewrite Hf; reflexivity|apply py_int_str_of_int].
  - destruct H as (Hf & _). eexists. split; [rewrite Hf; reflexivity|].
    apply py_int_str_of_int.
Qed.

(** X23.  In the document of a completed epoch the first [fundsApproved]
    entry of the application of a project reports, in ETH and as a decimal
    text that [int] reads back unchanged, the sum of the amounts of all the
    allocation records of that project, and of no other record. *)
Theorem application_reports_project_sum epoch ad rd md (st : state) pool st' :
  generate_applications_from rate_truthy usd_format repr_container env epoch ad rd md st
  = (Ok pool, st') ->
  _epoch_status pool = "completed" ->
  exists allocs project_allocations,
    allocation_records ad = Ok allocs
    /\ group_allocations [] allocs = Ok project_allocations
    /\ Forall2 (fun e app => reports_allocated (project_sum allocs e.1) app)
         project_allocations (applications pool).
Proof.
  intros H Hs.
  destruct (generate_from_completed _ _ _ _ _ _ _ _ _ _ _ H Hs)
    as (_ & _ & allocs & pa & Ea & Epa & Eapps).
  exists allocs, pa. split; [exact Ea|]. split; [exact Epa|].
  apply (create_applications_Forall2 rate_truthy usd_format repr_container env epoch rd md
           (fun _ data app => reports_allocated (totalAllocated data) app)) in Eapps.
  2:{ intros c k data st0 app st0' Happ.
      exact (create_application_reports _ _ _ _ _ _ _ _ _ Happ). }
  destruct (group_allocations_holds allocs [] [] pa Epa) as [Hh _];
    [constructor|constructor|constructor|].
  cbn [app] in Hh. clear Epa H Hs.
  induction Eapps as [|e app pa apps Hr _ IH]; [constructor|].
  apply Forall_cons_iff in Hh as [(Hal & _ & Hto) Hh].
  constructor; [|exact (IH Hh)].
  unfold project_sum. rewrite <- Hal, <- Hto. exact Hr.
Qed.

End ReportedAmounts.

Lemma application_reports_project_sum_witness :
  exists pool st' allocs project_allocations,
    scenario_C_run = (Ok pool, st')
    /\ allocation_records scenario_C_allocations = Ok allocs
    /\ group_allocations [] allocs = Ok project_allocations
    /\ Forall2 (fun e app => reports_allocated (project_sum allocs e.1) app)
         project_allocations (applications pool)
    /\ project_sum allocs (HStr "0xAA") = 1500000000000000000.
Proof.
  assert (E : { p & { s : @state Z | scenario_C_run = (Ok p, s) } }).
  { eexists. eexists. vm_compute. reflexivity. }
  destruct E as (pool & st' & E).
  destruct (application_reports_project_sum rate_nonzero usd_format_exact repr_unused
              env_2000 7 scenario_C_allocations scenario_C_rewards scenario_C_merkle
              state_initial pool st' E)
    as (allocs & pa & H1 & H2 & H3).
  - revert E. vm_compute. intros [= <- _]. reflexivity.
  - exists pool, st', allocs, pa. split; [exact E|]. split; [exact H1|].
    split; [exact H2|]. split; [exact H3|].
    assert (Ha : allocation_records scenario_C_allocations
                 = Ok [JObj [("project", JStr "0xAA"); ("donor", JStr "0xD1");
                             ("amount", JStr "1000000000000000000")];
                       JObj [("project", JStr "0xAA"); ("donor", JStr "0xD2");
                             ("amount", JStr "500000000000000000")]])
      by reflexivity.
    rewrite Ha in H1. injection H1 as <-. vm_compute. reflexivity.
Defined.
